(** * libsignal-service-javascript: send and receive engines

    A shallow embedding of the parts of [src/outgoing_message.js] and
    [src/message_receiver.js] that carry the padding codec, the flag
    handling of [processDecrypted], the retry negotiator, the worker
    helpers, the envelope cache and the 409/410 recovery of the send
    engine, together with the properties established about them.

    Conventions.  JavaScript numbers that hold lengths, device ids and
    timestamps are integers ([Z]); a [Uint8Array] / [ArrayBuffer] is a
    [list byte]; an object used as a dictionary is a [gmap]; a function
    that may throw returns a [Completion]; asynchronous code that talks
    to the Store, the Server or the ratchet library is written in a
    state-and-exception monad over a world that records every external
    call in the order in which it is issued. *)

From Stdlib Require Import ZArith Lia.
From Stdlib.Strings Require Import Byte.
From stdpp Require Import base decidable option list gmap strings pretty.

Local Open Scope Z_scope.

(** ** Errors and completions *)

(** The body of a 409 / 410 answer of [server.sendMessages], the
    [response] of the [HTTPError].  The send path reads three keys of it
    and checks none of them: a key the body does not have is [None],
    which is [undefined] in the code. *)
Record HTTPResponse : Type := {
  extraDevices : option (list Z);
  missingDevices : option (list Z);
  staleDevices : option (list Z)
}.

(** The values this code throws, catches and inspects; all of them are
    instances of [Error].  [name_of], [message_of] and [code_of] are the
    [name], [message] and [code] properties the [catch] handlers test.
    Properties no handler reads (the stack, the JSON bundle kept on a
    [SendMessageNetworkError], the identity key) are left out. *)
#[warnings="-register-all"]
Inductive error : Type :=
| Error (message : string)
| RangeError
| TypeError (message : string)
| HTTPError (message : string) (code : Z) (response : HTTPResponse)
| IncomingIdentityKeyError (address : string) (ciphertext : list byte)
| UnregisteredUserError (number : string) (cause : error)
| SendMessageNetworkError (number : string) (cause : error) (timestamp : Z)
| OutgoingMessageError (number : string) (message : list byte) (timestamp : Z)
    (cause : option error).

Definition name_of (e : error) : string :=
  match e with
  | Error _ => "Error"
  | RangeError => "RangeError"
  | TypeError _ => "TypeError"
  | HTTPError _ _ _ => "HTTPError"
  | IncomingIdentityKeyError _ _ => "IncomingIdentityKeyError"
  | UnregisteredUserError _ _ => "UnregisteredUserError"
  | SendMessageNetworkError _ _ _ => "SendMessageNetworkError"
  | OutgoingMessageError _ _ _ _ => "OutgoingMessageError"
  end.

Fixpoint message_of (e : error) : string :=
  match e with
  | Error m | TypeError m | HTTPError m _ _ => m
  | RangeError => "offset is out of bounds"
  | IncomingIdentityKeyError a _ =>
      "The identity of " +:+ a +:+ " has changed."
  | UnregisteredUserError _ c | SendMessageNetworkError _ c _ => message_of c
  | OutgoingMessageError _ _ _ (Some c) => message_of c
  | OutgoingMessageError _ _ _ None => ""
  end.

Fixpoint code_of (e : error) : option Z :=
  match e with
  | HTTPError _ c _ => Some c
  | UnregisteredUserError _ c | SendMessageNetworkError _ c _ => code_of c
  | OutgoingMessageError _ _ _ (Some c) => code_of c
  | _ => None
  end.

(** [error.response]. *)
Definition response_of (e : error) : HTTPResponse :=
  match e with
  | HTTPError _ _ r => r
  | _ => {| extraDevices := None; missingDevices := None; staleDevices := None |}
  end.

Inductive Completion (A : Type) : Type :=
| Return (a : A)
| Throw (e : error).
Arguments Return {A} a.
Arguments Throw {A} e.

Definition cbind {A B} (c : Completion A) (k : A -> Completion B)
  : Completion B :=
  match c with
  | Return a => k a
  | Throw e => Throw e
  end.

(** ** Typed arrays *)

Module Uint8Array.

#[global] Instance byte_eq_dec : EqDecision byte := Byte.byte_eq_dec.

(** [new Uint8Array(n)]: [n] zero bytes. *)
Definition make (n : nat) : list byte := replicate n x00.

(** [target.set(source)]: copies [source] to the front of [target];
    a source longer than the target is a [RangeError]. *)
Definition set (target source : list byte) : Completion (list byte) :=
  if decide (length source <= length target)%nat
  then Return (source ++ drop (length source) target)
  else Throw RangeError.

(** [a.subarray(b, e)]. *)
Definition subarray (a : list byte) (b e : nat) : list byte :=
  take (e - b) (drop b a).

(** [a[i] = v]: an index past the end is ignored. *)
Definition store (a : list byte) (i : nat) (v : byte) : list byte :=
  <[i := v]> a.

End Uint8Array.

(** ** Padding codec *)

Module Padding.
Import Uint8Array.

(** [OutgoingMessage.getPaddedMessageLength]. [Math.floor(x / 160)] is
    [Z.div]; [%] is the truncating remainder [Z.rem].  The code computes
    in doubles, which agree with the integers used here as long as every
    intermediate value is below [2 ^ 53]: that is the case for the length
    of any buffer, the only argument [getPlaintext] passes; beyond it the
    code rounds and this definition does not apply. *)
Definition getPaddedMessageLength (messageLength : Z) : Z :=
  let messageLengthWithTerminator := messageLength + 1 in
  let messagePartCount := messageLengthWithTerminator / 160 in
  let messagePartCount :=
    if decide (Z.rem messageLengthWithTerminator 160 <> 0)
    then messagePartCount + 1
    else messagePartCount in
  messagePartCount * 160.

(** The body of the [if (!this.plaintext)] branch of
    [OutgoingMessage.getPlaintext], on the encoded message
    [messageBuffer = Content.encode(this.message).finish()]. *)
Definition buildPlaintext (messageBuffer : list byte)
  : Completion (list byte) :=
  let byteLength := length messageBuffer in
  let plaintext :=
    make (Z.to_nat (getPaddedMessageLength (Z.of_nat byteLength + 1) - 1)) in
  cbind (set plaintext messageBuffer) (fun plaintext =>
  Return (store plaintext byteLength x80)).

Definition InvalidPadding : error := Error "Invalid padding".

(** The [for] loop of [MessageReceiver.unpad]; [n] is [i + 1].  The
    result [None] is the [undefined] that is returned when the loop
    ends without having met a terminator.  An index outside the array
    reads [undefined], which is neither [0x80] nor [0x00]. *)
Fixpoint unpad_loop (paddedPlaintext : list byte) (n : nat)
  : Completion (option (list byte)) :=
  match n with
  | O => Return None
  | S i =>
      match paddedPlaintext !! i with
      | Some b =>
          if decide (b = x80) then
            cbind (set (make i) (subarray paddedPlaintext 0 i))
                  (fun plaintext => Return (Some plaintext))
          else if decide (b <> x00) then Throw InvalidPadding
          else unpad_loop paddedPlaintext i
      | None => Throw InvalidPadding
      end
  end.

Definition unpad (paddedData : list byte)
  : Completion (option (list byte)) :=
  unpad_loop paddedData (length paddedData).

End Padding.

(** ** JavaScript number and truthiness helpers *)

Module JS.

(** [ToInt32], applied to both operands of a bitwise operator. *)
Definition ToInt32 (x : Z) : Z := (x + 2 ^ 31) mod 2 ^ 32 - 2 ^ 31.

(** [a & b]. *)
Definition bitand (a b : Z) : Z := Z.land (ToInt32 a) (ToInt32 b).

(** Truthiness of a number, of a string and of an object reference that
    may be [null] / [undefined]. *)
Definition truthy_num (x : option Z) : bool :=
  match x with Some v => negb (v =? 0) | None => false end.

Definition truthy_str (x : option string) : bool :=
  match x with Some v => negb (String.eqb v "") | None => false end.

Definition truthy_obj {A} (x : option A) : bool :=
  match x with Some _ => true | None => false end.

(** Truthiness of [a.length]. *)
Definition truthy_len {A} (a : list A) : bool :=
  negb (length a =? 0)%nat.

(** [x || d] on numbers. *)
Definition or_num (x : option Z) (d : Z) : Z :=
  match x with
  | Some v => if v =? 0 then d else v
  | None => d
  end.

End JS.

(** ** Protobuf messages (the fields this code reads and writes) *)

Record AttachmentPointer : Type := { attachment_id : Z }.

Record GroupContext : Type := {
  group_id : list byte;
  group_type : Z;
  group_members : list string
}.

Record DataMessage : Type := {
  body : option string;
  attachments : list AttachmentPointer;
  group : option GroupContext;
  flags : option Z;
  expireTimer : option Z
}.

Inductive SyncMessage : Type := SyncMessageBody.
Inductive CallMessage : Type := CallMessageBody.
Inductive NullMessage : Type := NullMessageBody.

Record Content : Type := {
  dataMessage : option DataMessage;
  syncMessage : option SyncMessage;
  callMessage : option CallMessage;
  nullMessage : option NullMessage
}.

(** [DataMessage.Flags]. *)
Record FlagsEnum : Type := {
  END_SESSION : Z;
  EXPIRATION_TIMER_UPDATE : Z;
  PROFILE_KEY_UPDATE : Z
}.

(** Modelled from the spec: the protobuf schema ([protobufs.js] and the
    [.proto] files it loads) is not part of the sources at hand; the spec
    says the three flags are genuine flag bits of the Signal Service
    schema, whose [DataMessage.Flags] enum is the one below. *)
Definition SignalFlags : FlagsEnum :=
  {| END_SESSION := 1; EXPIRATION_TIMER_UPDATE := 2; PROFILE_KEY_UPDATE := 4 |}.

(** ** processDecrypted: defaults and flag handling *)

Module ProcessDecrypted.
Import JS.

Definition UnknownFlags : error := Error "Unknown flags in message".

(** How the first part of [processDecrypted] (up to and including the
    flag chain) ends when it does not throw: with the early
    [return Promise.resolve(decrypted)] of the END_SESSION branch, or
    by going on to the group, attachment, contact and quote handling
    with the message as changed so far. *)
Inductive flag_outcome : Type :=
| Resolved (decrypted : DataMessage)
| GoesOn (decrypted : DataMessage).

Definition with_defaults (decrypted : DataMessage) : DataMessage :=
  let decrypted :=
    match flags decrypted with
    | None => {| body := body decrypted; attachments := attachments decrypted;
                 group := group decrypted; flags := Some 0;
                 expireTimer := expireTimer decrypted |}
    | Some _ => decrypted
    end in
  match expireTimer decrypted with
  | None => {| body := body decrypted; attachments := attachments decrypted;
               group := group decrypted; flags := flags decrypted;
               expireTimer := Some 0 |}
  | Some _ => decrypted
  end.

Definition processDecrypted (FLAGS : FlagsEnum) (decrypted : DataMessage)
  : Completion flag_outcome :=
  let decrypted := with_defaults decrypted in
  let f := default 0 (flags decrypted) in
  if decide (bitand f (END_SESSION FLAGS) <> 0) then
    Return (Resolved {| body := None; attachments := []; group := None;
                        flags := flags decrypted;
                        expireTimer := expireTimer decrypted |})
  else if decide (bitand f (EXPIRATION_TIMER_UPDATE FLAGS) <> 0) then
    Return (GoesOn {| body := None; attachments := [];
                      group := group decrypted; flags := flags decrypted;
                      expireTimer := expireTimer decrypted |})
  else if decide (bitand f (PROFILE_KEY_UPDATE FLAGS) <> 0) then
    Return (GoesOn {| body := None; attachments := [];
                      group := group decrypted; flags := flags decrypted;
                      expireTimer := expireTimer decrypted |})
  else if decide (f <> 0) then Throw UnknownFlags
  else Return (GoesOn decrypted).

End ProcessDecrypted.

(** ** Retry negotiator *)

Module Retry.
Import JS.

(** [validateRetryContentMessage]. *)
Definition validateRetryContentMessage (content : Content) : bool :=
  if truthy_obj (syncMessage content) then false
  else
    let count := 0 in
    let count := count + (if truthy_obj (dataMessage content) then 1 else 0) in
    let count := count + (if truthy_obj (callMessage content) then 1 else 0) in
    let count := count + (if truthy_obj (nullMessage content) then 1 else 0) in
    if decide (count <> 1) then false
    else
      match dataMessage content with
      | Some data =>
          if negb (truthy_len (attachments data))
             && negb (truthy_str (body data))
             && negb (truthy_num (expireTimer data))
             && negb (truthy_num (flags data))
             && negb (truthy_obj (group data))
          then false
          else true
      | None => true
      end.

(** The [message] argument of [tryMessageAgain]. *)
Record StoredMessage : Type := {
  sent_at : option Z;
  received_at : option Z
}.

(** The envelope [tryMessageAgain] rebuilds. *)
Record RetryEnvelope : Type := {
  source : string;
  sourceDevice : Z;
  receivedAt : Z;
  timestamp : Z
}.

(** Which handler the plaintext is given to. *)
Inductive dispatch : Type :=
| LegacyMessage (envelope : RetryEnvelope) (plaintext : option (list byte))
| ContentMessage (envelope : RetryEnvelope) (plaintext : option (list byte)).

Definition startOfJune : Z := 1496300400000.

(** [new Uint8Array(plaintext)] where [plaintext] is what [unpad]
    returned: an [ArrayBuffer], or [undefined], which gives an empty
    array. *)
Definition bytes_of (plaintext : option (list byte)) : list byte :=
  default [] plaintext.

Section TryMessageAgain.
(** [Content.decode], which may throw. *)
Variable Content_decode : list byte -> Completion Content.
(** [sessionCipher.decryptPreKeyWhisperMessage]. *)
Variable cipher_decryptPreKeyWhisperMessage : list byte -> Completion (list byte).

(** [decryptPreKeyWhisperMessage]: a rejected decryption rejects the
    whole; what [unpad] throws goes through the [catch]. *)
Definition decryptPreKeyWhisperMessage (address : string)
    (ciphertext : list byte) : Completion (option (list byte)) :=
  cbind (cipher_decryptPreKeyWhisperMessage ciphertext) (fun padded =>
  match Padding.unpad padded with
  | Return plaintext => Return plaintext
  | Throw e =>
      if String.eqb (message_of e) "Unknown identity key"
      then Throw (IncomingIdentityKeyError address ciphertext)
      else Throw e
  end).

(** The callback [tryMessageAgain] attaches to the decryption.
    [now_sent] and [now_received] are the two readings of
    [Date.now()]. *)
Definition dispatchRetried (number : string) (device : Z)
    (message : StoredMessage) (now_sent now_received : Z)
    (plaintext : option (list byte)) : dispatch :=
  let sentAt := or_num (sent_at message) now_sent in
  let receivedAt := or_num (received_at message) now_received in
  let envelope :=
    {| source := number; sourceDevice := device;
       receivedAt := receivedAt; timestamp := sentAt |} in
  if decide (sentAt < startOfJune) then LegacyMessage envelope plaintext
  else
    match Content_decode (bytes_of plaintext) with
    | Return content =>
        if validateRetryContentMessage content
        then ContentMessage envelope plaintext
        else LegacyMessage envelope plaintext
    | Throw _ => LegacyMessage envelope plaintext
    end.

(** [tryMessageAgain] up to the choice of the handler: the failure of
    the decryption, or the handler the plaintext is given to and its
    arguments.  What the handler then does to the promise is in
    [RetryRun.tryMessageAgain]. *)
Definition tryMessageAgain (from number : string) (device : Z)
    (ciphertext : list byte) (message : StoredMessage)
    (now_sent now_received : Z) : Completion dispatch :=
  cbind (decryptPreKeyWhisperMessage from ciphertext) (fun plaintext =>
  Return (dispatchRetried number device message now_sent now_received
            plaintext)).

End TryMessageAgain.

End Retry.

(** ** Promises

    An asynchronous computation is run to the point where its promise
    settles.  It threads a world [W], which holds the state the code
    mutates and the record of what it did, and ends fulfilled, rejected,
    or still pending when the recursion budget of a retry loop is used
    up. *)

Inductive Settled (A : Type) : Type :=
| Fulfilled (a : A)
| Rejected (e : error)
| Pending.
Arguments Fulfilled {A} a.
Arguments Rejected {A} e.
Arguments Pending {A}.

Module Async.

Definition M (W A : Type) : Type := W -> Settled A * W.

Definition ret {W A} (a : A) : M W A := fun w => (Fulfilled a, w).

Definition reject {W A} (e : error) : M W A := fun w => (Rejected e, w).

(** [promise.then(onFulfilled, onRejected)]. *)
Definition then2 {W A B} (m : M W A) (onFulfilled : A -> M W B)
    (onRejected : error -> M W B) : M W B :=
  fun w =>
    match m w with
    | (Fulfilled a, w') => onFulfilled a w'
    | (Rejected e, w') => onRejected e w'
    | (Pending, w') => (Pending, w')
    end.

(** [promise.then(k)], and [await] followed by the rest of the body. *)
Definition bind {W A B} (m : M W A) (k : A -> M W B) : M W B :=
  then2 m k reject.

(** [promise.catch(h)], and [try { ... } catch (e) { ... }]. *)
Definition catch {W A} (m : M W A) (h : error -> M W A) : M W A :=
  then2 m ret h.

Definition settle {A} (c : Completion A) : Settled A :=
  match c with
  | Return a => Fulfilled a
  | Throw e => Rejected e
  end.

Definition lift {W A} (c : Completion A) : M W A :=
  match c with
  | Return a => ret a
  | Throw e => reject e
  end.

Definition modify {W} (f : W -> W) : M W unit := fun w => (Fulfilled tt, f w).

Definition gets {W A} (f : W -> A) : M W A := fun w => (Fulfilled (f w), w).

(** [Promise.all(ms)]: every member is started, in order; the result
    is the list of values, in the order of the members, when all are
    fulfilled, and is rejected when one is rejected.  When several
    members are rejected the code rejects with the rejection that comes
    first in time; the worlds here do not order the answers in time, and
    this definition takes the rejection of the earliest member.  What is
    stated about a rejected [all] does not depend on that choice. *)
Fixpoint all {W A} (ms : list (M W A)) : M W (list A) :=
  match ms with
  | [] => ret []
  | m :: ms' =>
      fun w =>
        let '(r, w1) := m w in
        let '(rs, w2) := all ms' w1 in
        (match r, rs with
         | Fulfilled a, Fulfilled l => Fulfilled (a :: l)
         | Rejected e, _ => Rejected e
         | _, Rejected e => Rejected e
         | _, _ => Pending
         end, w2)
  end.

(** A loop whose body is awaited: [for (...) { await body(x); }], or the
    chain [promise = promise.then(() => body(x))] built by a
    [forEach]. *)
Definition chain {W A} (body : A -> M W unit) (xs : list A) : M W unit :=
  fold_left (fun promise x => bind promise (fun _ => body x)) xs (ret tt).

End Async.

Declare Scope async_scope.
Delimit Scope async_scope with async.
Notation "'let*' x ':=' m 'in' k" := (Async.bind m (fun x => k))
  (at level 10, x pattern, m at level 100, k at level 200) : async_scope.
Notation "m ';;;' k" := (Async.bind m (fun _ => k))
  (at level 100, k at level 200, right associativity) : async_scope.

(** ** Utility worker and the conversion helpers *)

Module Worker.

(** The values the helpers take and give. *)
Inductive value : Type :=
| VUndefined
| VString (s : string)
| VBytes (b : list byte)
| VPromise (p : promise)
with promise : Type :=
| Resolved (v : value)
| WorkerJob (jobId : Z).

Record Job : Type := {
  fnName : string;
  start : Z;
  resolvers : bool
}.

(** [_jobCounter], [_jobs], what was posted to the worker, the timers
    that were set, and the reading of [Date.now()]. *)
Record State : Type := {
  _jobCounter : Z;
  _jobs : gmap Z Job;
  posted : list (Z * string * value);
  timers : list (Z * Z);
  clock : Z
}.

Definition WORKER_TIMEOUT : Z := 60 * 1000.

Definition _makeJob (name : string) (s : State) : Z * State :=
  let counter := _jobCounter s + 1 in
  let id := counter in
  (id, {| _jobCounter := counter;
          _jobs := <[id := {| fnName := name; start := clock s;
                              resolvers := false |}]> (_jobs s);
          posted := posted s; timers := timers s; clock := clock s |}).

Definition _updateJob (id : Z) (s : State) : State :=
  {| _jobCounter := _jobCounter s;
     _jobs := alter (fun j => {| fnName := fnName j; start := start j;
                                 resolvers := true |}) id (_jobs s);
     posted := posted s; timers := timers s; clock := clock s |}.

Definition postMessage (m : Z * string * value) (s : State) : State :=
  {| _jobCounter := _jobCounter s; _jobs := _jobs s;
     posted := posted s ++ [m]; timers := timers s; clock := clock s |}.

Definition setTimeout (jobId delay : Z) (s : State) : State :=
  {| _jobCounter := _jobCounter s; _jobs := _jobs s;
     posted := posted s; timers := timers s ++ [(jobId, delay)];
     clock := clock s |}.

(** [callWorker(fnName, arg)]: registers the job, posts it, and gives
    the promise that the worker's reply settles. *)
Definition callWorker (name : string) (arg : value) (s : State)
  : value * State :=
  let '(jobId, s) := _makeJob name s in
  let s := postMessage (jobId, name, arg) s in
  let s := _updateJob jobId s in
  let s := setTimeout jobId WORKER_TIMEOUT s in
  (VPromise (WorkerJob jobId), s).

(** A method whose body is one expression statement: the expression is
    evaluated, its value is dropped, and the call gives [undefined]. *)
Definition expression_statement (e : State -> value * State)
  : State -> value * State :=
  fun s => (VUndefined, snd (e s)).

Section Helpers.
(** [ByteBuffer.wrap(string, "binary").toArrayBuffer()] and
    [ByteBuffer.wrap(arrayBuffer).toString("binary")]. *)
Variable binary_to_bytes : string -> list byte.
Variable bytes_to_binary : list byte -> string.

(** The expressions in the bodies of the four helpers. *)
Definition stringToArrayBuffer_inner (str : string) : State -> value * State :=
  fun s => (VPromise (Resolved (VBytes (binary_to_bytes str))), s).

Definition arrayBufferToString_inner (arrayBuffer : list byte)
  : State -> value * State :=
  fun s => (VPromise (Resolved (VString (bytes_to_binary arrayBuffer))), s).

Definition stringToArrayBufferBase64_inner (str : string)
  : State -> value * State :=
  callWorker "stringToArrayBufferBase64" (VString str).

Definition arrayBufferToStringBase64_inner (arrayBuffer : list byte)
  : State -> value * State :=
  callWorker "arrayBufferToStringBase64" (VBytes arrayBuffer).

(** The helpers as [MessageReceiver] declares them. *)
Definition stringToArrayBuffer (str : string) :=
  expression_statement (stringToArrayBuffer_inner str).

Definition arrayBufferToString (arrayBuffer : list byte) :=
  expression_statement (arrayBufferToString_inner arrayBuffer).

Definition stringToArrayBufferBase64 (str : string) :=
  expression_statement (stringToArrayBufferBase64_inner str).

Definition arrayBufferToStringBase64 (arrayBuffer : list byte) :=
  expression_statement (arrayBufferToStringBase64_inner arrayBuffer).

End Helpers.

End Worker.

(** ** Receive path: envelope cache and request handling *)

Module Receiver.
Import Async Worker.
Local Open Scope async_scope.

Record Envelope : Type := {
  source : string;
  sourceDevice : Z;
  timestamp : Z;
  content : option (list byte);
  legacyMessage : option (list byte)
}.

(** [getEnvelopeId]. *)
Definition getEnvelopeId (envelope : Envelope) : string :=
  source envelope +:+ "." +:+ pretty (sourceDevice envelope) +:+ " "
  +:+ pretty (timestamp envelope).

(** An item of the unprocessed cache.  [envelope] and [decrypted] hold
    a string, bytes, or nothing; [attempts] may be missing. *)
Record UnprocessedItem : Type := {
  item_id : string;
  version : Z;
  envelope : value;
  decrypted : value;
  item_timestamp : Z;
  attempts : option Z
}.

Definition with_attempts (item : UnprocessedItem) (n : Z) : UnprocessedItem :=
  {| item_id := item_id item; version := version item;
     envelope := envelope item; decrypted := decrypted item;
     item_timestamp := item_timestamp item; attempts := Some n |}.

(** The operations of the Store on the unprocessed cache. *)
Inductive StoreOp : Type :=
| CountUnprocessed
| RemoveAllUnprocessed
| GetAllUnprocessed
| RemoveUnprocessed (id : string)
| UpdateUnprocessed (id : string) (data : UnprocessedItem)
| AddUnprocessed (data : UnprocessedItem).

(** What the receiver does that can be observed from outside, in the
    order in which it does it: operations on the unprocessed cache
    asked of the Store (and whether they succeeded), answers to the
    server, envelopes put on the task queue, events given to the
    listeners. *)
Inductive Event : Type :=
| StoreCall (op : StoreOp) (ok : bool)
| Respond (status : Z) (reason : string)
| QueueEnvelope (envelope : Envelope)
| QueueDecryptedEnvelope (envelope : Envelope) (plaintext : value)
| DispatchError (e : error)
| OnEmpty.

Record World : Type := {
  unprocessed : list UnprocessedItem;
  blocked : list string;
  worker : Worker.State;
  log : list Event
}.

Definition record (ev : Event) (w : World) : World :=
  {| unprocessed := unprocessed w; blocked := blocked w;
     worker := worker w; log := log w ++ [ev] |}.

Definition set_unprocessed (items : list UnprocessedItem) (w : World) : World :=
  {| unprocessed := items; blocked := blocked w;
     worker := worker w; log := log w |}.

Definition set_worker (s : Worker.State) (w : World) : World :=
  {| unprocessed := unprocessed w; blocked := blocked w;
     worker := s; log := log w |}.

(** Truthiness of a helper value. *)
Definition truthy (v : value) : bool :=
  match v with
  | VUndefined => false
  | VString s => negb (String.eqb s "")
  | VBytes _ | VPromise _ => true
  end.

(** [typeof v === "string"]. *)
Definition is_string (v : value) : bool :=
  match v with VString _ => true | _ => false end.

Section Receive.
(** The Store may reject a call; the answer can depend on all that
    happened before. *)
Variable store_rejects : list Event -> StoreOp -> option error.
(** [Envelope.decode] and [crypto.decryptWebsocketMessage(_, signalingKey)]. *)
Variable Envelope_decode : list byte -> Completion Envelope.
Variable decryptWebsocketMessage : list byte -> Completion (list byte).
(** [ToIndex(ToNumber(s))], the length [new Uint8Array(s)] gives for a
    string [s]. *)
Variable string_to_index : string -> nat.
(** How the promise at the tail of [this.incoming] settles. *)
Variable lastPromise : Settled unit.
(** [Date.now()]. *)
Variable now : Z.

(** Modelled from the spec: the Store is supplied by the caller and
    its code is not part of the sources; section 6 of the spec lists
    [addUnprocessed], [updateUnprocessed], [getAllUnprocessed],
    [countUnprocessed], [removeUnprocessed(id)] and
    [removeAllUnprocessed] over a cache keyed by the envelope id.  A
    call that the Store rejects leaves the cache as it was. *)
Definition store_call {A} (op : StoreOp)
    (result : list UnprocessedItem -> A)
    (update : list UnprocessedItem -> list UnprocessedItem)
  : M World A :=
  fun w =>
    match store_rejects (log w) op with
    | Some e => (Rejected e, record (StoreCall op false) w)
    | None =>
        (Fulfilled (result (unprocessed w)),
         record (StoreCall op true)
           (set_unprocessed (update (unprocessed w)) w))
    end.

Definition countUnprocessed : M World Z :=
  store_call CountUnprocessed (fun items => Z.of_nat (length items))
             (fun items => items).

Definition removeAllUnprocessed : M World unit :=
  store_call RemoveAllUnprocessed (fun _ => tt) (fun _ => []).

Definition getAllUnprocessed : M World (list UnprocessedItem) :=
  store_call GetAllUnprocessed (fun items => items) (fun items => items).

Definition removeUnprocessed (id : string) : M World unit :=
  store_call (RemoveUnprocessed id) (fun _ => tt)
             (filter (fun item => item_id item <> id)).

Definition updateUnprocessed (id : string) (data : UnprocessedItem)
  : M World unit :=
  store_call (UpdateUnprocessed id data) (fun _ => tt)
             (map (fun item => if decide (item_id item = id) then data else item)).

Definition addUnprocessed (data : UnprocessedItem) : M World unit :=
  store_call (AddUnprocessed data) (fun _ => tt)
             (fun items => items ++ [data]).

Definition emit (ev : Event) : M World unit := modify (record ev).

(** [new Uint8Array(v)]. *)
Definition Uint8Array_from (v : value) : list byte :=
  match v with
  | VUndefined => []
  | VBytes b => b
  | VString s => Uint8Array.make (string_to_index s)
  | VPromise _ => []
  end.

(** [await v]: a value that is not a promise is its own result. *)
Definition await (worker_reply : Z -> Settled value) (v : value)
  : M World value :=
  match v with
  | VPromise (Resolved r) => ret r
  | VPromise (WorkerJob id) => fun w => (worker_reply id, w)
  | _ => ret v
  end.

(** A call of an instance helper, [this.helper(x)]. *)
Definition call_helper (helper : Worker.State -> value * Worker.State)
  : M World value :=
  fun w => let '(v, s) := helper (worker w) in (Fulfilled v, set_worker s w).

(** A call [MessageReceiver.helper(x)]: the class declares the four
    helpers as instance methods and has no static member of that
    name, so the callee is [undefined]. *)
Definition call_static (name : string) : M World value :=
  reject (TypeError ("MessageReceiver." +:+ name +:+ " is not a function")).

Variable worker_reply : Z -> Settled value.

Definition queueEnvelope (envelope : Envelope) : M World unit :=
  emit (QueueEnvelope envelope).

Definition queueDecryptedEnvelope (envelope : Envelope) (plaintext : value)
  : M World unit :=
  emit (QueueDecryptedEnvelope envelope plaintext).

(** [1 + (item.attempts || 0)]. *)
Definition incremented (item : UnprocessedItem) : Z :=
  1 + JS.or_num (attempts item) 0.

(** The function [getAllFromCache] maps over the items it loaded. *)
Definition touch (item : UnprocessedItem) : M World UnprocessedItem :=
  let attempts := incremented item in
  catch (if decide (attempts >= 3)
         then removeUnprocessed (item_id item)
         else updateUnprocessed (item_id item) (with_attempts item attempts))
        (fun _ => ret tt) ;;;
  ret item.

(** [getAllFromCache]. *)
Definition getAllFromCache : M World (list UnprocessedItem) :=
  let* count := countUnprocessed in
  if decide (count > 250) then
    removeAllUnprocessed ;;; ret []
  else
    let* items := getAllUnprocessed in
    all (map touch items).

(** [queueCached]. *)
Definition queueCached (item : UnprocessedItem) : M World unit :=
  catch
    (let envelopePlaintext := envelope item in
     let* envelopePlaintext :=
       (if decide (version item = 2)
        then let* p := call_static "stringToArrayBufferBase64" in
             await worker_reply p
        else ret envelopePlaintext) in
     let* envelopePlaintext :=
       (if is_string envelopePlaintext
        then let* p := call_static "stringToArrayBuffer" in
             await worker_reply p
        else ret envelopePlaintext) in
     let* envelope := lift (Envelope_decode (Uint8Array_from envelopePlaintext)) in
     if truthy (decrypted item) then
       let payloadPlaintext := decrypted item in
       let* payloadPlaintext :=
         (if decide (version item = 2)
          then let* p := call_static "stringToArrayBufferBase64" in
               await worker_reply p
          else ret payloadPlaintext) in
       let* payloadPlaintext :=
         (if is_string payloadPlaintext
          then let* p := call_static "stringToArrayBuffer" in
               await worker_reply p
          else ret payloadPlaintext) in
       queueDecryptedEnvelope envelope payloadPlaintext
     else queueEnvelope envelope)
    (fun _ => catch (removeUnprocessed (item_id item)) (fun _ => ret tt)).

(** [queueAllCached]. *)
Definition queueAllCached : M World unit :=
  let* items := getAllFromCache in
  chain queueCached items.

(** [isBlocked].  The code reads the list with the synchronous
    [this.store.get("blocked", [])]; here the list is the [blocked] field
    of the world.  This read is not one of the operations on the
    unprocessed cache and is not written to the log. *)
Definition isBlocked (number : string) : M World bool :=
  gets (fun w => bool_decide (number ∈ blocked w)).

(** [addToCache]. *)
Definition addToCache (envelope : Envelope) (plaintext : list byte)
  : M World unit :=
  let id := getEnvelopeId envelope in
  let* p := call_helper (arrayBufferToStringBase64 plaintext) in
  let* decoded := await worker_reply p in
  let data :=
    {| item_id := id; version := 2;
       envelope := VBytes (Uint8Array_from decoded);
       decrypted := VUndefined; item_timestamp := now;
       attempts := Some 1 |} in
  addUnprocessed data.

Record Request : Type := {
  verb : string;
  path : string;
  body : list byte
}.

Definition respond (status : Z) (reason : string) : M World unit :=
  emit (Respond status reason).

(** [handleRequest], run until the promise pushed on [this.incoming]
    settles. *)
Definition handleRequest (request : Request) : M World unit :=
  if negb (String.eqb (path request) "/api/v1/message") then
    respond 200 "OK" ;;;
    if String.eqb (verb request) "PUT"
       && String.eqb (path request) "/api/v1/queue/empty"
    then emit OnEmpty
    else ret tt
  else
    catch
      (let* plaintext := lift (decryptWebsocketMessage (body request)) in
       let* envelope := lift (Envelope_decode plaintext) in
       let* isblocked := isBlocked (source envelope) in
       if isblocked then respond 200 "OK"
       else
         then2 (addToCache envelope plaintext)
           (fun _ =>
              respond 200 "OK" ;;;
              (fun w => (lastPromise, w)) ;;;
              queueEnvelope envelope)
           (fun _ => respond 500 "Failed to cache message"))
      (fun e =>
         respond 500 "Bad encrypted websocket message" ;;;
         emit (DispatchError e)).

(** The item [addToCache] hands to the Store.  Its [envelope] field is
    the empty array: [arrayBufferToStringBase64] gives [undefined], and
    [new Uint8Array(undefined)] has length 0. *)
Definition cached_item (envelope : Envelope) : UnprocessedItem :=
  {| item_id := getEnvelopeId envelope; version := 2;
     envelope := VBytes []; decrypted := VUndefined;
     item_timestamp := now; attempts := Some 1 |}.

(** What the startup scan asks of the Store for an item, what that does
    to the cache, and what is left of the item in the cache. *)
Definition scan_op (item : UnprocessedItem) : StoreOp :=
  if decide (incremented item >= 3)
  then RemoveUnprocessed (item_id item)
  else UpdateUnprocessed (item_id item) (with_attempts item (incremented item)).

Definition scan_update (cache : list UnprocessedItem) (item : UnprocessedItem)
  : list UnprocessedItem :=
  if decide (incremented item >= 3)
  then filter (fun x => item_id x <> item_id item) cache
  else map (fun x => if decide (item_id x = item_id item)
                     then with_attempts item (incremented item) else x) cache.

(** What is left of a scanned item in the cache. *)
Definition kept (item : UnprocessedItem) : option UnprocessedItem :=
  if decide (incremented item >= 3) then None
  else Some (with_attempts item (incremented item)).

End Receive.

End Receiver.

(** ** Send path *)

Module Sender.
Import Async.
Local Open Scope async_scope.

Record Device : Type := {
  deviceId : Z;
  registrationId : Z
}.

(** The answer of [server.getKeysForNumber]. *)
Record KeysResponse : Type := {
  identityKey : list byte;
  devices : list Device
}.

(** What [sessionCipher.encrypt] gives. *)
Record Ciphertext : Type := {
  cipher_type : Z;
  cipher_registrationId : Z;
  cipher_body : string
}.

(** One entry of the JSON bundle posted to the server. *)
Record DeviceCiphertext : Type := {
  type : Z;
  destinationDeviceId : Z;
  destinationRegistrationId : Z;
  content : string
}.

(** An entry of [this.errors]: the error with the [number] and [reason]
    that [registerError] writes on it. *)
Record RegisteredError : Type := {
  registered : error;
  error_number : string;
  error_reason : string
}.

(** The calls the send path makes on the Server, the Store, the ratchet
    library and its own callback. *)
Inductive Call : Type :=
| GetKeysForNumber (number : string) (device : option Z)
| ProcessPreKey (number : string) (device : Device)
| SendMessages (number : string) (jsonData : list DeviceCiphertext)
    (timestamp : Z) (silent : bool)
| GetDeviceIds (number : string)
| RemoveSession (encodedNumber : string)
| Encrypt (number : string) (device : Z) (unlimitedKeys : bool)
    (plaintext : list byte)
| CloseOpenSessionForDevice (number : string) (device : Z)
| Callback (successfulNumbers : list string) (errors : list RegisteredError).

(** How the collaborators answer.  An answer may depend on every call
    made so far. *)
Record Environment : Type := {
  server_getKeysForNumber :
    list Call -> string -> option Z -> Completion KeysResponse;
  builder_processPreKey : list Call -> string -> Device -> Completion unit;
  server_sendMessages :
    list Call -> string -> list DeviceCiphertext -> Completion unit;
  store_getDeviceIds : list Call -> string -> Completion (list Z);
  store_removeSession : list Call -> string -> Completion unit;
  store_userGetNumber : string;
  cipher_encrypt : list Call -> string -> Z -> list byte -> Completion Ciphertext;
  cipher_closeOpenSessionForDevice :
    list Call -> string -> Z -> Completion unit;
  btoa : string -> string;
  Content_encode : Content -> list byte
}.

(** The fields of an [OutgoingMessage] that do not change. *)
Record OutgoingMessage : Type := {
  timestamp : Z;
  numbers : list string;
  message : Content;
  silent : bool
}.

(** The fields that do, and the calls made so far. *)
Record World : Type := {
  calls : list Call;
  plaintext : option (list byte);
  numbersCompleted : Z;
  errors : list RegisteredError;
  successfulNumbers : list string
}.

Definition record (c : Call) (w : World) : World :=
  {| calls := calls w ++ [c]; plaintext := plaintext w;
     numbersCompleted := numbersCompleted w; errors := errors w;
     successfulNumbers := successfulNumbers w |}.

(** Whether a call is a key fetch. *)
Definition is_fetch (c : Call) : bool :=
  match c with GetKeysForNumber _ _ => true | _ => false end.

Definition no_fetch (cs : list Call) : Prop := Forall (fun c => is_fetch c = false) cs.

(** The call record of a loop that fetches keys one device at a time:
    one segment per device, opened by the fetch for that device and
    holding no other fetch. *)
Definition fetched_serially (number : string) (devices : list Z)
    (segments : list (list Call)) : Prop :=
  Forall2 (fun device segment =>
             exists tl : list Call,
               segment = GetKeysForNumber number (Some device) :: tl /\
               no_fetch tl)
          devices segments.

Section Send.
Variable env : Environment.
Variable this : OutgoingMessage.

(** A call whose answer comes from the environment. *)
Definition call {A} (c : Call) (answer : list Call -> Completion A) : M World A :=
  fun w => (settle (answer (calls w)), record c w).

(** [numberCompleted]. *)
Definition numberCompleted : M World unit :=
  fun w =>
    let completed := numbersCompleted w + 1 in
    let w := {| calls := calls w; plaintext := plaintext w;
                numbersCompleted := completed; errors := errors w;
                successfulNumbers := successfulNumbers w |} in
    if decide (completed >= Z.of_nat (length (numbers this)))
    then (Fulfilled tt, record (Callback (successfulNumbers w) (errors w)) w)
    else (Fulfilled tt, w).

(** [registerError]; [None] is a [null] error. *)
Definition registerError (number reason : string) (error : option error)
  : M World unit :=
  let error :=
    match error with
    | None =>
        OutgoingMessageError number (Content_encode env (message this))
          (timestamp this) None
    | Some e =>
        if String.eqb (name_of e) "HTTPError"
           && negb (bool_decide (code_of e = Some 404))
        then OutgoingMessageError number (Content_encode env (message this))
               (timestamp this) (Some e)
        else e
    end in
  modify (fun w =>
    {| calls := calls w; plaintext := plaintext w;
       numbersCompleted := numbersCompleted w;
       errors := errors w ++ [{| registered := error; error_number := number;
                                 error_reason := reason |}];
       successfulNumbers := successfulNumbers w |}) ;;;
  numberCompleted.

(** The encoded number [`${number}.${device}`]. *)
Definition encodedNumber (number : string) (device : Z) : string :=
  number +:+ "." +:+ pretty device.

(** [removeDeviceIdsForNumber]. *)
Definition removeDeviceIdsForNumber (number : string) (deviceIdsToRemove : list Z)
  : M World unit :=
  chain (fun device =>
           call (RemoveSession (encodedNumber number device))
                (fun h => store_removeSession env h (encodedNumber number device)))
        deviceIdsToRemove.

(** [handleResult] inside [getKeysForNumber].  The [catch] on
    [processPreKey] writes the timestamp, the encoded message and the
    identity key on an "Identity key changed" error and throws the error
    again; those properties are not represented. *)
Definition handleResult (number : string) (updateDevices : option (list Z))
    (response : KeysResponse) : M World (list unit) :=
  all (map (fun device =>
              if match updateDevices with
                 | None => true
                 | Some ds => bool_decide (deviceId device ∈ ds)
                 end
              then catch (call (ProcessPreKey number device)
                               (fun h => builder_processPreKey env h number device))
                         (fun error => reject error)
              else ret tt)
           (devices response)).

(** The promise one round of the [forEach] in [getKeysForNumber] adds
    to the chain. *)
Definition fetchDevice (number : string) (updateDevices : list Z) (device : Z)
  : M World unit :=
  catch (let* response :=
           call (GetKeysForNumber number (Some device))
                (fun h => server_getKeysForNumber env h number (Some device)) in
         handleResult number (Some updateDevices) response ;;; ret tt)
        (fun e =>
           if String.eqb (name_of e) "HTTPError"
              && bool_decide (code_of e = Some 404)
           then
             if decide (device <> 1)
             then removeDeviceIdsForNumber number [device]
             else reject (UnregisteredUserError number e)
           else reject e).

(** [getKeysForNumber]; [None] is an [updateDevices] that is
    [undefined]. *)
Definition getKeysForNumber (number : string) (updateDevices : option (list Z))
  : M World unit :=
  match updateDevices with
  | None =>
      let* response :=
        call (GetKeysForNumber number None)
             (fun h => server_getKeysForNumber env h number None) in
      handleResult number None response ;;; ret tt
  | Some devices => chain (fetchDevice number devices) devices
  end.

(** [transmitMessage]. *)
Definition transmitMessage (number : string) (jsonData : list DeviceCiphertext)
  : M World unit :=
  catch (call (SendMessages number jsonData (timestamp this) (silent this))
              (fun h => server_sendMessages env h number jsonData))
        (fun e =>
           if String.eqb (name_of e) "HTTPError"
              && negb (bool_decide (code_of e = Some 409))
              && negb (bool_decide (code_of e = Some 410))
           then
             if bool_decide (code_of e = Some 404)
             then reject (UnregisteredUserError number e)
             else reject (SendMessageNetworkError number e (timestamp this))
           else reject e).

(** [getPlaintext]. *)
Definition getPlaintext : M World (list byte) :=
  fun w =>
    match plaintext w with
    | Some p => (Fulfilled p, w)
    | None =>
        match Padding.buildPlaintext (Content_encode env (message this)) with
        | Return p =>
            (Fulfilled p,
             {| calls := calls w; plaintext := Some p;
                numbersCompleted := numbersCompleted w; errors := errors w;
                successfulNumbers := successfulNumbers w |})
        | Throw e => (Rejected e, w)
        end
    end.

(** The [ciphers] object after the [map] over [deviceIds]: one session
    cipher, here its address, under each device id. *)
Definition ciphersFor (number : string) (deviceIds : list Z)
  : gmap Z (string * Z) :=
  foldl (fun ciphers device => <[device := (number, device)]> ciphers) ∅ deviceIds.

(** The encryption for one device in [doSendMessage]. *)
Definition encryptFor (number : string) (plaintext : list byte) (device : Z)
  : M World DeviceCiphertext :=
  let ourNumber := store_userGetNumber env in
  let unlimitedKeys := String.eqb ourNumber number in
  let* ciphertext :=
    call (Encrypt number device unlimitedKeys plaintext)
         (fun h => cipher_encrypt env h number device plaintext) in
  ret {| type := cipher_type ciphertext;
         destinationDeviceId := device;
         destinationRegistrationId := cipher_registrationId ciphertext;
         content := btoa env (cipher_body ciphertext) |}.

(** The chain of [doSendMessage] before its [catch]: encrypt for every
    device, post the bundle, count the number as done. *)
Definition attempt (number : string) (deviceIds : list Z) (plaintext : list byte)
  : M World unit :=
  let* jsonData := all (map (encryptFor number plaintext) deviceIds) in
  transmitMessage number jsonData ;;;
  modify (fun w =>
    {| calls := calls w; plaintext := Sender.plaintext w;
       numbersCompleted := numbersCompleted w; errors := errors w;
       successfulNumbers := successfulNumbers w ++ [number] |}) ;;;
  numberCompleted.

(** [Promise.all(staleDevices.map(id => ciphers[id].closeOpenSessionForDevice()))].
    A device without a cipher makes the [map] throw a [TypeError] on
    the spot: the sessions before it have been asked to close, those
    after it have not. *)
Fixpoint closeStale (ciphers : gmap Z (string * Z)) (stale : list Z)
    (started : list (M World unit)) : M World (list unit) :=
  match stale with
  | [] => all started
  | device :: stale =>
      match ciphers !! device with
      | Some (number, device) =>
          closeStale ciphers stale
            (started ++
             [call (CloseOpenSessionForDevice number device)
                   (fun h => cipher_closeOpenSessionForDevice env h number device)])
      | None =>
          fun w =>
            (Rejected (TypeError
               "Cannot read property 'closeOpenSessionForDevice' of undefined"),
             snd (all started w))
      end
  end.

(** [reloadDevicesAndSend(number, recurse)()], with [doSendMessage]
    given as an argument. *)
Definition reloadDevicesAndSendWith
    (doSendMessage : string -> list Z -> bool -> M World unit)
    (number : string) (recurse : bool) : M World unit :=
  let* deviceIds :=
    call (GetDeviceIds number) (fun h => store_getDeviceIds env h number) in
  if decide (length deviceIds = 0%nat)
  then registerError number "Got empty device list when loading device keys" None
  else doSendMessage number deviceIds recurse.

(** The [catch] handler of [doSendMessage].  The keys of
    [error.response] are used as they come: without [extraDevices] no
    session is removed, without [staleDevices] the [map] throws a
    [TypeError], and a reset list that is [undefined] makes
    [getKeysForNumber] fetch the keys of the whole number. *)
Definition recover (doSendMessage : string -> list Z -> bool -> M World unit)
    (number : string) (deviceIds : list Z) (recurse : bool) (error : error)
  : M World unit :=
  if String.eqb (name_of error) "HTTPError"
     && (bool_decide (code_of error = Some 410)
         || bool_decide (code_of error = Some 409))
  then
    if negb recurse
    then registerError number
           "Hit retry limit attempting to reload device list" (Some error)
    else
      let response := response_of error in
      (if bool_decide (code_of error = Some 409)
       then
         (* [for (const j in undefined)] runs no round *)
         removeDeviceIdsForNumber number (default [] (extraDevices response))
       else
         match staleDevices response with
         | Some stale =>
             closeStale (ciphersFor number deviceIds) stale [] ;;; ret tt
         | None => reject (TypeError "Cannot read property 'map' of undefined")
         end) ;;;
      let resetDevices :=
        if bool_decide (code_of error = Some 410) then staleDevices response
        else missingDevices response in
      getKeysForNumber number resetDevices ;;;
      reloadDevicesAndSendWith doSendMessage number
        (bool_decide (code_of error = Some 409))
  else if String.eqb (message_of error) "Identity key changed"
  then reject error
  else registerError number "Failed to create or send message" (Some error).

(** [doSendMessage].  [fuel] bounds the number of nested calls: a server
    that answers 409 every time makes the real code retry without
    end. *)
Fixpoint doSendMessage (fuel : nat) (number : string) (deviceIds : list Z)
    (recurse : bool) : M World unit :=
  match fuel with
  | O => fun w => (Pending, w)
  | S fuel =>
      let* plaintext := getPlaintext in
      catch (attempt number deviceIds plaintext)
            (recover (doSendMessage fuel) number deviceIds recurse)
  end.

Definition reloadDevicesAndSend (fuel : nat) (number : string) (recurse : bool)
  : M World unit :=
  reloadDevicesAndSendWith (doSendMessage fuel) number recurse.

(** One member of the [Promise.all] that closes the stale sessions. *)
Definition closeCall (number : string) (device : Z) : M World unit :=
  call (CloseOpenSessionForDevice number device)
       (fun h => cipher_closeOpenSessionForDevice env h number device).

(** The entry [registerError] makes for an HTTP error whose code is not
    404. *)
Definition wrapped (number reason : string) (e : error) : RegisteredError :=
  {| registered := OutgoingMessageError number (Content_encode env (message this))
                     (timestamp this) (Some e);
     error_number := number; error_reason := reason |}.

End Send.

End Sender.

(** ** The validation rule of the retry negotiator, as specified *)

(** The validation rule in the words of the specification: no sync
    message; exactly one of data, call and null message; and a data
    message carries attachments, a body, a timer, flags or a group. *)
Definition has_meaningful_field (data : DataMessage) : Prop :=
  attachments data <> [] \/
  (exists s : string, body data = Some s /\ s <> "") \/
  (exists t : Z, expireTimer data = Some t /\ t <> 0) \/
  (exists f : Z, flags data = Some f /\ f <> 0) \/
  is_Some (group data).

Definition exactly_one_payload (content : Content) : Prop :=
  (is_Some (dataMessage content) /\ callMessage content = None
   /\ nullMessage content = None) \/
  (dataMessage content = None /\ is_Some (callMessage content)
   /\ nullMessage content = None) \/
  (dataMessage content = None /\ callMessage content = None
   /\ is_Some (nullMessage content)).

Definition RetryContentValid (content : Content) : Prop :=
  syncMessage content = None /\
  exactly_one_payload content /\
  forall data : DataMessage,
    dataMessage content = Some data -> has_meaningful_field data.

(** ** Concrete inputs *)

Definition flags9 : DataMessage :=
  {| body := Some "hello"; attachments := []; group := None;
     flags := Some 9; expireTimer := Some 0 |}.

Definition nullContent : Content :=
  {| dataMessage := None; syncMessage := None; callMessage := None;
     nullMessage := Some NullMessageBody |}.

Definition paddedOnce : list byte := [x01; x80; x00].

Definition worker0 : Worker.State :=
  {| Worker._jobCounter := 0; Worker._jobs := ∅; Worker.posted := [];
     Worker.timers := []; Worker.clock := 1700000000000 |}.

Definition envelope0 : Receiver.Envelope :=
  {| Receiver.source := "+15550002222"; Receiver.sourceDevice := 1;
     Receiver.timestamp := 1700000000000; Receiver.content := Some [x2a];
     Receiver.legacyMessage := None |}.

Definition request0 : Receiver.Request :=
  {| Receiver.verb := "PUT"; Receiver.path := "/api/v1/message";
     Receiver.body := [x2a] |}.

Definition no_rejects : list Receiver.Event -> Receiver.StoreOp -> option error :=
  fun _ _ => None.

Definition handleRequest0 : Receiver.Request -> Async.M Receiver.World unit :=
  Receiver.handleRequest no_rejects (fun _ => Return envelope0)
    (fun b => Return b) (fun _ => 0%nat) (Fulfilled tt) 1700000000000
    (fun _ => Pending).

Definition world_blocking (numbers : list string) : Receiver.World :=
  {| Receiver.unprocessed := []; Receiver.blocked := numbers;
     Receiver.worker := worker0; Receiver.log := [] |}.

Definition item_n (n : nat) : Receiver.UnprocessedItem :=
  {| Receiver.item_id := "+15550002222." +:+ pretty n +:+ " 1700000000000";
     Receiver.version := 1; Receiver.envelope := Worker.VBytes [x2a];
     Receiver.decrypted := Worker.VUndefined;
     Receiver.item_timestamp := 1700000000000;
     Receiver.attempts := Some (Z.of_nat n) |}.

Definition world_caching (items : list Receiver.UnprocessedItem) : Receiver.World :=
  {| Receiver.unprocessed := items; Receiver.blocked := [];
     Receiver.worker := worker0; Receiver.log := [] |}.

Definition queueAllCached0 : Async.M Receiver.World unit :=
  Receiver.queueAllCached no_rejects (fun _ => Return envelope0)
    (fun _ => 0%nat) (fun _ => Pending).

Definition response410 : HTTPResponse :=
  {| extraDevices := Some []; missingDevices := Some [];
     staleDevices := Some [1] |}.

Definition noDevices : HTTPResponse :=
  {| extraDevices := Some []; missingDevices := Some [];
     staleDevices := Some [] |}.

(** A server that answers every post with 410 for device 1 and has no
    keys for device 3. *)
Definition env0 : Sender.Environment :=
  {| Sender.server_getKeysForNumber := fun _ _ device =>
       if decide (device = Some 3)
       then Throw (HTTPError "not found; code: 404" 404 noDevices)
       else Return {| Sender.identityKey := [x05];
                      Sender.devices :=
                        [{| Sender.deviceId := default 1 device;
                            Sender.registrationId := 7 |}] |};
     Sender.builder_processPreKey := fun _ _ _ => Return tt;
     Sender.server_sendMessages := fun _ _ _ =>
       Throw (HTTPError "stale devices; code: 410" 410 response410);
     Sender.store_getDeviceIds := fun _ _ => Return [1];
     Sender.store_removeSession := fun _ _ => Return tt;
     Sender.store_userGetNumber := "+15550009999";
     Sender.cipher_encrypt := fun _ _ _ _ =>
       Return {| Sender.cipher_type := 1; Sender.cipher_registrationId := 7;
                 Sender.cipher_body := "ciphertext" |};
     Sender.cipher_closeOpenSessionForDevice := fun _ _ _ => Return tt;
     Sender.btoa := fun s => s;
     Sender.Content_encode := fun _ => [x0a; x00] |}.

Definition this0 : Sender.OutgoingMessage :=
  {| Sender.timestamp := 1700000000000; Sender.numbers := ["+15550001111"];
     Sender.message := nullContent; Sender.silent := false |}.

Definition fresh : Sender.World :=
  {| Sender.calls := []; Sender.plaintext := None; Sender.numbersCompleted := 0;
     Sender.errors := []; Sender.successfulNumbers := [] |}.


(** ** Worker replies *)

Module WorkerJobs.
Import Worker.

(** [_removeJob]; [_DEBUG] is [false]. *)
Definition _removeJob (id : Z) (s : State) : State :=
  {| _jobCounter := _jobCounter s; _jobs := delete id (_jobs s);
     posted := posted s; timers := timers s; clock := clock s |}.

(** [_getJob]. *)
Definition _getJob (id : Z) (s : State) : option Job := _jobs s !! id.

(** What a reply of the worker does to the promise of its job. *)
Inductive settlement : Type :=
| Resolves (v : value)
| Rejects (e : error).

(** [_utilWorker.onmessage] for [e.data = [jobId, errorForDisplay,
    result]].  The [resolve] and [reject] of a job are the ones
    [_updateJob] stored: they remove the job and then settle the
    promise; a job that [_updateJob] has not reached has none. *)
Definition onmessage (jobId : Z) (errorForDisplay : option string)
    (result : value) (s : State) : Completion (settlement * State) :=
  match _getJob jobId s with
  | None =>
      Throw (Error ("Received worker reply to job " +:+ pretty jobId
                    +:+ ", but did not have it in our registry!"))
  | Some job =>
      if JS.truthy_str errorForDisplay then
        if resolvers job then
          Return (Rejects (Error ("Error received from worker job "
                                  +:+ pretty jobId +:+ " (" +:+ fnName job
                                  +:+ "): " +:+ default "" errorForDisplay)),
                  _removeJob jobId s)
        else Throw (TypeError "reject is not a function")
      else
        if resolvers job then Return (Resolves result, _removeJob jobId s)
        else Throw (TypeError "resolve is not a function")
  end.

(** Every registered job has an id that the counter has reached. *)
Definition registry_ok (s : State) : Prop :=
  forall id : Z, is_Some (_jobs s !! id) -> id <= _jobCounter s.

End WorkerJobs.

(** ** Views of the receiver's log *)

Module ReceiverLog.
Import Receiver.

(** The answers given to the server, in order. *)
Definition responses (events : list Event) : list (Z * string) :=
  omap (fun ev => match ev with
                  | Respond status reason => Some (status, reason)
                  | _ => None
                  end) events.

(** What [queueCached] does with an item.  Either the item is not of
    version 2, its envelope is not a string and decodes, and its
    decrypted payload is falsy or not a string: then the decoded
    envelope is put on the task queue, together with the payload when
    there is one.  Or one of these fails, and the Store is asked to
    remove the item. *)
Definition handled_as (Envelope_decode : list byte -> Completion Envelope)
    (string_to_index : string -> nat) (item : UnprocessedItem) (ev : Event)
  : Prop :=
  let bytes := Uint8Array_from string_to_index (envelope item) in
  (exists decoded : Envelope,
      version item <> 2 /\ is_string (envelope item) = false /\
      Envelope_decode bytes = Return decoded /\
      ((truthy (decrypted item) = false /\ ev = QueueEnvelope decoded) \/
       (truthy (decrypted item) = true /\ is_string (decrypted item) = false /\
        ev = QueueDecryptedEnvelope decoded (decrypted item)))) \/
  (exists ok : bool,
      ev = StoreCall (RemoveUnprocessed (item_id item)) ok /\
      (version item = 2 \/ is_string (envelope item) = true \/
       (exists e : error, Envelope_decode bytes = Throw e) \/
       (truthy (decrypted item) = true /\ is_string (decrypted item) = true))).

(** What the [catch] at the end of [handleRequest] adds to the log. *)
Definition bad_message (e : error) (w : World) : World :=
  record (DispatchError e)
    (record (Respond 500 "Bad encrypted websocket message") w).

(** Whether an event puts an envelope on the task queue. *)
Definition is_queued (ev : Event) : bool :=
  match ev with
  | QueueEnvelope _ | QueueDecryptedEnvelope _ _ => true
  | _ => false
  end.

(** The world after [queueCached] has asked the Store to remove an item
    and has swallowed the Store's answer. *)
Definition after_removal (store_rejects : list Event -> StoreOp -> option error)
    (id : string) (w : World) : World :=
  match store_rejects (log w) (RemoveUnprocessed id) with
  | Some _ => record (StoreCall (RemoveUnprocessed id) false) w
  | None =>
      record (StoreCall (RemoveUnprocessed id) true)
        (set_unprocessed (filter (fun item => item_id item <> id) (unprocessed w)) w)
  end.

End ReceiverLog.


(** ** Reading the call record of the send path *)

Module SenderLog.
Import Sender.

Definition is_callback (c : Call) : bool :=
  match c with Callback _ _ => true | _ => false end.

Definition is_send (c : Call) : bool :=
  match c with SendMessages _ _ _ _ => true | _ => false end.

Definition no_callback (cs : list Call) : Prop :=
  Forall (fun c => is_callback c = false) cs.

(** What the callback reports on: [numbersCompleted], [errors] and
    [successfulNumbers]. *)
Definition tallies (w : World) : Z * list RegisteredError * list string :=
  (numbersCompleted w, errors w, successfulNumbers w).

(** A step that reports nothing: from every state it leaves the tallies
    as they are and adds calls none of which is the callback. *)
Definition quiet {A} (m : Async.M World A) : Prop :=
  forall w : World,
    tallies (snd (m w)) = tallies w /\
    exists tl : list Call, calls (snd (m w)) = calls w ++ tl /\ no_callback tl.


(** A step that is fulfilled from every state. *)
Definition fulfils {A} (m : Async.M World A) : Prop :=
  forall w : World, exists a : A, fst (m w) = Fulfilled a.

(** The calls that remove the sessions of the given devices. *)
Definition removals (number : string) (deviceIds : list Z) : list Call :=
  map (fun device => RemoveSession (encodedNumber number device)) deviceIds.

(** Whether [handleResult] processes the pre-key of a device. *)
Definition listed (updateDevices : option (list Z)) (device : Device) : bool :=
  match updateDevices with
  | None => true
  | Some ds => bool_decide (deviceId device ∈ ds)
  end.

(** The calls that ask for one encryption per device. *)
Definition encryptions (env : Environment) (number : string)
    (plaintext : list byte) (deviceIds : list Z) : list Call :=
  map (fun device =>
         Encrypt number device (String.eqb (store_userGetNumber env) number)
           plaintext)
      deviceIds.

End SenderLog.

(** A server that answers every post with 409 and asks for no change of
    the device list. *)
Definition env409 : Sender.Environment :=
  {| Sender.server_getKeysForNumber := fun _ _ device =>
       Return {| Sender.identityKey := [x05];
                 Sender.devices :=
                   [{| Sender.deviceId := default 1 device;
                       Sender.registrationId := 7 |}] |};
     Sender.builder_processPreKey := fun _ _ _ => Return tt;
     Sender.server_sendMessages := fun _ _ _ =>
       Throw (HTTPError "mismatched devices; code: 409" 409 noDevices);
     Sender.store_getDeviceIds := fun _ _ => Return [1];
     Sender.store_removeSession := fun _ _ => Return tt;
     Sender.store_userGetNumber := "+15550009999";
     Sender.cipher_encrypt := Sender.cipher_encrypt env0;
     Sender.cipher_closeOpenSessionForDevice := fun _ _ _ => Return tt;
     Sender.btoa := fun s => s;
     Sender.Content_encode := fun _ => [x0a; x00] |}.

(** A Store that knows no device of any number. *)
Definition env_no_devices : Sender.Environment :=
  {| Sender.server_getKeysForNumber := Sender.server_getKeysForNumber env0;
     Sender.builder_processPreKey := fun _ _ _ => Return tt;
     Sender.server_sendMessages := fun _ _ _ => Return tt;
     Sender.store_getDeviceIds := fun _ _ => Return [];
     Sender.store_removeSession := fun _ _ => Return tt;
     Sender.store_userGetNumber := "+15550009999";
     Sender.cipher_encrypt := Sender.cipher_encrypt env0;
     Sender.cipher_closeOpenSessionForDevice := fun _ _ _ => Return tt;
     Sender.btoa := fun s => s;
     Sender.Content_encode := fun _ => [x0a; x00] |}.




(** The message an outcome of the flag handling carries. *)
Definition decrypted_of (out : ProcessDecrypted.flag_outcome) : DataMessage :=
  match out with
  | ProcessDecrypted.Resolved decrypted | ProcessDecrypted.GoesOn decrypted =>
      decrypted
  end.


(** ** The retry, up to the promise it returns *)

Module RetryRun.
Import JS Retry.

(** The promise a [then] has when its callback ends with [return h]:
    it follows the promise [h] returns, and is rejected when [h] throws
    before it returns one. *)
Definition adopt (r : Completion (Settled unit)) : Settled unit :=
  match r with
  | Return promise => promise
  | Throw e => Rejected e
  end.

Section TryMessageAgain.
Variable Content_decode : list byte -> Completion Content.
Variable cipher_decryptPreKeyWhisperMessage : list byte -> Completion (list byte).
(** [innerHandleLegacyMessage] and [innerHandleContentMessage], whose
    code depends on the rest of the receiver: each either throws on the
    spot or returns a promise, given here by how it settles. *)
Variable innerHandleLegacyMessage :
  RetryEnvelope -> option (list byte) -> Completion (Settled unit).
Variable innerHandleContentMessage :
  RetryEnvelope -> option (list byte) -> Completion (Settled unit).

(** [tryMessageAgain], as the promise it returns.  The call of
    [innerHandleContentMessage] stands inside the [try]: when it throws,
    the [catch] gives the plaintext to [innerHandleLegacyMessage]; a
    promise it returns is returned as it is. *)
Definition tryMessageAgain (from number : string) (device : Z)
    (ciphertext : list byte) (message : StoredMessage)
    (now_sent now_received : Z) : Settled unit :=
  match decryptPreKeyWhisperMessage cipher_decryptPreKeyWhisperMessage from
          ciphertext with
  | Throw e => Rejected e
  | Return plaintext =>
      let sentAt := or_num (sent_at message) now_sent in
      let receivedAt := or_num (received_at message) now_received in
      let envelope :=
        {| source := number; sourceDevice := device;
           receivedAt := receivedAt; timestamp := sentAt |} in
      if decide (sentAt < startOfJune)
      then adopt (innerHandleLegacyMessage envelope plaintext)
      else
        match
          cbind (Content_decode (bytes_of plaintext)) (fun content =>
          if validateRetryContentMessage content
          then cbind (innerHandleContentMessage envelope plaintext)
                     (fun promise => Return (Some promise))
          else Return None)
        with
        | Return (Some promise) => promise
        | Return None => adopt (innerHandleLegacyMessage envelope plaintext)
        | Throw _ => adopt (innerHandleLegacyMessage envelope plaintext)
        end
  end.

End TryMessageAgain.

End RetryRun.

(** * Properties *)

(** ** Padding codec *)

Section PaddingFacts.
Import Uint8Array Padding.

Lemma getPaddedMessageLength_bounds (m : Z) :
  0 <= m ->
  let r := getPaddedMessageLength m in
  r mod 160 = 0 /\ m + 1 <= r < m + 161.
Proof.
  intros Hm. unfold getPaddedMessageLength. cbv zeta.
  rewrite Z.rem_mod_nonneg by lia.
  pose proof (Z.div_mod (m + 1) 160 ltac:(lia)) as Hdm.
  pose proof (Z.mod_pos_bound (m + 1) 160 ltac:(lia)) as Hb.
  destruct (decide _) as [Hne|He].
  - split; [apply Z.mod_mul; lia | lia].
  - split; [apply Z.mod_mul; lia | lia].
Qed.

Lemma set_make_fits (n : nat) (src : list byte) :
  (length src <= n)%nat ->
  set (make n) src = Return (src ++ replicate (n - length src) x00).
Proof.
  intros Hle. unfold set, make. rewrite length_replicate.
  rewrite decide_True by done. by rewrite drop_replicate.
Qed.

(** The buffer the send path builds: the message, the terminator and a
    run of zeros that brings the length to one below a multiple of 160. *)
Lemma buildPlaintext_shape (P : list byte) :
  exists k : nat,
    buildPlaintext P = Return (P ++ x80 :: replicate k x00) /\
    (Z.of_nat (length P) + 2 + Z.of_nat k) mod 160 = 0.
Proof.
  unfold buildPlaintext. cbv zeta.
  set (L := length P).
  destruct (getPaddedMessageLength_bounds (Z.of_nat L + 1) ltac:(lia))
    as [Hmod Hrange].
  set (r := getPaddedMessageLength (Z.of_nat L + 1)) in *.
  assert (exists k : nat, Z.to_nat (r - 1) = (L + S k)%nat) as [k Hk]
    by (exists (Z.to_nat (r - 1) - L - 1)%nat; lia).
  exists k. rewrite Hk. split.
  - rewrite set_make_fits by (fold L; lia). cbn [cbind]. f_equal.
    unfold store. fold L.
    replace (L + S k - L)%nat with (S k) by lia.
    replace L with (length P + 0)%nat at 1 by (fold L; lia).
    by rewrite insert_app_r.
  - replace (Z.of_nat L + 2 + Z.of_nat k) with r by lia.
    exact Hmod.
Qed.

Lemma unpad_loop_skips_zeros (P : list byte) (k j : nat) :
  (j <= k)%nat ->
  unpad_loop (P ++ x80 :: replicate k x00) (length P + 1 + j) = Return (Some P).
Proof.
  intros Hj. induction j as [|j IH].
  - replace (length P + 1 + 0)%nat with (S (length P)) by lia.
    cbn [unpad_loop].
    rewrite lookup_app_r by lia. rewrite Nat.sub_diag. cbn [lookup list_lookup].
    rewrite decide_True by done.
    unfold subarray. rewrite drop_0, Nat.sub_0_r, take_app_length.
    rewrite set_make_fits by lia. cbn [cbind].
    by rewrite Nat.sub_diag, app_nil_r.
  - replace (length P + 1 + S j)%nat with (S (length P + 1 + j)) by lia.
    cbn [unpad_loop].
    rewrite lookup_app_r by lia.
    replace (length P + 1 + j - length P)%nat with (S j) by lia.
    change ((x80 :: replicate k x00) !! S j) with (replicate k x00 !! j).
    rewrite (lookup_replicate_2 k x00 j) by lia.
    rewrite decide_False by done. rewrite decide_False by (intros H; by apply H).
    apply IH; lia.
Qed.

Lemma subarray_prefix_fits (p : list byte) (i : nat) :
  (length (subarray p 0 i) <= i)%nat.
Proof. unfold subarray. rewrite drop_0, length_take. lia. Qed.

(** When [unpad] throws. *)
Lemma unpad_loop_throws (p : list byte) (n : nat) :
  (n <= length p)%nat ->
  unpad_loop p n = Throw InvalidPadding <->
  exists (i : nat) (b : byte),
    (i < n)%nat /\ p !! i = Some b /\ b <> x00 /\ b <> x80 /\
    forall j : nat, (i < j < n)%nat -> p !! j <> Some x80.
Proof.
  induction n as [|n IH]; intros Hn.
  - cbn. split; [discriminate | intros (i & _ & Hi & _); lia].
  - cbn [unpad_loop].
    destruct (lookup_lt_is_Some_2 p n ltac:(lia)) as [b Hb]. rewrite Hb.
    destruct (decide (b = x80)) as [->|Hne80].
    + rewrite set_make_fits by apply subarray_prefix_fits. cbn [cbind].
      split; [discriminate|].
      intros (i & c & Hi & Hc & Hc0 & Hc80 & Hafter).
      destruct (decide (i = n)) as [->|Hin]; [congruence|].
      exfalso. apply (Hafter n); [lia | done].
    + destruct (decide (b <> x00)) as [Hne0|He0].
      * split; [|done]. intros _. exists n, b.
        split; [lia|]. do 3 (split; [done|]). intros j Hj. lia.
      * assert (b = x00) as -> by (destruct (decide (b = x00)); tauto).
        rewrite IH by lia. split.
        -- intros (i & c & Hi & Hc & Hc0 & Hc80 & Hafter).
           exists i, c. split; [lia|]. do 3 (split; [done|]).
           intros j Hj.
           destruct (decide (j = n)) as [->|Hjn]; [congruence|].
           apply Hafter. lia.
        -- intros (i & c & Hi & Hc & Hc0 & Hc80 & Hafter).
           assert (i <> n) by congruence.
           exists i, c. split; [lia|]. do 3 (split; [done|]).
           intros j Hj. apply Hafter. lia.
Qed.

Lemma unpad_loop_only_error (p : list byte) (n : nat) (e : error) :
  unpad_loop p n = Throw e -> e = InvalidPadding.
Proof.
  induction n as [|n IH]; cbn [unpad_loop]; [discriminate|].
  destruct (p !! n) as [b|]; [|congruence].
  destruct (decide (b = x80)).
  - rewrite set_make_fits by apply subarray_prefix_fits. discriminate.
  - destruct (decide (b <> x00)); [congruence | exact IH].
Qed.

Lemma unpad_loop_all_zero (p : list byte) (n : nat) :
  (forall b : byte, b ∈ p -> b = x00) -> (n <= length p)%nat ->
  unpad_loop p n = Return None.
Proof.
  intros Hz. induction n as [|n IH]; intros Hn; cbn [unpad_loop]; [done|].
  destruct (lookup_lt_is_Some_2 p n ltac:(lia)) as [b Hb]. rewrite Hb.
  assert (b = x00) as -> by (apply Hz; eapply list_elem_of_lookup_2; eauto).
  rewrite decide_False by done. rewrite decide_False by (intros H; by apply H).
  apply IH. lia.
Qed.

End PaddingFacts.

(** C1, as stated, fails: the empty message is padded to 159 bytes. *)
Lemma padded_length_not_multiple_of_160 :
  exists padded : list byte,
    Padding.buildPlaintext [] = Return padded /\
    Z.of_nat (length padded) mod 160 <> 0.
Proof. eexists. split; [reflexivity | vm_compute; discriminate]. Qed.

(** C1 (amended): for every encoded message [P] the send path builds a
    buffer; its length is one less than a multiple of 160, it starts with
    [P], the byte after [P] is [0x80] and every later byte is zero, so
    the last non-zero byte is [0x80]. *)
Theorem padded_plaintext_layout (P : list byte) :
  exists padded : list byte,
    Padding.buildPlaintext P = Return padded /\
    (Z.of_nat (length padded) + 1) mod 160 = 0 /\
    take (length P) padded = P /\
    padded !! length P = Some x80 /\
    forall j : nat,
      (length P < j < length padded)%nat -> padded !! j = Some x00.
Proof.
  destruct (buildPlaintext_shape P) as (k & Hbuild & Hmod).
  exists (P ++ x80 :: replicate k x00). split; [exact Hbuild|].
  split; [|split; [|split]].
  - rewrite length_app. cbn [length]. rewrite length_replicate.
    replace (Z.of_nat (length P + S k) + 1)
      with (Z.of_nat (length P) + 2 + Z.of_nat k) by lia.
    exact Hmod.
  - by rewrite take_app_length.
  - rewrite lookup_app_r by lia. by rewrite Nat.sub_diag.
  - intros j Hj. rewrite length_app in Hj. cbn [length] in Hj.
    rewrite length_replicate in Hj.
    rewrite lookup_app_r by lia.
    replace (j - length P)%nat with (S (j - length P - 1)) by lia.
    change ((x80 :: replicate k x00) !! S (j - length P - 1))
      with (replicate k x00 !! (j - length P - 1)%nat).
    apply lookup_replicate_2. lia.
Qed.

(** C2: unpadding the buffer built by the send path gives back the
    encoded message. *)
Theorem unpad_buildPlaintext (P : list byte) :
  exists padded : list byte,
    Padding.buildPlaintext P = Return padded /\
    Padding.unpad padded = Return (Some P).
Proof.
  destruct (buildPlaintext_shape P) as (k & Hbuild & _).
  exists (P ++ x80 :: replicate k x00). split; [exact Hbuild|].
  unfold Padding.unpad. rewrite length_app. cbn [length].
  rewrite length_replicate.
  replace (length P + S k)%nat with (length P + 1 + k)%nat by lia.
  by apply unpad_loop_skips_zeros.
Qed.

(** C10: [unpad] throws "Invalid padding" exactly when, read from the
    last byte backwards, a byte that is neither [0x00] nor [0x80] comes
    before any [0x80]; it throws nothing else; and on an input of zero
    bytes only (the empty input included) it returns [undefined]. *)
Theorem unpad_invalid_padding_iff (p : list byte) :
  (Padding.unpad p = Throw Padding.InvalidPadding <->
   exists (i : nat) (b : byte),
     p !! i = Some b /\ b <> x00 /\ b <> x80 /\
     forall j : nat, (i < j)%nat -> p !! j <> Some x80) /\
  (forall e : error, Padding.unpad p = Throw e -> e = Padding.InvalidPadding) /\
  ((forall b : byte, b ∈ p -> b = x00) -> Padding.unpad p = Return None).
Proof.
  split; [|split].
  - unfold Padding.unpad. rewrite unpad_loop_throws by lia. split.
    + intros (i & b & Hi & Hb & H0 & H80 & Hafter).
      exists i, b. do 3 (split; [done|]).
      intros j Hj. destruct (decide (j < length p)%nat) as [Hlt|Hge].
      * apply Hafter. lia.
      * rewrite lookup_ge_None_2 by lia. discriminate.
    + intros (i & b & Hb & H0 & H80 & Hafter).
      exists i, b. split; [by eapply lookup_lt_Some|].
      do 3 (split; [done|]). intros j Hj. apply Hafter. lia.
  - apply unpad_loop_only_error.
  - intros Hz. by apply unpad_loop_all_zero.
Qed.

(** ** Flag handling of processDecrypted *)

Section FlagFacts.
Import JS ProcessDecrypted.

Lemma ToInt32_congruent (x : Z) : ToInt32 x mod 2 ^ 32 = x mod 2 ^ 32.
Proof.
  unfold ToInt32. rewrite Zminus_mod_idemp_l. f_equal. lia.
Qed.

Lemma ToInt32_testbit (x i : Z) :
  0 <= i < 32 -> Z.testbit (ToInt32 x) i = Z.testbit x i.
Proof.
  intros Hi.
  rewrite <- (Z.mod_pow2_bits_low (ToInt32 x) 32 i) by lia.
  rewrite ToInt32_congruent. apply Z.mod_pow2_bits_low. lia.
Qed.

Lemma land_pow2_nonzero (a i : Z) :
  0 <= i -> Z.land a (2 ^ i) <> 0 <-> Z.testbit a i = true.
Proof.
  intros Hi. split.
  - intros Hne. destruct (Z.testbit a i) eqn:Hbit; [done|].
    exfalso. apply Hne. apply Z.bits_inj'. intros n Hn.
    rewrite Z.land_spec, Z.bits_0, Z.pow2_bits_eqb by lia.
    destruct (Z.eqb_spec i n) as [->|]; [by rewrite Hbit | apply andb_false_r].
  - intros Hbit Hz.
    assert (Z.testbit (Z.land a (2 ^ i)) i = true) as Hl.
    { rewrite Z.land_spec, Hbit, Z.pow2_bits_eqb, Z.eqb_refl by lia. done. }
    rewrite Hz, Z.bits_0 in Hl. discriminate.
Qed.

(** [f & 2^i] is non-zero exactly when bit [i] of [f] is set. *)
Lemma bitand_pow2_nonzero (f i : Z) :
  0 <= i < 31 -> bitand f (2 ^ i) <> 0 <-> Z.testbit f i = true.
Proof.
  intros Hi. unfold bitand.
  assert (ToInt32 (2 ^ i) = 2 ^ i) as ->.
  { unfold ToInt32.
    assert (0 < 2 ^ i) by (apply Z.pow_pos_nonneg; lia).
    assert (2 ^ i < 2 ^ 31) by (apply Z.pow_lt_mono_r; lia).
    rewrite Z.mod_small; lia. }
  rewrite land_pow2_nonzero by lia. by rewrite ToInt32_testbit by lia.
Qed.

End FlagFacts.


(** C5, as stated, fails: flags 9 carries END_SESSION together with the
    unknown bit 8, and the message is not rejected. *)
Lemma unknown_bit_with_known_bit_accepted :
  Z.testbit 9 3 = true /\
  exists decrypted : DataMessage,
    ProcessDecrypted.processDecrypted SignalFlags flags9
    = Return (ProcessDecrypted.Resolved decrypted).
Proof. split; [reflexivity | eexists; reflexivity]. Qed.

(** C5 (amended): [processDecrypted] throws "Unknown flags in message"
    exactly when the flags are non-zero and none of END_SESSION,
    EXPIRATION_TIMER_UPDATE and PROFILE_KEY_UPDATE is set; a message with
    one of these three bits set passes the flag handling whatever other
    bits it carries. *)
Theorem processDecrypted_unknown_flags_iff (decrypted : DataMessage) :
  let f := default 0 (flags decrypted) in
  ProcessDecrypted.processDecrypted SignalFlags decrypted
  = Throw ProcessDecrypted.UnknownFlags
  <-> f <> 0 /\ Z.testbit f 0 = false /\ Z.testbit f 1 = false
      /\ Z.testbit f 2 = false.
Proof.
  intros f. unfold ProcessDecrypted.processDecrypted.
  assert (default 0 (flags (ProcessDecrypted.with_defaults decrypted)) = f) as ->.
  { subst f. unfold ProcessDecrypted.with_defaults.
    destruct decrypted as [b a g [fl|] [et|]]; reflexivity. }
  cbn [END_SESSION EXPIRATION_TIMER_UPDATE PROFILE_KEY_UPDATE SignalFlags].
  pose proof (bitand_pow2_nonzero f 0 ltac:(lia)) as H0.
  pose proof (bitand_pow2_nonzero f 1 ltac:(lia)) as H1.
  pose proof (bitand_pow2_nonzero f 2 ltac:(lia)) as H2.
  change (2 ^ 0) with 1 in H0. change (2 ^ 1) with 2 in H1.
  change (2 ^ 2) with 4 in H2.
  destruct (decide (JS.bitand f 1 <> 0)) as [Ha|Ha].
  { split; [discriminate|]. intros (_ & Hb & _). apply H0 in Ha. congruence. }
  destruct (decide (JS.bitand f 2 <> 0)) as [Hb|Hb].
  { split; [discriminate|]. intros (_ & _ & Hc & _). apply H1 in Hb. congruence. }
  destruct (decide (JS.bitand f 4 <> 0)) as [Hc|Hc].
  { split; [discriminate|]. intros (_ & _ & _ & Hd). apply H2 in Hc. congruence. }
  destruct (decide (f <> 0)) as [Hf|Hf].
  - split; [|done]. intros _. split; [done|].
    repeat split; apply not_true_is_false; tauto.
  - split; [discriminate|]. intros (Hne & _). tauto.
Qed.

(** ** Retry negotiator *)

Section RetryFacts.
Import JS Retry.


Lemma truthy_num_true (x : option Z) :
  truthy_num x = true <-> exists v : Z, x = Some v /\ v <> 0.
Proof.
  destruct x as [v|]; cbn.
  - rewrite negb_true_iff, Z.eqb_neq. split; [eauto|].
    by intros (? & [= <-] & ?).
  - split; [discriminate | by intros (? & ? & ?)].
Qed.

Lemma truthy_str_true (x : option string) :
  truthy_str x = true <-> exists v : string, x = Some v /\ v <> "".
Proof.
  destruct x as [v|]; cbn.
  - rewrite negb_true_iff, String.eqb_neq. split; [eauto|].
    by intros (? & [= <-] & ?).
  - split; [discriminate | by intros (? & ? & ?)].
Qed.

Lemma truthy_len_true {A} (l : list A) : truthy_len l = true <-> l <> [].
Proof. destruct l; cbn; split; congruence. Qed.

Lemma data_check (data : DataMessage) :
  negb (truthy_len (attachments data)) && negb (truthy_str (body data))
  && negb (truthy_num (expireTimer data)) && negb (truthy_num (flags data))
  && negb (truthy_obj (group data)) = false
  <-> has_meaningful_field data.
Proof.
  unfold has_meaningful_field.
  rewrite <- truthy_len_true, <- truthy_str_true, <- !truthy_num_true.
  rewrite !andb_false_iff, !negb_false_iff.
  assert (truthy_obj (group data) = true <-> is_Some (group data)) as ->.
  { destruct (group data); cbn; [split; eauto|].
    split; [done | intros [? ?]; done]. }
  tauto.
Qed.

Lemma validateRetryContentMessage_spec (content : Content) :
  validateRetryContentMessage content = true <-> RetryContentValid content.
Proof.
  unfold validateRetryContentMessage, RetryContentValid, exactly_one_payload.
  destruct content as [[data|] [sync|] [call|] [null|]]; cbn -[has_meaningful_field];
    try (split; [discriminate|];
         intros (Hs & [(Hd & Hc & Hn)|[(Hd & Hc & Hn)|(Hd & Hc & Hn)]] & _);
         first [discriminate | by destruct Hd | by destruct Hc | by destruct Hn]).
  - pose proof (data_check data) as Hd.
    destruct (_ && _) eqn:Hc in |- *.
    + split; [discriminate|]. intros (_ & _ & Hall).
      specialize (Hall data eq_refl). apply Hd in Hall. congruence.
    + split; [|done]. intros _. split; [done|]. split.
      * left. eauto.
      * intros ? [= <-]. by apply Hd.
  - split; [|done]. intros _. split; [done|].
    split; [|discriminate]. right. left. eauto.
  - split; [|done]. intros _. split; [done|].
    split; [|discriminate]. right. right. eauto.
Qed.

End RetryFacts.


(** C8, as stated, fails: a stored [sent_at] of 0 is below the cutoff,
    yet [sent_at || Date.now()] takes the current time and the plaintext
    is dispatched as Content. *)
Lemma sent_at_zero_dispatched_as_content :
  0 < Retry.startOfJune /\
  exists envelope : Retry.RetryEnvelope,
    Retry.tryMessageAgain (fun _ => Return nullContent) (fun _ => Return paddedOnce)
      "+15550003333.1" "+15550003333" 1 [x2a]
      {| Retry.sent_at := Some 0; Retry.received_at := None |}
      1600000000000 1600000000001
    = Return (Retry.ContentMessage envelope (Some [x01])).
Proof. split; [reflexivity | eexists; reflexivity]. Qed.

(** C8 (amended): after a successful pre-key decryption, with [sentAt]
    the stored [sent_at] when it is present and non-zero and the current
    time otherwise: if [sentAt] is below 1496300400000 the plaintext goes
    to the legacy DataMessage path; otherwise it goes to the Content path
    exactly when it decodes as Content and the validation rule holds, and
    to the legacy path in every other case. *)
Theorem tryMessageAgain_variant
    (Content_decode : list byte -> Completion Content)
    (cipher_decrypt : list byte -> Completion (list byte))
    (from number : string) (device : Z) (ciphertext : list byte)
    (message : Retry.StoredMessage) (now_sent now_received : Z)
    (plaintext : option (list byte)) :
  Retry.decryptPreKeyWhisperMessage cipher_decrypt from ciphertext
  = Return plaintext ->
  let sentAt := JS.or_num (Retry.sent_at message) now_sent in
  let valid :=
    exists content : Content,
      Content_decode (Retry.bytes_of plaintext) = Return content /\
      RetryContentValid content in
  exists envelope : Retry.RetryEnvelope,
    Retry.source envelope = number /\
    Retry.sourceDevice envelope = device /\
    Retry.timestamp envelope = sentAt /\
    exists d : Retry.dispatch,
      Retry.tryMessageAgain Content_decode cipher_decrypt from number device
        ciphertext message now_sent now_received = Return d /\
      (d = Retry.ContentMessage envelope plaintext
       <-> Retry.startOfJune <= sentAt /\ valid) /\
      (d = Retry.LegacyMessage envelope plaintext
       <-> sentAt < Retry.startOfJune \/ ~ valid).
Proof.
  intros Hdec sentAt valid.
  eexists {| Retry.source := number; Retry.sourceDevice := device;
             Retry.receivedAt := _; Retry.timestamp := sentAt |}.
  do 3 (split; [reflexivity|]).
  unfold Retry.tryMessageAgain. rewrite Hdec. cbn [cbind].
  eexists. split; [reflexivity|].
  unfold Retry.dispatchRetried. fold sentAt.
  destruct (decide (sentAt < Retry.startOfJune)) as [Hlt|Hge].
  { split; split; try discriminate; try lia; eauto. }
  destruct (Content_decode (Retry.bytes_of plaintext)) as [content|e] eqn:Hc.
  - destruct (Retry.validateRetryContentMessage content) eqn:Hv.
    + apply validateRetryContentMessage_spec in Hv.
      assert valid by (exists content; done).
      split; split; try discriminate; try done; [split; [lia|done] | tauto].
    + assert (~ valid) as Hnv.
      { intros (c & Hc' & Hval). assert (c = content) as -> by congruence.
        apply validateRetryContentMessage_spec in Hval. congruence. }
      split; split; try discriminate; try tauto.
  - assert (~ valid) as Hnv by (intros (c & Hc' & _); congruence).
    split; split; try discriminate; try tauto.
Qed.

Lemma tryMessageAgain_variant_witness :
  exists envelope : Retry.RetryEnvelope,
    Retry.source envelope = "+15550003333" /\
    Retry.sourceDevice envelope = 1 /\
    Retry.timestamp envelope = 1490000000000 /\
    exists d : Retry.dispatch,
      Retry.tryMessageAgain (fun _ => Return nullContent)
        (fun _ => Return paddedOnce) "+15550003333.1" "+15550003333" 1 [x2a]
        {| Retry.sent_at := Some 1490000000000; Retry.received_at := None |}
        1600000000000 1600000000001 = Return d /\
      (d = Retry.ContentMessage envelope (Some [x01])
       <-> Retry.startOfJune <= 1490000000000 /\
           exists content : Content,
             (fun _ : list byte => Return nullContent)
               (Retry.bytes_of (Some [x01])) = Return content /\
             RetryContentValid content) /\
      (d = Retry.LegacyMessage envelope (Some [x01])
       <-> 1490000000000 < Retry.startOfJune \/
           ~ exists content : Content,
               (fun _ : list byte => Return nullContent)
                 (Retry.bytes_of (Some [x01])) = Return content /\
               RetryContentValid content).
Proof.
  apply (tryMessageAgain_variant (fun _ => Return nullContent)
           (fun _ => Return paddedOnce) "+15550003333.1" "+15550003333" 1 [x2a]
           {| Retry.sent_at := Some 1490000000000; Retry.received_at := None |}
           1600000000000 1600000000001 (Some [x01])).
  reflexivity.
Defined.

(** ** Conversion helpers *)

(** C9: each of the four helpers evaluates its inner expression, which
    is a promise (for the base64 pair, a job registered with and posted
    to the worker), and gives [undefined] to its caller; a caller that
    awaits the result gets [undefined] at once, whatever the worker
    replies. *)
Theorem helpers_return_undefined
    (binary_to_bytes : string -> list byte)
    (bytes_to_binary : list byte -> string)
    (str : string) (arrayBuffer : list byte) (s : Worker.State)
    (worker_reply : Z -> Settled Worker.value) (w : Receiver.World) :
  let returns_undefined (helper inner : Worker.State -> Worker.value * Worker.State) :=
    fst (helper s) = Worker.VUndefined /\
    snd (helper s) = snd (inner s) /\
    (exists p : Worker.promise, fst (inner s) = Worker.VPromise p) /\
    Receiver.await worker_reply (fst (helper s)) w
    = (Fulfilled Worker.VUndefined, w) in
  returns_undefined (Worker.stringToArrayBufferBase64 str)
                    (Worker.stringToArrayBufferBase64_inner str) /\
  returns_undefined (Worker.arrayBufferToStringBase64 arrayBuffer)
                    (Worker.arrayBufferToStringBase64_inner arrayBuffer) /\
  returns_undefined (Worker.stringToArrayBuffer binary_to_bytes str)
                    (Worker.stringToArrayBuffer_inner binary_to_bytes str) /\
  returns_undefined (Worker.arrayBufferToString bytes_to_binary arrayBuffer)
                    (Worker.arrayBufferToString_inner bytes_to_binary arrayBuffer).
Proof.
  cbv zeta. repeat split; eexists; reflexivity.
Qed.

(** ** Receive path: acknowledgement and the cache *)

Section ReceiveFacts.
Import Async Worker Receiver.

Variable store_rejects : list Event -> StoreOp -> option error.
Variable Envelope_decode : list byte -> Completion Envelope.
Variable decryptWebsocketMessage : list byte -> Completion (list byte).
Variable string_to_index : string -> nat.
Variable lastPromise : Settled unit.
Variable now : Z.
Variable worker_reply : Z -> Settled value.

Local Abbreviation cached_item := (Receiver.cached_item now).

(** Gives the events a run added to the log: after the run has been
    evaluated the log is the old one with single events appended. *)
Local Ltac added_events :=
  eexists; split; [cbn -[app]; rewrite <- ?app_assoc; reflexivity|].


Lemma addToCache_unfold (envelope : Envelope) (plaintext : list byte) (w : World) :
  addToCache store_rejects string_to_index now worker_reply envelope plaintext w
  = addUnprocessed store_rejects (cached_item envelope)
      (set_worker (snd (arrayBufferToStringBase64 plaintext (worker w))) w).
Proof. reflexivity. Qed.

Lemma addToCache_settles (envelope : Envelope) (plaintext : list byte) (w : World) :
  let w1 := set_worker (snd (arrayBufferToStringBase64 plaintext (worker w))) w in
  let op := AddUnprocessed (cached_item envelope) in
  (exists e : error,
      store_rejects (log w) op = Some e /\
      addToCache store_rejects string_to_index now worker_reply envelope plaintext w
      = (Rejected e, record (StoreCall op false) w1)) \/
  (store_rejects (log w) op = None /\
   addToCache store_rejects string_to_index now worker_reply envelope plaintext w
   = (Fulfilled tt,
      record (StoreCall op true)
        (set_unprocessed (unprocessed w ++ [cached_item envelope]) w1))).
Proof.
  cbv zeta. rewrite addToCache_unfold.
  unfold addUnprocessed, store_call. cbn [log set_worker unprocessed].
  destruct (store_rejects (log w) _) as [e|]; [left; eauto | right; eauto].
Qed.

(** C3 (amended): in [handleRequest] for [/api/v1/message], a
    [respond(200)] is sent either for an envelope whose source is
    blocked, in which case nothing is written to the cache (no
    operation on the unprocessed cache is asked of the Store, and the
    cache is as it was), or after the Store has accepted
    [addUnprocessed] for the item that carries the envelope's id, which
    is then in the cache. *)
Theorem ack_after_cache_insert_or_blocked (request : Request) (w : World) :
  path request = "/api/v1/message" ->
  let w' :=
    snd (handleRequest store_rejects Envelope_decode decryptWebsocketMessage
           string_to_index lastPromise now worker_reply request w) in
  exists new : list Event,
    log w' = log w ++ new /\
    forall (i : nat) (reason : string),
      new !! i = Some (Respond 200 reason) ->
      exists (plaintext : list byte) (envelope : Envelope),
        decryptWebsocketMessage (body request) = Return plaintext /\
        Envelope_decode plaintext = Return envelope /\
        (((source envelope ∈ blocked w) /\
          (forall (op : StoreOp) (ok : bool), StoreCall op ok ∉ new) /\
          unprocessed w' = unprocessed w) \/
         ((source envelope ∉ blocked w) /\
          (exists j : nat,
              (j < i)%nat /\
              new !! j
              = Some (StoreCall (AddUnprocessed (cached_item envelope)) true)) /\
          (cached_item envelope ∈ unprocessed w'))).
Proof.
  intros Hpath w'. subst w'. unfold handleRequest. rewrite Hpath.
  cbn [String.eqb Ascii.eqb Bool.eqb negb].
  unfold catch, bind, then2, lift, isBlocked, gets, respond, emit, modify,
    queueEnvelope, ret, reject.
  destruct (decryptWebsocketMessage (body request)) as [plaintext|e] eqn:Hdec.
  2:{ added_events.
      intros [|[|i]] reason Hi; cbn in Hi; discriminate. }
  destruct (Envelope_decode plaintext) as [envelope|e] eqn:Henv.
  2:{ added_events.
      intros [|[|i]] reason Hi; cbn in Hi; discriminate. }
  destruct (bool_decide_reflect (source envelope ∈ blocked w)) as [Hb|Hb].
  { added_events.
    intros [|i] reason Hi; cbn in Hi; [|discriminate].
    exists plaintext, envelope. do 2 (split; [done|]). left.
    split; [done|]. split; [|done].
    intros op ok Hin. apply list_elem_of_singleton in Hin. discriminate. }
  destruct (addToCache_settles envelope plaintext w)
    as [(e & Hrej & ->)|(Hok & ->)].
  { added_events.
    intros [|[|[|i]]] reason Hi; cbn in Hi; discriminate. }
  assert (forall new : list Event,
    (exists tl, new = StoreCall (AddUnprocessed (cached_item envelope)) true
                      :: Respond 200 "OK" :: tl /\
                forall (k : nat) (reason : string),
                  tl !! k <> Some (Respond 200 reason)) ->
    forall (i : nat) (reason : string),
      new !! i = Some (Respond 200 reason) ->
      exists j : nat, (j < i)%nat /\
        new !! j = Some (StoreCall (AddUnprocessed (cached_item envelope)) true))
    as Hshape.
  { intros new (tl & -> & Htl) [|[|i]] reason Hi; cbn in Hi.
    - discriminate.
    - exists 0%nat. split; [lia | done].
    - by apply Htl in Hi. }
  assert (forall (tl : list UnprocessedItem) (x : UnprocessedItem),
             x ∈ tl ++ [x]) as Hlast.
  { intros tl x. apply elem_of_app. right. by apply list_elem_of_singleton. }
  destruct lastPromise as [[]|e|].
  - added_events.
    intros i reason Hi. exists plaintext, envelope.
    do 2 (split; [done|]). right. split; [done|]. split; [|apply Hlast].
    eapply Hshape; [|exact Hi]. eexists. split; [reflexivity|].
    intros [|k] r Hk; cbn in Hk; discriminate.
  - added_events.
    intros i reason Hi. exists plaintext, envelope.
    do 2 (split; [done|]). right. split; [done|]. split; [|apply Hlast].
    eapply Hshape; [|exact Hi]. eexists. split; [reflexivity|].
    intros [|[|k]] r Hk; cbn in Hk; discriminate.
  - added_events.
    intros i reason Hi. exists plaintext, envelope.
    do 2 (split; [done|]). right. split; [done|]. split; [|apply Hlast].
    eapply Hshape; [|exact Hi]. eexists. split; [reflexivity|].
    intros k r Hk; cbn in Hk; discriminate.
Qed.

(** *** Startup scan *)


Hypothesis store_reliable : forall h op, store_rejects h op = None.

Lemma touch_run (item : UnprocessedItem) (w : World) :
  touch store_rejects item w
  = (Fulfilled item,
     record (StoreCall (scan_op item) true)
       (set_unprocessed (scan_update (unprocessed w) item) w)).
Proof.
  unfold touch, scan_op, scan_update, catch, bind, then2,
    removeUnprocessed, updateUnprocessed, store_call.
  destruct (decide (incremented item >= 3)); rewrite store_reliable; reflexivity.
Qed.

Lemma all_touch_run (items : list UnprocessedItem) (w : World) :
  all (map (touch store_rejects) items) w
  = (Fulfilled items,
     {| unprocessed := foldl scan_update (unprocessed w) items;
        blocked := blocked w; worker := worker w;
        log := log w ++ map (fun item => StoreCall (scan_op item) true) items |}).
Proof.
  revert w. induction items as [|item items IH]; intros w.
  - cbn. rewrite app_nil_r. by destruct w.
  - cbn [map all]. rewrite touch_run, IH. cbn -[app].
    by rewrite <- app_assoc.
Qed.

Lemma filter_other_ids (cache : list UnprocessedItem) (id : string) :
  id ∉ map item_id cache ->
  filter (fun x => item_id x <> id) cache = cache.
Proof.
  induction cache as [|x cache IH]; [done|]. cbn [map]. intros Hid.
  apply not_elem_of_cons in Hid as [Hne Hid].
  rewrite filter_cons_True by congruence. f_equal. by apply IH.
Qed.

Lemma replace_other_ids (cache : list UnprocessedItem) (id : string)
    (data : UnprocessedItem) :
  id ∉ map item_id cache ->
  map (fun x => if decide (item_id x = id) then data else x) cache = cache.
Proof.
  induction cache as [|x cache IH]; [done|]. cbn [map]. intros Hid.
  apply not_elem_of_cons in Hid as [Hne Hid].
  rewrite decide_False by congruence. f_equal. by apply IH.
Qed.

Lemma kept_id (item x : UnprocessedItem) :
  kept item = Some x -> item_id x = item_id item.
Proof. unfold kept. case_decide; [done|]. by intros [= <-]. Qed.

Lemma scan_update_split (done_ rest : list UnprocessedItem) (item : UnprocessedItem) :
  NoDup (map item_id (done_ ++ item :: rest)) ->
  scan_update (done_ ++ item :: rest) item
  = done_ ++ option_list (kept item) ++ rest.
Proof.
  rewrite map_app. cbn [map]. intros Hnd.
  apply NoDup_app in Hnd as (_ & Hdisj & Hnd).
  apply NoDup_cons in Hnd as [Hrest _].
  assert (item_id item ∉ map item_id done_) as Hdone.
  { intros Hin. apply (Hdisj _ Hin). left. }
  unfold scan_update, kept. destruct (decide (incremented item >= 3)).
  - rewrite filter_app, filter_cons_False by (intros H; by apply H).
    by rewrite !filter_other_ids.
  - rewrite map_app. cbn [map]. rewrite decide_True by done.
    by rewrite !replace_other_ids.
Qed.

Lemma scan_fold (done_ items : list UnprocessedItem) :
  NoDup (map item_id (done_ ++ items)) ->
  foldl scan_update (done_ ++ items) items = done_ ++ omap kept items.
Proof.
  revert done_. induction items as [|item items IH]; intros done_ Hnd; [done|].
  cbn [foldl]. rewrite scan_update_split by done.
  destruct (kept item) as [x|] eqn:Hk; cbn; rewrite Hk.
  - replace (done_ ++ x :: items) with ((done_ ++ [x]) ++ items)
      by (by rewrite <- app_assoc).
    rewrite IH; [by rewrite <- app_assoc|].
    rewrite <- app_assoc, map_app. cbn. rewrite (kept_id _ _ Hk).
    by rewrite map_app in Hnd.
  - apply IH. rewrite map_app in Hnd |- *. cbn [map] in Hnd.
    apply NoDup_app in Hnd as (Hdone & Hdisj & Hrest).
    apply NoDup_app. split; [done|]. split.
    + intros y Hy Hin. apply (Hdisj y Hy). by right.
    + by apply NoDup_cons in Hrest as [_ ?].
Qed.

(** With a cache of at most 250 items whose ids are distinct,
    [getAllFromCache] gives all the items it found and leaves in the
    cache what [kept] says of each. *)
Lemma getAllFromCache_run (w : World) :
  (length (unprocessed w) <= 250)%nat ->
  NoDup (map item_id (unprocessed w)) ->
  getAllFromCache store_rejects w
  = (Fulfilled (unprocessed w),
     {| unprocessed := omap kept (unprocessed w);
        blocked := blocked w; worker := worker w;
        log := log w
               ++ [StoreCall CountUnprocessed true;
                   StoreCall GetAllUnprocessed true]
               ++ map (fun item => StoreCall (scan_op item) true)
                      (unprocessed w) |}).
Proof.
  intros Hlen Hnd.
  unfold getAllFromCache, bind, then2, countUnprocessed, getAllUnprocessed,
    store_call.
  rewrite store_reliable. rewrite decide_False by lia.
  cbn [log record set_unprocessed unprocessed]. rewrite store_reliable.
  rewrite all_touch_run. cbn -[app]. f_equal. f_equal.
  - by apply (scan_fold []).
  - by rewrite <- !app_assoc.
Qed.

(** [queueCached] never adds to the cache. *)
Lemma queueCached_shrinks (item x : UnprocessedItem) (w : World) :
  x ∈ unprocessed (snd (queueCached store_rejects Envelope_decode
                          string_to_index worker_reply item w)) ->
  x ∈ unprocessed w.
Proof.
  assert (forall w0 : World,
    x ∈ unprocessed (snd (catch (removeUnprocessed store_rejects (item_id item))
                                (fun _ => ret tt) w0)) ->
    x ∈ unprocessed w0) as Hremove.
  { intros w0. unfold catch, then2, removeUnprocessed, store_call.
    rewrite store_reliable. cbn. intros Hin.
    by apply list_elem_of_filter in Hin as [_ Hin]. }
  unfold queueCached, catch at 1, then2 at 1.
  match goal with |- context [?m w] =>
    match m with
    | bind _ _ =>
        assert ((exists r, m w = (r, w)) \/
                (exists r ev, m w = (r, record ev w))) as Hbody
    end
  end.
  { unfold bind, then2, call_static, lift, queueEnvelope,
      queueDecryptedEnvelope, emit, modify, reject, ret.
    destruct (decide (version item = 2)); [left; eauto|].
    destruct (is_string (envelope item)); [left; eauto|].
    destruct (Envelope_decode _); [|left; eauto].
    destruct (truthy (decrypted item)); [|right; eauto].
    destruct (is_string (decrypted item)); [left; eauto | right; eauto]. }
  destruct Hbody as [(r & ->)|(r & ev & ->)]; destruct r; cbn [snd]; try done;
    first [apply Hremove | intros Hin; by apply Hremove in Hin].
Qed.

Lemma chain_queueCached_shrinks (items : list UnprocessedItem)
    (x : UnprocessedItem) (w : World) :
  x ∈ unprocessed (snd (chain (queueCached store_rejects Envelope_decode
                                 string_to_index worker_reply) items w)) ->
  x ∈ unprocessed w.
Proof.
  unfold chain.
  assert (forall (p : M World unit),
    (forall w0, x ∈ unprocessed (snd (p w0)) -> x ∈ unprocessed w0) ->
    forall w0,
      x ∈ unprocessed (snd (fold_left
        (fun promise y => bind promise (fun _ =>
           queueCached store_rejects Envelope_decode string_to_index
             worker_reply y)) items p w0)) ->
      x ∈ unprocessed w0) as Hgen.
  { induction items as [|item items IH]; intros p Hp w0; cbn [fold_left].
    - apply Hp.
    - apply IH. intros w1. unfold bind, then2.
      specialize (Hp w1). destruct (p w1) as [[[]|e|] w2]; cbn [snd] in *.
      + intros Hin. apply Hp. by eapply queueCached_shrinks.
      + exact Hp.
      + exact Hp. }
  apply Hgen. intros w0. by cbn.
Qed.

(** An item written by [addToCache] (version 2) is not put on the queue
    when it is loaded again: the static helper is missing, the call
    throws, and the [catch] removes the item. *)
Lemma queueCached_version2 (item : UnprocessedItem) (w : World) :
  version item = 2 ->
  queueCached store_rejects Envelope_decode string_to_index worker_reply item w
  = (Fulfilled tt,
     record (StoreCall (RemoveUnprocessed (item_id item)) true)
       (set_unprocessed
          (filter (fun x => item_id x <> item_id item) (unprocessed w)) w)).
Proof.
  intros Hv. unfold queueCached, catch, bind, then2, call_static, reject.
  rewrite decide_True by done.
  unfold removeUnprocessed, store_call. by rewrite store_reliable.
Qed.

Lemma same_id_same_item (items : list UnprocessedItem) (x y : UnprocessedItem) :
  NoDup (map item_id items) -> x ∈ items -> y ∈ items ->
  item_id x = item_id y -> x = y.
Proof.
  intros Hnd Hx Hy Hid.
  apply list_elem_of_lookup in Hx as [i Hi].
  apply list_elem_of_lookup in Hy as [j Hj].
  assert (i = j) as ->; [|congruence].
  change (map item_id items) with (item_id <$> items) in Hnd.
  eapply NoDup_lookup; [exact Hnd | |].
  - by rewrite list_lookup_fmap, Hi.
  - by rewrite list_lookup_fmap, Hj, Hid.
Qed.

(** [1 + (item.attempts || 0)], spelled out. *)
Lemma incremented_explicit (item : UnprocessedItem) :
  incremented item = 1 + default 0 (attempts item).
Proof.
  unfold incremented, JS.or_num. destruct (attempts item) as [v|]; [|done].
  cbn. destruct (Z.eqb_spec v 0) as [->|]; done.
Qed.

(** C4 (amended): on a Store that accepts every call and holds at most
    one item per id, the startup scan of a cache of at most 250 items
    makes the attempts of every item one more than they were (1 for an
    item without a count); an item for which this gives 3 or more is
    removed from the Store before any item is handed to [queueCached]
    and is not in the Store when the scan ends; an item below the
    threshold is written back to the Store with the new count and
    nothing else changed; and then every loaded item, removed or not, is
    handed to [queueCached], in the order the Store gave them.  When the
    cache holds more than 250 items it is deleted whole: no count is
    changed and nothing is handed to [queueCached]. *)
Theorem startup_scan_attempts (w : World) :
  let items := unprocessed w in
  let scan := queueAllCached store_rejects Envelope_decode string_to_index
                worker_reply in
  let counted := fun item : UnprocessedItem => 1 + default 0 (attempts item) in
  let rewritten := fun item : UnprocessedItem =>
    {| item_id := item_id item; version := version item;
       envelope := envelope item; decrypted := decrypted item;
       item_timestamp := item_timestamp item;
       attempts := Some (counted item) |} in
  ((length items <= 250)%nat ->
   NoDup (map item_id items) ->
   exists w1 : World,
     getAllFromCache store_rejects w = (Fulfilled items, w1) /\
     scan w = chain (queueCached store_rejects Envelope_decode string_to_index
                       worker_reply) items w1 /\
     forall item : UnprocessedItem,
       item ∈ items ->
       (counted item >= 3 ->
        StoreCall (RemoveUnprocessed (item_id item)) true ∈ log w1 /\
        (forall x, x ∈ unprocessed w1 -> item_id x <> item_id item) /\
        (forall x, x ∈ unprocessed (snd (scan w)) ->
                   item_id x <> item_id item)) /\
       (counted item < 3 ->
        StoreCall (UpdateUnprocessed (item_id item) (rewritten item)) true
        ∈ log w1 /\
        rewritten item ∈ unprocessed w1)) /\
  ((250 < length items)%nat ->
   scan w
   = (Fulfilled tt,
      {| unprocessed := []; blocked := blocked w; worker := worker w;
         log := log w ++ [StoreCall CountUnprocessed true;
                          StoreCall RemoveAllUnprocessed true] |})).
Proof.
  intros items scan counted rewritten. split.
  2:{ intros Hlen.
      unfold scan, queueAllCached, getAllFromCache, bind, then2, countUnprocessed,
        removeAllUnprocessed, store_call.
      rewrite store_reliable. rewrite decide_True by (subst items; lia).
      cbn [log record set_unprocessed unprocessed]. rewrite store_reliable.
      unfold ret, chain. cbn -[app]. unfold ret, record, set_unprocessed.
      cbn -[app]. by rewrite <- app_assoc. }
  intros Hlen Hnd. eexists. split; [by apply getAllFromCache_run|].
  assert (scan w = chain (queueCached store_rejects Envelope_decode
                            string_to_index worker_reply) items
                     {| unprocessed := omap kept items;
                        blocked := blocked w; worker := worker w;
                        log := log w
                               ++ [StoreCall CountUnprocessed true;
                                   StoreCall GetAllUnprocessed true]
                               ++ map (fun item => StoreCall (scan_op item) true)
                                      items |}) as Hscan.
  { unfold scan, queueAllCached, bind, then2.
    by rewrite getAllFromCache_run. }
  split; [exact Hscan|]. intros item Hitem. cbn [log unprocessed].
  assert (rewritten item = with_attempts item (incremented item)) as Hrewritten.
  { unfold rewritten, counted, with_attempts. by rewrite incremented_explicit. }
  rewrite Hrewritten.
  unfold counted. rewrite <- (incremented_explicit item).
  assert (StoreCall (scan_op item) true
          ∈ log w ++ [StoreCall CountUnprocessed true;
                      StoreCall GetAllUnprocessed true]
            ++ map (fun item => StoreCall (scan_op item) true) items) as Hlog.
  { apply elem_of_app. right. apply elem_of_app. right.
    apply list_elem_of_In.
    apply (in_map (fun item => StoreCall (scan_op item) true)).
    by apply list_elem_of_In. }
  assert (forall x, x ∈ omap kept items -> incremented item >= 3 ->
                    item_id x <> item_id item) as Hgone.
  { intros x Hx Hge Hid. apply list_elem_of_omap in Hx as (y & Hy & Hk).
    apply kept_id in Hk as Hxy.
    assert (y = item) as -> by (eapply same_id_same_item; eauto; congruence).
    unfold kept in Hk. by rewrite decide_True in Hk. }
  split.
  - intros Hge. unfold scan_op in Hlog. rewrite decide_True in Hlog by done.
    split; [exact Hlog|]. split; [intros x Hx; by apply Hgone|].
    intros x Hx. rewrite Hscan in Hx.
    apply chain_queueCached_shrinks in Hx. by apply Hgone.
  - intros Hlt. unfold scan_op in Hlog. rewrite decide_False in Hlog by lia.
    split; [exact Hlog|]. apply list_elem_of_omap. exists item.
    split; [done|]. unfold kept. by rewrite decide_False by lia.
Qed.

End ReceiveFacts.

(** *** Concrete runs of the receive path *)


(** C3, as stated, fails: for an envelope from a blocked number the
    server is answered 200 although nothing was put in the cache. *)
Lemma blocked_sender_acked_without_cache_insert :
  let r := handleRequest0 request0 (world_blocking ["+15550002222"]) in
  fst r = Fulfilled tt /\
  Receiver.log (snd r) = [Receiver.Respond 200 "OK"] /\
  Receiver.unprocessed (snd r) = [].
Proof. vm_compute. repeat split. Qed.

Lemma ack_after_cache_insert_or_blocked_witness :
  Receiver.path request0 = "/api/v1/message" /\
  exists new : list Receiver.Event,
    Receiver.log (snd (handleRequest0 request0 (world_blocking [])))
    = Receiver.log (world_blocking []) ++ new /\
    forall (i : nat) (reason : string),
      new !! i = Some (Receiver.Respond 200 reason) ->
      exists j : nat,
        (j < i)%nat /\
        new !! j
        = Some (Receiver.StoreCall
                  (Receiver.AddUnprocessed (Receiver.cached_item 1700000000000 envelope0))
                  true).
Proof.
  split; [reflexivity|].
  destruct (ack_after_cache_insert_or_blocked no_rejects
              (fun _ => Return envelope0) (fun b => Return b) (fun _ => 0%nat)
              (Fulfilled tt) 1700000000000 (fun _ => Pending) request0
              (world_blocking []) eq_refl) as (new & Hlog & Hacks).
  exists new. split; [exact Hlog|].
  intros i reason Hi.
  destruct (Hacks i reason Hi) as (plaintext & envelope & _ & Henv & Hcases).
  injection Henv as <-.
  destruct Hcases as [(Hblocked & _)|(_ & Hj & _)]; [|exact Hj].
  exfalso. by apply not_elem_of_nil in Hblocked.
Defined.


(** C4, as stated, fails: with 251 items in the cache the scan deletes
    them all; no attempts count is incremented and nothing is queued. *)
Lemma crowded_cache_is_purged :
  let crowded := world_caching (map item_n (seq 0 251)) in
  length (Receiver.unprocessed crowded) = 251%nat /\
  queueAllCached0 crowded
  = (Fulfilled tt,
     {| Receiver.unprocessed := []; Receiver.blocked := [];
        Receiver.worker := worker0;
        Receiver.log :=
          [Receiver.StoreCall Receiver.CountUnprocessed true;
           Receiver.StoreCall Receiver.RemoveAllUnprocessed true] |}).
Proof. split; vm_compute; reflexivity. Qed.

Lemma startup_scan_attempts_witness :
  let w := world_caching [item_n 1; item_n 2] in
  (length (Receiver.unprocessed w) <= 250)%nat /\
  NoDup (map Receiver.item_id (Receiver.unprocessed w)) /\
  exists w1 : Receiver.World,
    Receiver.getAllFromCache no_rejects w = (Fulfilled [item_n 1; item_n 2], w1) /\
    queueAllCached0 w
    = Async.chain (Receiver.queueCached no_rejects (fun _ => Return envelope0)
                     (fun _ => 0%nat) (fun _ => Pending))
        [item_n 1; item_n 2] w1 /\
    Receiver.unprocessed w1
    = [{| Receiver.item_id := Receiver.item_id (item_n 1);
          Receiver.version := 1; Receiver.envelope := Worker.VBytes [x2a];
          Receiver.decrypted := Worker.VUndefined;
          Receiver.item_timestamp := 1700000000000;
          Receiver.attempts := Some 2 |}].
Proof.
  intros w.
  assert (length (Receiver.unprocessed w) <= 250)%nat as Hlen
    by (vm_compute; lia).
  assert (NoDup (map Receiver.item_id (Receiver.unprocessed w))) as Hnd.
  { apply (bool_decide_unpack _). vm_compute. exact I. }
  split; [exact Hlen|]. split; [exact Hnd|].
  destruct (startup_scan_attempts no_rejects (fun _ => Return envelope0)
              (fun _ => 0%nat) (fun _ => Pending) (fun _ _ => eq_refl) w)
    as (Hsmall & _).
  destruct (Hsmall Hlen Hnd) as (w1 & Hget & Hscan & _).
  exists w1. split; [exact Hget|]. split; [exact Hscan|].
  assert (Receiver.getAllFromCache no_rejects w
          = (Fulfilled [item_n 1; item_n 2], w1)) as Hget' by exact Hget.
  vm_compute in Hget'. injection Hget' as <-. reflexivity.
Defined.

(** ** Awaited loops *)

Section ChainFacts.
Import Async.
Context {W A : Type}.
Variable body : A -> M W unit.

Lemma chain_from (p : M W unit) (xs : list A) (w : W) :
  fold_left (fun promise x => bind promise (fun _ => body x)) xs p w
  = bind p (fun _ => chain body xs) w.
Proof.
  revert p w. induction xs as [|x xs IH]; intros p w.
  - cbn. unfold bind, then2, ret, reject. by destruct (p w) as [[[]|e|] w'].
  - cbn [fold_left]. rewrite IH. unfold chain. cbn [fold_left].
    unfold bind at 1 2 4, then2.
    destruct (p w) as [[[]|e|] w']; [|reflexivity..].
    rewrite IH. unfold bind, then2, ret, chain. reflexivity.
Qed.

Lemma chain_cons (x : A) (xs : list A) (w : W) :
  chain body (x :: xs) w = bind (body x) (fun _ => chain body xs) w.
Proof.
  unfold chain at 1. cbn [fold_left]. rewrite chain_from.
  unfold bind, then2, ret. reflexivity.
Qed.

Lemma chain_app (xs ys : list A) (w : W) :
  chain body (xs ++ ys) w = bind (chain body xs) (fun _ => chain body ys) w.
Proof.
  revert w. induction xs as [|x xs IH]; intros w.
  - reflexivity.
  - cbn [app]. unfold bind at 1, then2 at 1. rewrite !chain_cons.
    unfold bind at 1 2, then2 at 1 2.
    destruct (body x w) as [[[]|e|] w']; [|reflexivity..].
    rewrite IH. reflexivity.
Qed.

End ChainFacts.

(** ** Send path: key fetches *)

Section SendFacts.
Import Async Sender.
Variable env : Environment.
Variable this : OutgoingMessage.

Local Abbreviation closeCall := (Sender.closeCall env).
Local Abbreviation wrapped := (Sender.wrapped env this).


Lemma all_no_fetch {A} (ms : list (M World A)) :
  Forall (fun m => forall w, exists tl,
            calls (snd (m w)) = calls w ++ tl /\ no_fetch tl) ms ->
  forall w, exists tl,
    calls (snd (all ms w)) = calls w ++ tl /\ no_fetch tl.
Proof.
  induction 1 as [|m ms Hm _ IH]; intros w.
  - exists []. split; [by rewrite app_nil_r | constructor].
  - cbn [all]. destruct (Hm w) as (tl1 & H1 & Hn1).
    destruct (m w) as [r w1]. cbn [snd] in H1.
    destruct (IH w1) as (tl2 & H2 & Hn2).
    destruct (all ms w1) as [rs w2]. cbn [snd] in H2 |- *.
    exists (tl1 ++ tl2). split.
    + by rewrite H2, H1, <- app_assoc.
    + by apply Forall_app.
Qed.

Lemma handleResult_no_fetch (number : string) (updateDevices : option (list Z))
    (response : KeysResponse) (w : World) :
  exists tl : list Call,
    calls (snd (handleResult env number updateDevices response w)) = calls w ++ tl /\
    no_fetch tl.
Proof.
  unfold handleResult. apply all_no_fetch. apply Forall_forall.
  intros m Hm w0. apply list_elem_of_In, in_map_iff in Hm as (device & <- & _).
  destruct (match updateDevices with
            | Some ds => bool_decide (deviceId device ∈ ds)
            | None => true
            end).
  - unfold catch, then2, call.
    destruct (settle _); cbn; eexists; (split; [reflexivity|]);
      by repeat constructor.
  - exists []. split; [by rewrite app_nil_r | constructor].
Qed.

Lemma removeDeviceIdsForNumber_one (number : string) (device : Z) (w : World) :
  removeDeviceIdsForNumber env number [device] w
  = (settle (store_removeSession env (calls w) (encodedNumber number device)),
     record (RemoveSession (encodedNumber number device)) w).
Proof.
  unfold removeDeviceIdsForNumber. rewrite chain_cons.
  unfold bind, then2, call, chain. cbn [fold_left].
  by destruct (settle _) as [[]|e|].
Qed.

(** One round of the loop makes one key fetch, for its own device, and
    makes it first. *)
Lemma fetchDevice_calls (number : string) (updateDevices : list Z) (device : Z)
    (w : World) :
  exists tl : list Call,
    calls (snd (fetchDevice env number updateDevices device w))
    = calls w ++ GetKeysForNumber number (Some device) :: tl /\
    no_fetch tl.
Proof.
  assert (forall (e : error) (w1 : World), exists tl,
    calls (snd ((if String.eqb (name_of e) "HTTPError"
                    && bool_decide (code_of e = Some 404)
                 then if decide (device <> 1)
                      then removeDeviceIdsForNumber env number [device]
                      else reject (UnregisteredUserError number e)
                 else reject e) w1)) = calls w1 ++ tl /\ no_fetch tl) as Hhandler.
  { intros e w1. destruct (_ && _); [destruct (decide _)|].
    - rewrite removeDeviceIdsForNumber_one. cbn.
      eexists. split; [reflexivity | by repeat constructor].
    - exists []. split; [by rewrite app_nil_r | constructor].
    - exists []. split; [by rewrite app_nil_r | constructor]. }
  unfold fetchDevice, catch, bind. unfold then2 at 1 2. unfold call.
  destruct (server_getKeysForNumber env (calls w) number (Some device))
    as [response|e]; cbn [settle].
  - unfold then2.
    destruct (handleResult_no_fetch number (Some updateDevices) response
                (record (GetKeysForNumber number (Some device)) w))
      as (tl & Htl & Hn).
    destruct (handleResult _ _ _ _ _) as [[l|e|] w1]; cbn [snd] in Htl.
    + cbn. exists tl. split; [|done]. rewrite Htl. cbn. by rewrite <- app_assoc.
    + destruct (Hhandler e w1) as (tl2 & Htl2 & Hn2).
      unfold reject at 1. exists (tl ++ tl2). split; [|by apply Forall_app].
      rewrite Htl2, Htl. cbn. by rewrite <- !app_assoc.
    + cbn. exists tl. split; [|done]. rewrite Htl. cbn. by rewrite <- app_assoc.
  - unfold reject at 1. cbv beta iota zeta.
    destruct (Hhandler e (record (GetKeysForNumber number (Some device)) w))
      as (tl & Htl & Hn).
    exists tl. split; [|done]. rewrite Htl. cbn. by rewrite <- app_assoc.
Qed.

(** The loop over an explicit device list: the call record grows by one
    segment per device, in list order; each segment opens with the key
    fetch for that one device and holds no other key fetch; when the
    loop ends fulfilled, every device has its segment. *)

Lemma chain_fetchDevice_serial (number : string) (updateDevices devices : list Z)
    (w : World) :
  exists (k : nat) (segments : list (list Call)),
    calls (snd (chain (fetchDevice env number updateDevices) devices w))
    = calls w ++ concat segments /\
    fetched_serially number (take k devices) segments /\
    (fst (chain (fetchDevice env number updateDevices) devices w) = Fulfilled tt ->
     k = length devices).
Proof.
  revert w. induction devices as [|device devices IH]; intros w.
  - exists 0%nat, []. cbn. split; [by rewrite app_nil_r|]. split; [constructor|done].
  - rewrite chain_cons. unfold bind, then2.
    destruct (fetchDevice_calls number updateDevices device w) as (tl & Htl & Hn).
    destruct (fetchDevice _ _ _ _ _) as [[[]|e|] w1]; cbn [snd] in Htl.
    + destruct (IH w1) as (k & segments & Hcalls & Hser & Hk).
      exists (S k), ((GetKeysForNumber number (Some device) :: tl) :: segments).
      split; [|split].
      * rewrite Hcalls, Htl. cbn [concat]. by rewrite <- !app_assoc.
      * cbn [take]. constructor; [eauto | done].
      * intros Hf. cbn [length]. f_equal. by apply Hk.
    + exists 1%nat, [GetKeysForNumber number (Some device) :: tl].
      split; [|split].
      * cbn. by rewrite app_nil_r.
      * cbn [take]. rewrite take_0. constructor; [eauto | constructor].
      * discriminate.
    + exists 1%nat, [GetKeysForNumber number (Some device) :: tl].
      split; [|split].
      * cbn. by rewrite app_nil_r.
      * cbn [take]. rewrite take_0. constructor; [eauto | constructor].
      * discriminate.
Qed.

Lemma fetchDevice_404 (number : string) (updateDevices : list Z) (device : Z)
    (e : error) (w : World) :
  server_getKeysForNumber env (calls w) number (Some device) = Throw e ->
  name_of e = "HTTPError" -> code_of e = Some 404 ->
  fetchDevice env number updateDevices device w
  = (if decide (device <> 1)
     then removeDeviceIdsForNumber env number [device]
     else reject (UnregisteredUserError number e))
      (record (GetKeysForNumber number (Some device)) w).
Proof.
  intros Hanswer Hname Hcode.
  unfold fetchDevice, catch, bind. unfold then2 at 1 2. unfold call.
  rewrite Hanswer. cbn [settle]. unfold reject at 1. cbv beta iota zeta.
  rewrite Hname, Hcode. rewrite bool_decide_true by done. reflexivity.
Qed.

(** C7: with an explicit device list, [getKeysForNumber] fetches the
    keys one device at a time and in list order, each fetch after all
    the calls of the round before, whatever the answers are; and when
    the rounds before a device are fulfilled and the fetch for that
    device is answered 404, then, for a device other than 1, the next
    call removes that device's session from the Store and, once the
    Store has done so, the loop goes on with the devices after it,
    while for device 1 the whole rejects with [UnregisteredUserError]
    for the number and no further call is made. *)
Theorem getKeysForNumber_serial_and_404 (number : string) (devices : list Z)
    (w : World) :
  let round := fetchDevice env number devices in
  let run := getKeysForNumber env number (Some devices) w in
  (exists (k : nat) (segments : list (list Call)),
      calls (snd run) = calls w ++ concat segments /\
      fetched_serially number (take k devices) segments /\
      (fst run = Fulfilled tt -> k = length devices)) /\
  forall (before after : list Z) (device : Z) (e : error) (w0 : World),
    devices = before ++ device :: after ->
    chain round before w = (Fulfilled tt, w0) ->
    server_getKeysForNumber env (calls w0) number (Some device) = Throw e ->
    name_of e = "HTTPError" -> code_of e = Some 404 ->
    let w1 := record (GetKeysForNumber number (Some device)) w0 in
    let removal := RemoveSession (encodedNumber number device) in
    (device <> 1 ->
     (exists rest : list Call, calls (snd run) = calls w1 ++ removal :: rest) /\
     (store_removeSession env (calls w1) (encodedNumber number device) = Return tt ->
      run = chain round after (record removal w1))) /\
    (device = 1 -> run = (Rejected (UnregisteredUserError number e), w1)).
Proof.
  intros round run. split; [apply chain_fetchDevice_serial|].
  intros before after device e w0 Hdev Hbefore Hanswer Hname Hcode w1 removal.
  assert (run = bind (round device) (fun _ => chain round after) w0) as Hrun.
  { unfold run, getKeysForNumber. fold round. rewrite Hdev, chain_app.
    unfold bind at 1, then2 at 1. rewrite Hbefore.
    by rewrite chain_cons. }
  unfold round at 1 in Hrun. unfold bind, then2 in Hrun.
  rewrite (fetchDevice_404 _ _ _ e) in Hrun by done. fold w1 in Hrun.
  split.
  - intros Hne. rewrite decide_True in Hrun by done.
    rewrite removeDeviceIdsForNumber_one in Hrun. fold removal in Hrun.
    destruct (store_removeSession env (calls w1) (encodedNumber number device))
      as [[]|e'] eqn:Hrem; cbn [settle] in Hrun.
    + split; [|done].
      destruct (chain_fetchDevice_serial number devices after (record removal w1))
        as (k & segments & Hcalls & _).
      fold round in Hcalls. rewrite <- Hrun in Hcalls.
      exists (concat segments). rewrite Hcalls. cbn. by rewrite <- app_assoc.
    + split; [|discriminate]. exists []. by rewrite Hrun.
  - intros ->. by rewrite decide_False in Hrun by (intros H; by apply H).
Qed.

(** *** The padded plaintext of an outgoing message *)

Lemma getPlaintext_fresh (w : World) :
  plaintext w = None ->
  exists padded : list byte,
    Padding.buildPlaintext (Content_encode env (message this)) = Return padded /\
    getPlaintext env this w
    = (Fulfilled padded,
       {| calls := calls w; plaintext := Some padded;
          numbersCompleted := numbersCompleted w; errors := errors w;
          successfulNumbers := successfulNumbers w |}).
Proof.
  intros Hnone. unfold getPlaintext. rewrite Hnone.
  destruct (buildPlaintext_shape (Content_encode env (message this)))
    as (k & -> & _).
  eexists. split; reflexivity.
Qed.

Lemma getPlaintext_cached (w : World) (p : list byte) :
  plaintext w = Some p -> getPlaintext env this w = (Fulfilled p, w).
Proof. intros Hsome. unfold getPlaintext. by rewrite Hsome. Qed.

(** *** Recovery from 410 *)

Lemma ciphersFor_lookup (number : string) (deviceIds : list Z) (device : Z) :
  device ∈ deviceIds ->
  ciphersFor number deviceIds !! device = Some (number, device).
Proof.
  unfold ciphersFor. intros Hin.
  assert (forall acc : gmap Z (string * Z),
    device ∈ deviceIds \/ acc !! device = Some (number, device) ->
    foldl (fun ciphers d => <[d := (number, d)]> ciphers) acc deviceIds !! device
    = Some (number, device)) as Hgen.
  { clear Hin. induction deviceIds as [|x xs IH]; intros acc Hcase; cbn [foldl].
    - destruct Hcase as [Hin|Hacc]; [by apply elem_of_nil in Hin | done].
    - apply IH. destruct (decide (device = x)) as [->|Hne].
      + right. apply lookup_insert_eq.
      + destruct Hcase as [Hin|Hacc].
        * left. by apply elem_of_cons in Hin as [?|?].
        * right. by rewrite lookup_insert_ne. }
  apply Hgen. by left.
Qed.


Lemma closeStale_all (ciphers : gmap Z (string * Z)) (number : string)
    (stale : list Z) (started : list (M World unit)) :
  (forall d, d ∈ stale -> ciphers !! d = Some (number, d)) ->
  closeStale env ciphers stale started
  = all (started ++ map (closeCall number) stale).
Proof.
  revert started. induction stale as [|d stale IH]; intros started Hall; cbn.
  - by rewrite app_nil_r.
  - rewrite (Hall d) by left. rewrite IH.
    + by rewrite <- app_assoc.
    + intros d' Hd'. apply Hall. by right.
Qed.

Lemma all_closeCall_calls (number : string) (stale : list Z) (w : World) :
  calls (snd (all (map (closeCall number) stale) w))
  = calls w ++ map (CloseOpenSessionForDevice number) stale.
Proof.
  revert w. induction stale as [|d stale IH]; intros w; cbn [map all].
  - cbn. by rewrite app_nil_r.
  - unfold closeCall at 1, call.
    specialize (IH (record (CloseOpenSessionForDevice number d) w)).
    destruct (all _ _) as [rs w2]. cbn [snd] in IH |- *.
    rewrite IH. cbn. by rewrite <- app_assoc.
Qed.


Lemma registerError_http (number reason msg : string) (code : Z)
    (resp : HTTPResponse) (w : World) :
  code <> 404 ->
  exists w' : World,
    registerError env this number reason (Some (HTTPError msg code resp)) w
    = (Fulfilled tt, w') /\
    errors w' = errors w ++ [wrapped number reason (HTTPError msg code resp)] /\
    numbersCompleted w' = numbersCompleted w + 1 /\
    successfulNumbers w' = successfulNumbers w /\
    plaintext w' = plaintext w /\
    (calls w' = calls w \/
     calls w' = calls w ++ [Callback (successfulNumbers w') (errors w')]).
Proof.
  intros Hcode. unfold registerError, bind, then2, modify, numberCompleted.
  cbn [name_of code_of String.eqb Ascii.eqb Bool.eqb andb].
  rewrite bool_decide_false by congruence. cbn [negb].
  cbn [numbersCompleted errors successfulNumbers calls Sender.plaintext].
  destruct (decide _); eexists; (split; [reflexivity|]); cbn; auto 10.
Qed.

(** C6 (amended): when the first attempt of [doSendMessage] (called
    with [recurse = true]) is answered 410 and every stale device the
    answer lists is one of the devices the attempt was made for, it asks
    the session of every stale device (and of no other) to close; once
    these are closed it fetches the keys of exactly the stale devices,
    one by one; once these are fetched it asks the Store for the devices
    of the number again and sends to them with [recurse = false]
    (registering an error instead when the Store knows none); and an
    attempt made with [recurse = false] that is answered 410 or 409
    registers the error with the reason "Hit retry limit attempting to
    reload device list", counts the number as completed and makes no
    further call besides the final callback. *)
Theorem stale_devices_retry_limit (fuel : nat) (number : string)
    (deviceIds stale : list Z) (w wp w1 : World) (pt : list byte)
    (msg : string) (resp : HTTPResponse) :
  getPlaintext env this w = (Fulfilled pt, wp) ->
  attempt env this number deviceIds pt wp
  = (Rejected (HTTPError msg 410 resp), w1) ->
  staleDevices resp = Some stale ->
  (forall d, d ∈ stale -> d ∈ deviceIds) ->
  let closing := all (map (closeCall number) stale) in
  let fetching := getKeysForNumber env number (Some stale) in
  let run := doSendMessage env this (S fuel) number deviceIds true w in
  calls (snd (closing w1))
  = calls w1 ++ map (CloseOpenSessionForDevice number) stale /\
  (forall w' : World,
      exists (k : nat) (segments : list (list Call)),
        calls (snd (fetching w')) = calls w' ++ concat segments /\
        fetched_serially number (take k stale) segments /\
        (fst (fetching w') = Fulfilled tt -> k = length stale)) /\
  (let (closed, w2) := closing w1 in
   match closed with
   | Fulfilled _ =>
       let (fetched, w3) := fetching w2 in
       match fetched with
       | Fulfilled _ =>
           let w4 := record (GetDeviceIds number) w3 in
           match store_getDeviceIds env (calls w3) number with
           | Return [] =>
               run = registerError env this number
                       "Got empty device list when loading device keys" None w4
           | Return reloaded =>
               run = doSendMessage env this fuel number reloaded false w4
           | Throw e => run = (Rejected e, w4)
           end
       | Rejected e => run = (Rejected e, w3)
       | Pending => run = (Pending, w3)
       end
   | _ => snd run = w2 /\ forall u : unit, fst run <> Fulfilled u
   end) /\
  (forall (fuel' : nat) (ids2 : list Z) (w2 wp2 w3 : World) (pt2 : list byte)
          (msg2 : string) (code2 : Z) (resp2 : HTTPResponse),
      getPlaintext env this w2 = (Fulfilled pt2, wp2) ->
      attempt env this number ids2 pt2 wp2
      = (Rejected (HTTPError msg2 code2 resp2), w3) ->
      code2 = 410 \/ code2 = 409 ->
      exists w4 : World,
        doSendMessage env this (S fuel') number ids2 false w2 = (Fulfilled tt, w4) /\
        errors w4
        = errors w3
          ++ [wrapped number "Hit retry limit attempting to reload device list"
                (HTTPError msg2 code2 resp2)] /\
        numbersCompleted w4 = numbersCompleted w3 + 1 /\
        successfulNumbers w4 = successfulNumbers w3 /\
        (calls w4 = calls w3 \/
         calls w4 = calls w3 ++ [Callback (successfulNumbers w4) (errors w4)])).
Proof.
  intros Hpt Hattempt Hresp Hstale closing fetching run.
  split; [apply all_closeCall_calls|].
  split; [intros w'; apply chain_fetchDevice_serial|].
  split.
  - assert (run = (closing ;;; fetching ;;;
                   reloadDevicesAndSendWith env this (doSendMessage env this fuel)
                     number false)%async w1) as Hrun.
    { unfold run. cbn [doSendMessage]. unfold bind at 1, then2 at 1. rewrite Hpt.
      unfold catch, then2 at 1. rewrite Hattempt.
      unfold recover.
      cbn [name_of code_of response_of String.eqb Ascii.eqb Bool.eqb].
      rewrite (bool_decide_true (Some 410 = Some 410)) by done.
      rewrite !(bool_decide_false (Some 410 = Some 409)) by done.
      cbn [andb orb negb]. rewrite Hresp.
      rewrite (closeStale_all _ number)
        by (intros d Hd; by apply ciphersFor_lookup, Hstale).
      cbn [app]. fold closing. fold fetching.
      unfold bind, then2. by destruct (closing w1) as [[l|e|] w2]. }
    clearbody run. unfold bind at 1, then2 at 1 in Hrun.
    destruct (closing w1) as [[l|e|] w2]; [|by subst run..].
    unfold bind at 1, then2 at 1 in Hrun.
    destruct (fetching w2) as [[[]|e|] w3]; [|done..].
    unfold reloadDevicesAndSendWith, bind, then2, call in Hrun.
    destruct (store_getDeviceIds env (calls w3) number) as [[|d ids]|e];
      cbn [settle] in Hrun; [|cbn [length] in Hrun|done].
    + by rewrite decide_True in Hrun by done.
    + by rewrite decide_False in Hrun by done.
  - intros fuel' ids2 w2 wp2 w3 pt2 msg2 code2 resp2 Hpt2 Hattempt2 Hcode.
    cbn [doSendMessage]. unfold bind at 1, then2 at 1. rewrite Hpt2.
    unfold catch, then2 at 1. rewrite Hattempt2.
    unfold recover. cbn [name_of code_of String.eqb Ascii.eqb Bool.eqb].
    assert (bool_decide (Some code2 = Some 410) || bool_decide (Some code2 = Some 409)
            = true) as ->.
    { destruct Hcode as [-> | ->]; reflexivity. }
    cbn [andb negb].
    destruct (registerError_http number
                "Hit retry limit attempting to reload device list"
                msg2 code2 resp2 w3 ltac:(lia))
      as (w4 & Hrun & Herr & Hdone & Hsucc & _ & Hcalls).
    exists w4. by rewrite Hrun.
Qed.

End SendFacts.

(** *** Concrete runs of the send path *)


Lemma getKeysForNumber_serial_and_404_witness :
  let run := Sender.getKeysForNumber env0 "+15550001111" (Some [2; 3; 4]) fresh in
  fst run = Fulfilled tt /\
  Sender.calls (snd run)
  = [Sender.GetKeysForNumber "+15550001111" (Some 2);
     Sender.ProcessPreKey "+15550001111"
       {| Sender.deviceId := 2; Sender.registrationId := 7 |};
     Sender.GetKeysForNumber "+15550001111" (Some 3);
     Sender.RemoveSession "+15550001111.3";
     Sender.GetKeysForNumber "+15550001111" (Some 4);
     Sender.ProcessPreKey "+15550001111"
       {| Sender.deviceId := 4; Sender.registrationId := 7 |}].
Proof.
  intros run.
  destruct (getKeysForNumber_serial_and_404 env0 "+15550001111" [2; 3; 4] fresh)
    as (_ & H404).
  destruct (H404 [2] [4] 3 (HTTPError "not found; code: 404" 404 noDevices)
              _ eq_refl eq_refl eq_refl eq_refl eq_refl) as (Hother & _).
  destruct (Hother ltac:(discriminate)) as (_ & Hrun).
  specialize (Hrun eq_refl).
  unfold run. rewrite Hrun. split; reflexivity.
Defined.

Lemma stale_devices_retry_limit_witness :
  let run := Sender.doSendMessage env0 this0 2 "+15550001111" [1] true fresh in
  fst run = Fulfilled tt /\
  map Sender.error_reason (Sender.errors (snd run))
  = ["Hit retry limit attempting to reload device list"] /\
  Sender.numbersCompleted (snd run) = 1.
Proof.
  intros run.
  destruct (stale_devices_retry_limit env0 this0 1 "+15550001111" [1] [1] fresh
              _ _ _ _ _ eq_refl eq_refl eq_refl) as (_ & _ & Hrun & _).
  { intros d Hd. exact Hd. }
  eassert (run = Sender.doSendMessage env0 this0 1 "+15550001111" [1] false _)
    as Hretry by exact Hrun.
  rewrite Hretry. repeat split; reflexivity.
Defined.

(** C6, as stated, fails: the server answers the attempt made for
    device 2 with a 410 that names device 1 as stale.  No session cipher
    was made for device 1, so the recovery throws: no key is fetched,
    nothing is sent again and nothing is registered for the number. *)
Lemma stale_device_outside_attempt :
  let run := Sender.doSendMessage env0 this0 2 "+15550001111" [2] true fresh in
  fst run
  = Rejected (TypeError
      "Cannot read property 'closeOpenSessionForDevice' of undefined") /\
  length (Sender.calls (snd run)) = 2%nat /\
  existsb Sender.is_fetch (Sender.calls (snd run)) = false /\
  last (Sender.calls (snd run))
  = Some (Sender.SendMessages "+15550001111"
            [{| Sender.type := 1; Sender.destinationDeviceId := 2;
                Sender.destinationRegistrationId := 7;
                Sender.content := "ciphertext" |}]
            1700000000000 false) /\
  Sender.errors (snd run) = [] /\
  Sender.numbersCompleted (snd run) = 0.
Proof. vm_compute. repeat split; reflexivity. Qed.

(** * Further properties *)

(** ** Padding codec: sizes and the inverse direction *)

Section PaddingMore.
Import Uint8Array Padding.

Lemma unpad_loop_found (p q : list byte) (n : nat) :
  (n <= length p)%nat ->
  unpad_loop p n = Return (Some q) ->
  exists i : nat,
    (i < n)%nat /\ p !! i = Some x80 /\ q = take i p /\
    forall j : nat, (i < j < n)%nat -> p !! j = Some x00.
Proof.
  induction n as [|n IH]; intros Hn; cbn [unpad_loop]; [discriminate|].
  destruct (lookup_lt_is_Some_2 p n ltac:(lia)) as [b Hb]. rewrite Hb.
  destruct (decide (b = x80)) as [->|Hne80].
  - rewrite set_make_fits by apply subarray_prefix_fits. cbn [cbind].
    intros [= <-]. exists n. split; [lia|]. split; [done|]. split.
    + unfold subarray. rewrite drop_0, Nat.sub_0_r, length_take.
      replace (n - n `min` length p)%nat with 0%nat by lia.
      by rewrite app_nil_r.
    + intros j Hj. lia.
  - destruct (decide (b <> x00)) as [Hne0|He0]; [discriminate|].
    assert (b = x00) as -> by (destruct (decide (b = x00)); tauto).
    intros Hq. destruct (IH ltac:(lia) Hq) as (i & Hi & H80 & Htake & Hzeros).
    exists i. split; [lia|]. do 2 (split; [done|]).
    intros j Hj. destruct (decide (j = n)) as [->|Hjn]; [done|].
    apply Hzeros. lia.
Qed.

Lemma unpad_loop_none (p : list byte) (n : nat) :
  (n <= length p)%nat ->
  unpad_loop p n = Return None ->
  forall j : nat, (j < n)%nat -> p !! j = Some x00.
Proof.
  induction n as [|n IH]; intros Hn; cbn [unpad_loop]; [intros _ j Hj; lia|].
  destruct (lookup_lt_is_Some_2 p n ltac:(lia)) as [b Hb]. rewrite Hb.
  destruct (decide (b = x80)) as [->|Hne80].
  - rewrite set_make_fits by apply subarray_prefix_fits. discriminate.
  - destruct (decide (b <> x00)) as [Hne0|He0]; [discriminate|].
    assert (b = x00) as -> by (destruct (decide (b = x00)); tauto).
    intros Hq j Hj. destruct (decide (j = n)) as [->|Hjn]; [done|].
    apply IH; [lia | done | lia].
Qed.

Lemma buildPlaintext_length (P padded : list byte) :
  buildPlaintext P = Return padded ->
  Z.of_nat (length padded)
  = getPaddedMessageLength (Z.of_nat (length P) + 1) - 1.
Proof.
  unfold buildPlaintext. cbv zeta.
  destruct (getPaddedMessageLength_bounds (Z.of_nat (length P) + 1) ltac:(lia))
    as [_ Hrange].
  rewrite set_make_fits by lia. cbn [cbind]. intros [= <-].
  unfold store. rewrite length_insert, length_app, length_replicate. lia.
Qed.

End PaddingMore.

(** X1: for a length that is not negative and small enough for the
    code's arithmetic on doubles to be exact (the length plus 160 is
    below [2 ^ 53]), [getPaddedMessageLength] gives the least multiple of
    160 that is greater than the length. *)
Theorem getPaddedMessageLength_least_multiple (messageLength : Z) :
  0 <= messageLength -> messageLength + 160 < 2 ^ 53 ->
  let padded := Padding.getPaddedMessageLength messageLength in
  padded mod 160 = 0 /\ messageLength < padded /\
  forall other : Z, other mod 160 = 0 -> messageLength < other -> padded <= other.
Proof.
  intros Hm _ padded.
  destruct (getPaddedMessageLength_bounds messageLength Hm) as [Hmod Hrange].
  fold padded in Hmod, Hrange. split; [done|]. split; [lia|].
  intros other Hother Hgt.
  apply Z.mod_divide in Hmod as [a Ha]; [|lia].
  apply Z.mod_divide in Hother as [b Hb]; [|lia].
  lia.
Qed.

Lemma getPaddedMessageLength_least_multiple_witness :
  0 <= 159 /\ 159 + 160 < 2 ^ 53 /\
  Padding.getPaddedMessageLength 159 mod 160 = 0 /\
  159 < Padding.getPaddedMessageLength 159 /\
  forall other : Z,
    other mod 160 = 0 -> 159 < other -> Padding.getPaddedMessageLength 159 <= other.
Proof.
  split; [lia|]. split; [lia|].
  apply (getPaddedMessageLength_least_multiple 159); lia.
Defined.

(** X2: the padded plaintext is longer than the message by at least one
    byte and at most 160 bytes. *)
Theorem padding_overhead (P : list byte) :
  exists padded : list byte,
    Padding.buildPlaintext P = Return padded /\
    (length P + 1 <= length padded <= length P + 160)%nat.
Proof.
  destruct (buildPlaintext_shape P) as (k & Hbuild & _).
  eexists. split; [exact Hbuild|].
  pose proof (buildPlaintext_length _ _ Hbuild) as Hlen.
  destruct (getPaddedMessageLength_bounds (Z.of_nat (length P) + 1) ltac:(lia))
    as [_ Hrange].
  lia.
Qed.

(** X3: [unpad] gives back a plaintext exactly for the inputs made of
    that plaintext, one [0x80] and nothing but zeros after it; and it
    gives [undefined] exactly for the inputs made of zeros only. *)
Theorem unpad_result_iff (p q : list byte) :
  (Padding.unpad p = Return (Some q)
   <-> exists k : nat, p = q ++ x80 :: replicate k x00) /\
  (Padding.unpad p = Return None <-> forall b : byte, b ∈ p -> b = x00).
Proof.
  split; split.
  - intros Hq. unfold Padding.unpad in Hq.
    apply unpad_loop_found in Hq as (i & Hi & H80 & -> & Hzeros); [|lia].
    exists (length p - S i)%nat.
    rewrite <- (take_drop_middle p i x80 H80) at 1. do 2 f_equal.
    apply list_eq. intros j.
    destruct (decide (j < length p - S i)%nat) as [Hlt|Hge].
    + rewrite lookup_drop, lookup_replicate_2 by lia. apply Hzeros. lia.
    + rewrite lookup_drop, lookup_ge_None_2 by lia.
      symmetry. apply lookup_ge_None_2. rewrite length_replicate. lia.
  - intros (k & ->). unfold Padding.unpad.
    rewrite length_app. cbn [length]. rewrite length_replicate.
    replace (length q + S k)%nat with (length q + 1 + k)%nat by lia.
    by apply unpad_loop_skips_zeros.
  - intros Hnone b Hb. apply list_elem_of_lookup in Hb as [j Hj].
    pose proof (lookup_lt_Some _ _ _ Hj) as Hlt.
    rewrite (unpad_loop_none p (length p) ltac:(lia) Hnone j Hlt) in Hj.
    congruence.
  - intros Hz. by apply unpad_loop_all_zero.
Qed.

(** ** Retry negotiator: failed decryption *)

Lemma tryMessageAgain_throws_iff
    (Content_decode : list byte -> Completion Content)
    (cipher_decrypt : list byte -> Completion (list byte))
    (from number : string) (device : Z) (ciphertext : list byte)
    (message : Retry.StoredMessage) (now_sent now_received : Z) (e : error) :
  Retry.tryMessageAgain Content_decode cipher_decrypt from number device
    ciphertext message now_sent now_received = Throw e
  <-> cipher_decrypt ciphertext = Throw e \/
      exists padded : list byte,
        cipher_decrypt ciphertext = Return padded /\
        Padding.unpad padded = Throw Padding.InvalidPadding /\
        e = Padding.InvalidPadding.
Proof.
  unfold Retry.tryMessageAgain, Retry.decryptPreKeyWhisperMessage.
  destruct (cipher_decrypt ciphertext) as [padded|e'] eqn:Hc; cbn [cbind].
  - destruct (Padding.unpad padded) as [plaintext|e'] eqn:Hu; cbn [cbind].
    + split; [discriminate|].
      intros [Hd|(padded' & [= <-] & Hu' & _)]; [discriminate | congruence].
    + pose proof (unpad_loop_only_error _ _ _ Hu) as ->.
      cbn. split.
      * intros [= <-]. right. eauto.
      * intros [Hd|(padded' & _ & _ & ->)]; [discriminate | done].
  - split.
    + intros [= ->]. by left.
    + intros [[= ->]|(padded & Hd & _)]; [done | discriminate].
Qed.

(** X4: the promise [tryMessageAgain] returns is rejected exactly in
    these cases: the session cipher rejects (with the cipher's error);
    the decrypted bytes are badly padded (with "Invalid padding"); the
    plaintext goes to the legacy handler and that handler throws or its
    promise is rejected; the plaintext goes to the content handler and
    the promise that handler returns is rejected; the content handler
    throws before it returns a promise, the plaintext is therefore given
    to the legacy handler, and that one throws or its promise is
    rejected.  The conversion to [IncomingIdentityKeyError] in
    [decryptPreKeyWhisperMessage] guards [unpad] only, which never
    throws "Unknown identity key", so it changes no error. *)
Theorem tryMessageAgain_rejects_iff
    (Content_decode : list byte -> Completion Content)
    (cipher_decrypt : list byte -> Completion (list byte))
    (legacy content : Retry.RetryEnvelope -> option (list byte) ->
                      Completion (Settled unit))
    (from number : string) (device : Z) (ciphertext : list byte)
    (message : Retry.StoredMessage) (now_sent now_received : Z) (e : error) :
  let chosen := Retry.tryMessageAgain Content_decode cipher_decrypt from number
                  device ciphertext message now_sent now_received in
  RetryRun.tryMessageAgain Content_decode cipher_decrypt legacy content from
    number device ciphertext message now_sent now_received = Rejected e
  <-> cipher_decrypt ciphertext = Throw e \/
      (exists padded : list byte,
          cipher_decrypt ciphertext = Return padded /\
          Padding.unpad padded = Throw Padding.InvalidPadding /\
          e = Padding.InvalidPadding) \/
      (exists (envelope : Retry.RetryEnvelope) (plaintext : option (list byte)),
          chosen = Return (Retry.LegacyMessage envelope plaintext) /\
          (legacy envelope plaintext = Throw e \/
           legacy envelope plaintext = Return (Rejected e))) \/
      (exists (envelope : Retry.RetryEnvelope) (plaintext : option (list byte)),
          chosen = Return (Retry.ContentMessage envelope plaintext) /\
          (content envelope plaintext = Return (Rejected e) \/
           (exists thrown : error,
               content envelope plaintext = Throw thrown) /\
           (legacy envelope plaintext = Throw e \/
            legacy envelope plaintext = Return (Rejected e)))).
Proof.
  intros chosen.
  pose proof (tryMessageAgain_throws_iff Content_decode cipher_decrypt from
                number device ciphertext message now_sent now_received e)
    as Hthrows.
  fold chosen in Hthrows.
  assert (forall r : Completion (Settled unit),
             RetryRun.adopt r = Rejected e
             <-> r = Throw e \/ r = Return (Rejected e)) as Hadopt.
  { intros [[u|e'|]|e']; cbn; split;
      first [by intros [= ->]; auto | by intros [[= ->]|[= ->]] | done
            | by intros [?|?] ]. }
  unfold RetryRun.tryMessageAgain. subst chosen.
  unfold Retry.tryMessageAgain in *.
  destruct (Retry.decryptPreKeyWhisperMessage cipher_decrypt from ciphertext)
    as [plaintext|e'] eqn:Hdec; cbn [cbind] in *.
  2:{ split.
      - intros [= ->]. destruct (proj1 Hthrows eq_refl) as [?|?]; auto.
      - intros [H|[H|[(? & ? & ? & _)|(? & ? & ? & _)]]]; try discriminate.
        + f_equal. symmetry. by injection (proj2 Hthrows (or_introl H)).
        + f_equal. symmetry. by injection (proj2 Hthrows (or_intror H)). }
  assert (~ (cipher_decrypt ciphertext = Throw e \/
             exists padded : list byte,
               cipher_decrypt ciphertext = Return padded /\
               Padding.unpad padded = Throw Padding.InvalidPadding /\
               e = Padding.InvalidPadding)) as Hfine.
  { intros H. apply Hthrows in H. discriminate. }
  unfold Retry.dispatchRetried. cbv zeta.
  destruct (decide (_ < Retry.startOfJune)).
  { rewrite Hadopt. split.
    - intros H. right. right. left. eauto.
    - intros [H|[H|[(env & pt & [= <- <-] & H)|(? & ? & ? & _)]]];
        [by destruct Hfine; auto..|done|discriminate]. }
  destruct (Content_decode _) as [decoded|e']; cbn [cbind].
  2:{ rewrite Hadopt. split.
      - intros H. right. right. left. eauto.
      - intros [H|[H|[(env & pt & [= <- <-] & H)|(? & ? & ? & _)]]];
          [by destruct Hfine; auto..|done|discriminate]. }
  destruct (Retry.validateRetryContentMessage decoded).
  2:{ rewrite Hadopt. split.
      - intros H. right. right. left. eauto.
      - intros [H|[H|[(env & pt & [= <- <-] & H)|(? & ? & ? & _)]]];
          [by destruct Hfine; auto..|done|discriminate]. }
  destruct (content _ plaintext) as [promise|thrown] eqn:Hcontent; cbn [cbind].
  - split.
    + intros ->. right. right. right. eauto 10.
    + intros [H|[H|[(? & ? & ? & _)|(env & pt & [= <- <-] & H)]]];
        [by destruct Hfine; auto..|discriminate|].
      rewrite Hcontent in H. destruct H as [[= ->]|[[? ?] _]]; [done|discriminate].
  - rewrite Hadopt. split.
    + intros H. right. right. right. do 2 eexists. split; [reflexivity|].
      right. rewrite Hcontent. eauto.
    + intros [H|[H|[(? & ? & ? & _)|(env & pt & [= <- <-] & H)]]];
        [by destruct Hfine; auto..|discriminate|].
      rewrite Hcontent in H. destruct H as [?|[_ ?]]; [discriminate|done].
Qed.

(** ** Utility worker: job ids and replies *)

Section WorkerFacts.
Import Worker WorkerJobs.

Lemma callWorker_state (name : string) (arg : value) (s : State) :
  callWorker name arg s
  = (VPromise (WorkerJob (_jobCounter s + 1)),
     {| _jobCounter := _jobCounter s + 1;
        _jobs := alter (fun j => {| fnName := fnName j; start := start j;
                                    resolvers := true |})
                   (_jobCounter s + 1)
                   (<[_jobCounter s + 1 :=
                        {| fnName := name; start := clock s; resolvers := false |}]>
                      (_jobs s));
        posted := posted s ++ [(_jobCounter s + 1, name, arg)];
        timers := timers s ++ [(_jobCounter s + 1, WORKER_TIMEOUT)];
        clock := clock s |}).
Proof. reflexivity. Qed.

Lemma callWorker_jobs (name : string) (arg : value) (s : State) :
  _jobs (snd (callWorker name arg s))
  = <[_jobCounter s + 1 :=
        {| fnName := name; start := clock s; resolvers := true |}]> (_jobs s).
Proof.
  rewrite callWorker_state. cbn [snd _jobs].
  by rewrite alter_insert_eq.
Qed.

End WorkerFacts.

(** X5: on a registry whose job ids do not exceed the counter,
    [callWorker] takes the next id, which no registered job has, adds
    the job under it without touching any other job, posts one message
    carrying that id and sets one timer of 60 seconds for it; the
    registry keeps the property. *)
Theorem callWorker_fresh_job (name : string) (arg : Worker.value)
    (s : Worker.State) :
  WorkerJobs.registry_ok s ->
  let id := Worker._jobCounter s + 1 in
  let s' := snd (Worker.callWorker name arg s) in
  fst (Worker.callWorker name arg s) = Worker.VPromise (Worker.WorkerJob id) /\
  Worker._jobs s !! id = None /\
  Worker._jobs s' !! id
  = Some {| Worker.fnName := name; Worker.start := Worker.clock s;
            Worker.resolvers := true |} /\
  (forall other : Z, other <> id ->
                     Worker._jobs s' !! other = Worker._jobs s !! other) /\
  Worker.posted s' = Worker.posted s ++ [(id, name, arg)] /\
  Worker.timers s' = Worker.timers s ++ [(id, 60000)] /\
  WorkerJobs.registry_ok s'.
Proof.
  intros Hok id s'.
  assert (Worker._jobs s !! id = None) as Hfresh.
  { destruct (Worker._jobs s !! id) eqn:Hid; [|done].
    specialize (Hok id ltac:(by rewrite Hid)). unfold id in Hok. lia. }
  assert (Worker._jobs s'
          = <[id := {| Worker.fnName := name; Worker.start := Worker.clock s;
                       Worker.resolvers := true |}]> (Worker._jobs s)) as Hjobs
    by apply callWorker_jobs.
  split; [reflexivity|]. split; [exact Hfresh|]. split.
  { rewrite Hjobs. apply lookup_insert_eq. }
  split.
  { intros other Hne. rewrite Hjobs. by apply lookup_insert_ne. }
  split; [reflexivity|]. split; [reflexivity|].
  intros j Hj. rewrite Hjobs in Hj.
  change (Worker._jobCounter s') with id.
  destruct (decide (j = id)) as [->|Hne]; [lia|].
  rewrite lookup_insert_ne in Hj by done.
  specialize (Hok j Hj). unfold id. lia.
Qed.

Lemma callWorker_fresh_job_witness :
  WorkerJobs.registry_ok worker0 /\
  fst (Worker.callWorker "stringToArrayBufferBase64" (Worker.VString "QQ==") worker0)
  = Worker.VPromise (Worker.WorkerJob 1) /\
  WorkerJobs.registry_ok
    (snd (Worker.callWorker "stringToArrayBufferBase64" (Worker.VString "QQ==")
            worker0)).
Proof.
  assert (WorkerJobs.registry_ok worker0) as Hok.
  { intros id [job Hjob]. cbn in Hjob. by rewrite lookup_empty in Hjob. }
  split; [exact Hok|].
  destruct (callWorker_fresh_job "stringToArrayBufferBase64"
              (Worker.VString "QQ==") worker0 Hok)
    as (Hid & _ & _ & _ & _ & _ & Hok').
  split; [exact Hid | exact Hok'].
Defined.

(** X6: the reply to a job that [callWorker] has just registered
    resolves its promise with the worker's result and leaves the
    registry as it was before the call; a second reply to the same job,
    like a reply to any job that is not registered, makes [onmessage]
    throw. *)
Theorem worker_reply_round_trip (name : string) (arg result : Worker.value)
    (s : Worker.State) :
  WorkerJobs.registry_ok s ->
  let id := Worker._jobCounter s + 1 in
  let s1 := snd (Worker.callWorker name arg s) in
  exists s2 : Worker.State,
    WorkerJobs.onmessage id None result s1
    = Return (WorkerJobs.Resolves result, s2) /\
    Worker._jobs s2 = Worker._jobs s /\
    Worker._jobCounter s2 = id /\
    forall (errorForDisplay : option string) (again : Worker.value),
      WorkerJobs.onmessage id errorForDisplay again s2
      = Throw (Error ("Received worker reply to job " +:+ pretty id
                      +:+ ", but did not have it in our registry!")).
Proof.
  intros Hok id s1.
  assert (Worker._jobs s !! id = None) as Hfresh.
  { destruct (Worker._jobs s !! id) eqn:Hid; [|done].
    specialize (Hok id ltac:(by rewrite Hid)). unfold id in Hok. lia. }
  assert (Worker._jobs s1 !! id
          = Some {| Worker.fnName := name; Worker.start := Worker.clock s;
                    Worker.resolvers := true |}) as Hjob.
  { unfold s1. rewrite callWorker_jobs. apply lookup_insert_eq. }
  eexists. split; [|split; [|split]].
  - unfold WorkerJobs.onmessage, WorkerJobs._getJob. rewrite Hjob.
    cbn [JS.truthy_str Worker.resolvers]. reflexivity.
  - cbn [WorkerJobs._removeJob Worker._jobs]. fold s1.
    unfold s1. rewrite callWorker_jobs. fold id.
    rewrite delete_insert_eq. by apply delete_id.
  - reflexivity.
  - intros errorForDisplay again.
    unfold WorkerJobs.onmessage, WorkerJobs._getJob.
    cbn [WorkerJobs._removeJob Worker._jobs].
    by rewrite lookup_delete_eq.
Qed.

Lemma worker_reply_round_trip_witness :
  WorkerJobs.registry_ok worker0 /\
  exists s2 : Worker.State,
    WorkerJobs.onmessage 1 None (Worker.VBytes [x41])
      (snd (Worker.callWorker "stringToArrayBufferBase64" (Worker.VString "QQ==")
              worker0))
    = Return (WorkerJobs.Resolves (Worker.VBytes [x41]), s2) /\
    Worker._jobs s2 = Worker._jobs worker0.
Proof.
  assert (WorkerJobs.registry_ok worker0) as Hok.
  { intros id [job Hjob]. cbn in Hjob. by rewrite lookup_empty in Hjob. }
  split; [exact Hok|].
  destruct (worker_reply_round_trip "stringToArrayBufferBase64"
              (Worker.VString "QQ==") (Worker.VBytes [x41]) worker0 Hok)
    as (s2 & Hreply & Hjobs & _).
  exists s2. split; [exact Hreply | exact Hjobs].
Defined.

(** ** Receive path: every outcome of a message request *)

Section RequestFacts.
Import Async Worker Receiver ReceiverLog.

Variable store_rejects : list Event -> StoreOp -> option error.
Variable Envelope_decode : list byte -> Completion Envelope.
Variable decryptWebsocketMessage : list byte -> Completion (list byte).
Variable string_to_index : string -> nat.
Variable lastPromise : Settled unit.
Variable now : Z.
Variable worker_reply : Z -> Settled value.

Local Abbreviation cached_item := (Receiver.cached_item now).
Local Abbreviation handle :=
  (handleRequest store_rejects Envelope_decode decryptWebsocketMessage
     string_to_index lastPromise now worker_reply).

Lemma handleRequest_cases (request : Request) (w : World) :
  path request = "/api/v1/message" ->
  match decryptWebsocketMessage (body request) with
  | Throw e => handle request w = (Fulfilled tt, bad_message e w)
  | Return plaintext =>
      match Envelope_decode plaintext with
      | Throw e => handle request w = (Fulfilled tt, bad_message e w)
      | Return envelope =>
          if bool_decide (source envelope ∈ blocked w)
          then handle request w = (Fulfilled tt, record (Respond 200 "OK") w)
          else
            let op := AddUnprocessed (cached_item envelope) in
            let w1 :=
              set_worker (snd (arrayBufferToStringBase64 plaintext (worker w))) w in
            match store_rejects (log w) op with
            | Some e =>
                handle request w
                = (Fulfilled tt,
                   record (Respond 500 "Failed to cache message")
                     (record (StoreCall op false) w1))
            | None =>
                let w2 :=
                  record (Respond 200 "OK")
                    (record (StoreCall op true)
                       (set_unprocessed (unprocessed w ++ [cached_item envelope])
                          w1)) in
                match lastPromise with
                | Fulfilled _ =>
                    handle request w
                    = (Fulfilled tt, record (QueueEnvelope envelope) w2)
                | Rejected e => handle request w = (Fulfilled tt, bad_message e w2)
                | Pending => handle request w = (Pending, w2)
                end
            end
      end
  end.
Proof.
  intros Hpath. unfold handleRequest. rewrite Hpath.
  cbn [String.eqb Ascii.eqb Bool.eqb negb].
  unfold catch, bind, then2, lift, isBlocked, gets, respond, emit, modify,
    queueEnvelope, ret, reject, bad_message.
  destruct (decryptWebsocketMessage (body request)) as [plaintext|e]; [|done].
  destruct (Envelope_decode plaintext) as [envelope|e]; [|done].
  destruct (bool_decide (source envelope ∈ blocked w)); [done|].
  cbv zeta.
  destruct (addToCache_settles store_rejects string_to_index now worker_reply
              envelope plaintext w) as [(e & Hrej & ->)|(Hok & ->)].
  - by rewrite Hrej.
  - rewrite Hok. by destruct lastPromise as [[]|e|].
Qed.

(** X7: the answers [handleRequest] gives to a message request.  A
    body that does not decrypt or does not decode: 500 "Bad encrypted
    websocket message".  A blocked source: 200.  A cache insert that
    the Store rejects: 500 "Failed to cache message".  A cached
    envelope: 200, and nothing after it unless the promise at the tail
    of [this.incoming] is rejected; then the 200 is followed by 500 "Bad
    encrypted websocket message", so that this request is answered
    twice. *)
Theorem handleRequest_answers (request : Request) (w : World) :
  path request = "/api/v1/message" ->
  exists new : list Event,
    log (snd (handle request w)) = log w ++ new /\
    responses new
    = match decryptWebsocketMessage (body request) with
      | Throw _ => [(500, "Bad encrypted websocket message")]
      | Return plaintext =>
          match Envelope_decode plaintext with
          | Throw _ => [(500, "Bad encrypted websocket message")]
          | Return envelope =>
              if bool_decide (source envelope ∈ blocked w) then [(200, "OK")]
              else
                match store_rejects (log w) (AddUnprocessed (cached_item envelope))
                with
                | Some _ => [(500, "Failed to cache message")]
                | None =>
                    match lastPromise with
                    | Rejected _ =>
                        [(200, "OK"); (500, "Bad encrypted websocket message")]
                    | _ => [(200, "OK")]
                    end
                end
          end
      end.
Proof.
  intros Hpath. pose proof (handleRequest_cases request w Hpath) as Hcases.
  destruct (decryptWebsocketMessage (body request)) as [plaintext|e].
  2:{ rewrite Hcases. eexists.
      split; [cbn -[app]; rewrite <- ?app_assoc; done | done]. }
  destruct (Envelope_decode plaintext) as [envelope|e].
  2:{ rewrite Hcases. eexists.
      split; [cbn -[app]; rewrite <- ?app_assoc; done | done]. }
  destruct (bool_decide (source envelope ∈ blocked w)).
  { rewrite Hcases. eexists. split; [cbn -[app]; done | done]. }
  cbv zeta in Hcases.
  destruct (store_rejects (log w) _) as [e|].
  { rewrite Hcases. eexists.
    split; [cbn -[app]; rewrite <- ?app_assoc; done | done]. }
  destruct lastPromise as [[]|e|]; rewrite Hcases;
    (eexists; split; [cbn -[app]; rewrite <- ?app_assoc; done | done]).
Qed.

(** X8: the envelope of a message request is put on the task queue
    exactly when the body decrypts and decodes, the source is not
    blocked, the Store accepts the cache insert and the promise at the
    tail of [this.incoming] is fulfilled. *)
Theorem handleRequest_queues_iff (request : Request) (w : World)
    (envelope : Envelope) :
  path request = "/api/v1/message" ->
  exists new : list Event,
    log (snd (handle request w)) = log w ++ new /\
    (QueueEnvelope envelope ∈ new
     <-> (exists plaintext : list byte,
             decryptWebsocketMessage (body request) = Return plaintext /\
             Envelope_decode plaintext = Return envelope) /\
         (source envelope ∉ blocked w) /\
         store_rejects (log w) (AddUnprocessed (cached_item envelope)) = None /\
         lastPromise = Fulfilled tt).
Proof.
  intros Hpath. pose proof (handleRequest_cases request w Hpath) as Hcases.
  assert (forall evs : list Event,
             (forall ev, ev ∈ evs -> forall e', ev <> QueueEnvelope e') ->
             ~ QueueEnvelope envelope ∈ evs) as Hnone.
  { intros evs Hevs Hin. by apply (Hevs _ Hin envelope). }
  assert (forall a b c : Event, QueueEnvelope envelope ∈ [a; b; c] ->
                                a = QueueEnvelope envelope \/
                                b = QueueEnvelope envelope \/
                                c = QueueEnvelope envelope) as Hthree.
  { intros a b c Hin. rewrite !elem_of_cons, elem_of_nil in Hin.
    destruct Hin as [->|[->|[->|[]]]]; auto. }
  destruct (decryptWebsocketMessage (body request)) as [plaintext|e].
  2:{ rewrite Hcases. eexists. split; [cbn -[app]; rewrite <- ?app_assoc; done|]. cbn [app].
      split; [|by intros ((? & ? & _) & _)].
      intros Hin. exfalso. revert Hin. apply Hnone.
      intros ev Hev e'; rewrite ?elem_of_cons, elem_of_nil in Hev;
        repeat (destruct Hev as [->|Hev]; [discriminate|]); done. }
  destruct (Envelope_decode plaintext) as [envelope'|e] eqn:Hdec.
  2:{ rewrite Hcases. eexists. split; [cbn -[app]; rewrite <- ?app_assoc; done|]. cbn [app].
      split.
      - intros Hin. exfalso. revert Hin. apply Hnone.
        intros ev Hev e'; rewrite ?elem_of_cons, elem_of_nil in Hev;
        repeat (destruct Hev as [->|Hev]; [discriminate|]); done.
      - intros ((p & [= <-] & Hd) & _). congruence. }
  destruct (bool_decide_reflect (source envelope' ∈ blocked w)) as [Hb|Hb].
  { rewrite Hcases. eexists. split; [cbn -[app]; done|]. cbn [app]. split.
    - intros Hin. exfalso. revert Hin. apply Hnone.
      intros ev Hev e'; rewrite ?elem_of_cons, elem_of_nil in Hev;
        repeat (destruct Hev as [->|Hev]; [discriminate|]); done.
    - intros ((p & [= <-] & Hd) & Hnb & _).
      assert (envelope' = envelope) as -> by congruence. done. }
  cbv zeta in Hcases.
  destruct (store_rejects (log w) (AddUnprocessed (cached_item envelope')))
    as [e|] eqn:Hstore.
  { rewrite Hcases. eexists. split; [cbn -[app]; rewrite <- ?app_assoc; done|]. cbn [app].
    split.
    - intros Hin. exfalso. revert Hin. apply Hnone.
      intros ev Hev e'; rewrite ?elem_of_cons, elem_of_nil in Hev;
        repeat (destruct Hev as [->|Hev]; [discriminate|]); done.
    - intros ((p & [= <-] & Hd) & _ & Hs & _).
      assert (envelope' = envelope) as -> by congruence. congruence. }
  destruct lastPromise as [[]|e|] eqn:Hlast; rewrite Hcases;
    (eexists; split; [cbn -[app]; rewrite <- ?app_assoc; done|]); cbn [app].
  - split.
    + intros Hin.
      apply Hthree in Hin as [Hin|[Hin|Hin]]; try discriminate.
      injection Hin as ->. split; [eauto|]. done.
    + intros ((p & [= <-] & Hd) & _).
      assert (envelope' = envelope) as -> by congruence.
      rewrite !elem_of_cons. auto.
  - split; [|by intros (_ & _ & _ & ?)].
    intros Hin. exfalso. revert Hin. apply Hnone.
    intros ev Hev e'; rewrite ?elem_of_cons, elem_of_nil in Hev;
        repeat (destruct Hev as [->|Hev]; [discriminate|]); done.
  - split; [|by intros (_ & _ & _ & ?)].
    intros Hin. exfalso. revert Hin. apply Hnone.
    intros ev Hev e'; rewrite ?elem_of_cons, elem_of_nil in Hev;
        repeat (destruct Hev as [->|Hev]; [discriminate|]); done.
Qed.

(** X9: when the body of a message request does not decrypt or does not
    decode, the server is answered 500, the error is given to the
    listeners, and neither the Store nor the worker is used; when the
    Store rejects the cache insert, the server is answered 500 "Failed
    to cache message", the cache is as before, and no error event is
    dispatched and nothing is queued. *)
Theorem handleRequest_failures (request : Request) (w : World) :
  path request = "/api/v1/message" ->
  (forall e : error,
      decryptWebsocketMessage (body request) = Throw e \/
      (exists plaintext : list byte,
          decryptWebsocketMessage (body request) = Return plaintext /\
          Envelope_decode plaintext = Throw e) ->
      handle request w = (Fulfilled tt, bad_message e w)) /\
  (forall (plaintext : list byte) (envelope : Envelope) (e : error),
      decryptWebsocketMessage (body request) = Return plaintext ->
      Envelope_decode plaintext = Return envelope ->
      source envelope ∉ blocked w ->
      store_rejects (log w) (AddUnprocessed (cached_item envelope)) = Some e ->
      fst (handle request w) = Fulfilled tt /\
      unprocessed (snd (handle request w)) = unprocessed w /\
      log (snd (handle request w))
      = log w ++ [StoreCall (AddUnprocessed (cached_item envelope)) false;
                  Respond 500 "Failed to cache message"]).
Proof.
  intros Hpath. pose proof (handleRequest_cases request w Hpath) as Hcases.
  split.
  - intros e [Hdec|(plaintext & Hdec & Henv)]; rewrite Hdec in Hcases.
    + exact Hcases.
    + by rewrite Henv in Hcases.
  - intros plaintext envelope e Hdec Henv Hnb Hstore.
    rewrite Hdec, Henv in Hcases.
    rewrite bool_decide_false in Hcases by done. cbv zeta in Hcases.
    rewrite Hstore in Hcases. rewrite Hcases.
    split; [done|]. split; [done|]. cbn -[app]. by rewrite <- app_assoc.
Qed.

End RequestFacts.

(** ** Receive path: the cache at startup *)

Section ScanFacts.
Import Async Worker Receiver ReceiverLog.

Variable store_rejects : list Event -> StoreOp -> option error.
Variable Envelope_decode : list byte -> Completion Envelope.
Variable string_to_index : string -> nat.
Variable worker_reply : Z -> Settled value.

Local Abbreviation requeue :=
  (queueCached store_rejects Envelope_decode string_to_index worker_reply).
Local Abbreviation removed := (after_removal store_rejects).

Lemma removal_run (id : string) (w : World) :
  catch (removeUnprocessed store_rejects id) (fun _ => ret tt) w
  = (Fulfilled tt, removed id w).
Proof.
  unfold catch, then2, removeUnprocessed, store_call, after_removal, ret.
  by destruct (store_rejects (log w) (RemoveUnprocessed id)).
Qed.

(** [queueCached], case by case. *)
Lemma queueCached_cases (item : UnprocessedItem) (w : World) :
  requeue item w
  = (Fulfilled tt,
     if decide (version item = 2) then removed (item_id item) w
     else if is_string (envelope item) then removed (item_id item) w
     else
       match Envelope_decode (Uint8Array_from string_to_index (envelope item)) with
       | Throw _ => removed (item_id item) w
       | Return decoded =>
           if truthy (decrypted item) then
             if is_string (decrypted item) then removed (item_id item) w
             else record (QueueDecryptedEnvelope decoded (decrypted item)) w
           else record (QueueEnvelope decoded) w
       end).
Proof.
  unfold queueCached. unfold catch at 1, then2 at 1.
  unfold bind, then2, call_static, lift, queueEnvelope,
    queueDecryptedEnvelope, emit, modify, reject, ret.
  destruct (decide (version item = 2)); [apply removal_run|].
  destruct (is_string (envelope item)); [apply removal_run|].
  destruct (Envelope_decode _); [|apply removal_run].
  destruct (truthy (decrypted item)); [|done].
  destruct (is_string (decrypted item)); [apply removal_run | done].
Qed.

Lemma removed_log (id : string) (w : World) :
  exists ok : bool,
    log (removed id w) = log w ++ [StoreCall (RemoveUnprocessed id) ok].
Proof.
  unfold after_removal. destruct (store_rejects _ _); eexists; reflexivity.
Qed.

Lemma queueCached_one_event (item : UnprocessedItem) (w : World) :
  exists ev : Event,
    log (snd (requeue item w)) = log w ++ [ev] /\
    handled_as Envelope_decode string_to_index item ev.
Proof.
  rewrite queueCached_cases. cbn [snd]. unfold handled_as. cbv zeta.
  destruct (removed_log (item_id item) w) as [ok Hlog].
  destruct (decide (version item = 2)) as [Hv|Hv].
  { eexists. split; [exact Hlog|]. right. exists ok. auto. }
  destruct (is_string (envelope item)) eqn:Hs.
  { eexists. split; [exact Hlog|]. right. exists ok. auto. }
  destruct (Envelope_decode _) as [decoded|e] eqn:Hdec.
  2:{ eexists. split; [exact Hlog|]. right. exists ok. split; [done|].
      right. right. left. by exists e. }
  destruct (truthy (decrypted item)) eqn:Ht.
  - destruct (is_string (decrypted item)) eqn:Hd.
    + eexists. split; [exact Hlog|]. right. exists ok. auto 10.
    + eexists. split; [reflexivity|]. left. exists decoded. auto 10.
  - eexists. split; [reflexivity|]. left. exists decoded. auto 10.
Qed.

Lemma chain_requeue_fulfils (items : list UnprocessedItem) (w : World) :
  fst (chain requeue items w) = Fulfilled tt.
Proof.
  revert w. induction items as [|item items IH]; intros w; [done|].
  rewrite chain_cons. unfold bind, then2.
  pose proof (queueCached_cases item w) as Hcase.
  destruct (requeue item w) as [r w']. injection Hcase as -> _. apply IH.
Qed.

(** X10: whatever the Store answers and whatever the items hold, the
    loop of [queueAllCached] over the loaded items is fulfilled, and it
    adds to the log one event per item, in order: the item's own
    envelope, decoded, on the task queue (with the item's decrypted
    payload when it has one), or, when the item cannot be queued, the
    request to remove that item. *)
Theorem queueCached_each_item_once (items : list UnprocessedItem) (w : World) :
  fst (chain requeue items w) = Fulfilled tt /\
  exists events : list Event,
    log (snd (chain requeue items w)) = log w ++ events /\
    Forall2 (handled_as Envelope_decode string_to_index) items events.
Proof.
  revert w. induction items as [|item items IH]; intros w.
  - split; [done|]. exists []. split; [by rewrite app_nil_r | constructor].
  - rewrite chain_cons. unfold bind, then2.
    destruct (queueCached_one_event item w) as (ev & Hlog & Hev).
    pose proof (queueCached_cases item w) as Hcase.
    destruct (requeue item w) as [r w']. injection Hcase as -> _.
    cbn [snd] in Hlog.
    destruct (IH w') as (Hf & events & Hlogs & Hall).
    split; [exact Hf|]. exists (ev :: events). split; [|by constructor].
    rewrite Hlogs, Hlog. by rewrite <- app_assoc.
Qed.

(** X11: the item [addToCache] writes is of version 2, and [queueCached]
    does not put such an item (nor one whose envelope is a string) on the
    task queue: the helper it calls is not a static member, the call
    throws, and all that happens is the request to remove the item. *)
Theorem cached_item_not_requeued (now : Z) (item : UnprocessedItem)
    (envelope : Envelope) (w : World) :
  item = cached_item now envelope \/ version item = 2
  \/ is_string (Receiver.envelope item) = true ->
  requeue item w = (Fulfilled tt, removed (item_id item) w) /\
  (exists ok : bool,
      log (snd (requeue item w))
      = log w ++ [StoreCall (RemoveUnprocessed (item_id item)) ok]) /\
  (store_rejects (log w) (RemoveUnprocessed (item_id item)) = None ->
   forall x, x ∈ unprocessed (snd (requeue item w)) -> item_id x <> item_id item).
Proof.
  intros Hitem.
  assert (requeue item w = (Fulfilled tt, removed (item_id item) w)) as Hrun.
  { rewrite queueCached_cases.
    destruct Hitem as [->|[Hv|Hs]].
    - reflexivity.
    - by rewrite decide_True.
    - rewrite Hs. by destruct (decide _). }
  split; [exact Hrun|]. rewrite Hrun. cbn [snd]. split.
  - apply removed_log.
  - intros Hok x. unfold after_removal. rewrite Hok. cbn.
    intros Hx. by apply list_elem_of_filter in Hx as [? _].
Qed.

(** X12: an item of another version whose envelope is binary is put on
    the task queue, and left in the cache, exactly when its envelope
    decodes and its decrypted payload is falsy or not a string; what is
    queued is the decoded envelope of the item, together with the item's
    payload when that is truthy; and nothing else is ever queued for
    the item. *)
Theorem binary_item_requeued_iff (item : UnprocessedItem) (bytes : list byte)
    (decoded : Envelope) (w : World) :
  version item <> 2 ->
  Receiver.envelope item = VBytes bytes ->
  let w' := snd (requeue item w) in
  let queued := fun envelope : Envelope =>
    if truthy (decrypted item)
    then QueueDecryptedEnvelope envelope (decrypted item)
    else QueueEnvelope envelope in
  ((log w' = log w ++ [queued decoded] /\ unprocessed w' = unprocessed w)
   <-> Envelope_decode bytes = Return decoded /\
       (truthy (decrypted item) = false \/ is_string (decrypted item) = false)) /\
  (forall ev : Event,
      log w' = log w ++ [ev] -> is_queued ev = true ->
      exists envelope : Envelope,
        Envelope_decode bytes = Return envelope /\ ev = queued envelope).
Proof.
  intros Hv Henv w' queued. subst w'. rewrite queueCached_cases. cbn [snd].
  rewrite decide_False by done. rewrite Henv. cbn [is_string Uint8Array_from].
  destruct (removed_log (item_id item) w) as [ok Hremoved].
  assert (forall ev : Event,
             log (removed (item_id item) w) = log w ++ [ev] ->
             is_queued ev = false) as Hnot.
  { intros ev Hlog. rewrite Hremoved in Hlog. apply app_inv_head in Hlog.
    by injection Hlog as <-. }
  subst queued. cbv beta.
  destruct (Envelope_decode bytes) as [envelope|e].
  - destruct (truthy (decrypted item)) eqn:Ht.
    + destruct (is_string (decrypted item)) eqn:Hs.
      * split.
        -- split; [|intros [_ [?|?]]; discriminate].
           intros [Hlog _]. by apply Hnot in Hlog.
        -- intros ev Hlog Hev. apply Hnot in Hlog. congruence.
      * split.
        -- split.
           ++ intros [Hlog _]. cbn in Hlog. apply app_inv_head in Hlog.
              injection Hlog as ->. split; [done|by right].
           ++ by intros [[= ->] _].
        -- intros ev Hlog _. cbn in Hlog. apply app_inv_head in Hlog.
           injection Hlog as <-. by exists envelope.
    + split.
      * split.
        -- intros [Hlog _]. cbn in Hlog. apply app_inv_head in Hlog.
           injection Hlog as ->. split; [done|by left].
        -- by intros [[= ->] _].
      * intros ev Hlog _. cbn in Hlog. apply app_inv_head in Hlog.
        injection Hlog as <-. by exists envelope.
  - split.
    + split; [|by intros [? _]].
      intros [Hlog _]. apply Hnot in Hlog. by destruct (truthy (decrypted item)).
    + intros ev Hlog Hev. apply Hnot in Hlog. congruence.
Qed.

Local Abbreviation scanned :=
  (fun (item : UnprocessedItem) (ev : Event) =>
     exists ok : bool, ev = StoreCall (scan_op item) ok).

Lemma touch_settles (item : UnprocessedItem) (w : World) :
  fst (touch store_rejects item w) = Fulfilled item /\
  exists ok : bool,
    log (snd (touch store_rejects item w))
    = log w ++ [StoreCall (scan_op item) ok].
Proof.
  unfold touch, scan_op, catch, bind, then2, removeUnprocessed,
    updateUnprocessed, store_call.
  destruct (decide (incremented item >= 3));
    destruct (store_rejects (log w) _); (split; [done|]); eexists; reflexivity.
Qed.

Lemma all_touch_settles (items : list UnprocessedItem) (w : World) :
  fst (all (map (touch store_rejects) items) w) = Fulfilled items /\
  exists events : list Event,
    log (snd (all (map (touch store_rejects) items) w)) = log w ++ events /\
    Forall2 scanned items events.
Proof.
  revert w. induction items as [|item items IH]; intros w.
  - split; [done|]. exists []. split; [by rewrite app_nil_r | constructor].
  - cbn [map all].
    destruct (touch_settles item w) as (Hf & ok & Hlog).
    destruct (touch store_rejects item w) as [r w1]. cbn [fst snd] in Hf, Hlog.
    subst r. destruct (IH w1) as (Hfs & events & Hlogs & Hall).
    destruct (all _ w1) as [rs w2]. cbn [fst snd] in Hfs, Hlogs |- *.
    subst rs. split; [done|].
    exists (StoreCall (scan_op item) ok :: events). split.
    + rewrite Hlogs, Hlog. by rewrite <- app_assoc.
    + constructor; [eauto | done].
Qed.

(** X13: once the Store has counted at most 250 items and handed them
    over, [getAllFromCache] gives back every one of them, and makes one
    Store call per item, in order, whether or not the Store accepts
    these calls: with [n] one more than the item's attempts (1 for an
    item without a count), the removal of the item when [n] is 3 or
    more, and otherwise the update of the item with [n] as its attempts
    and nothing else changed. *)
Theorem getAllFromCache_survives_rejections (w : World) :
  (length (unprocessed w) <= 250)%nat ->
  store_rejects (log w) CountUnprocessed = None ->
  store_rejects (log w ++ [StoreCall CountUnprocessed true]) GetAllUnprocessed
  = None ->
  fst (getAllFromCache store_rejects w) = Fulfilled (unprocessed w) /\
  exists events : list Event,
    log (snd (getAllFromCache store_rejects w))
    = log w ++ [StoreCall CountUnprocessed true;
                StoreCall GetAllUnprocessed true] ++ events /\
    Forall2 (fun (item : UnprocessedItem) (ev : Event) =>
               let n := 1 + default 0 (attempts item) in
               exists ok : bool,
                 ev = StoreCall
                        (if decide (n >= 3)
                         then RemoveUnprocessed (item_id item)
                         else UpdateUnprocessed (item_id item)
                                {| item_id := item_id item;
                                   version := version item;
                                   envelope := envelope item;
                                   decrypted := decrypted item;
                                   item_timestamp := item_timestamp item;
                                   attempts := Some n |})
                        ok)
            (unprocessed w) events.
Proof.
  assert (forall (item : UnprocessedItem) (ev : Event),
    scanned item ev ->
    let n := 1 + default 0 (attempts item) in
    exists ok : bool,
      ev = StoreCall
             (if decide (n >= 3)
              then RemoveUnprocessed (item_id item)
              else UpdateUnprocessed (item_id item)
                     {| item_id := item_id item; version := version item;
                        envelope := envelope item; decrypted := decrypted item;
                        item_timestamp := item_timestamp item;
                        attempts := Some n |})
             ok) as Hexplicit.
  { intros item ev [ok ->]. cbv zeta. exists ok. unfold scan_op, with_attempts.
    by rewrite incremented_explicit. }
  intros Hlen Hcount Hget.
  unfold getAllFromCache, bind, then2, countUnprocessed, getAllUnprocessed,
    store_call.
  rewrite Hcount. rewrite decide_False by lia.
  cbn [log record set_unprocessed unprocessed]. rewrite Hget.
  match goal with |- context [all _ ?w0] =>
    destruct (all_touch_settles (unprocessed w) w0) as (Hf & events & Hlog & Hall)
  end.
  split; [exact Hf|]. exists events.
  split; [|by eapply Forall2_impl; [exact Hall|]].
  rewrite Hlog. cbn -[app]. by rewrite <- !app_assoc.
Qed.

(** X14: when the Store counts more than 250 items and accepts the
    purge, [queueAllCached] leaves the cache empty and does nothing
    else: no item is loaded, updated or queued. *)
Theorem crowded_cache_purged (w : World) :
  (250 < length (unprocessed w))%nat ->
  store_rejects (log w) CountUnprocessed = None ->
  store_rejects (log w ++ [StoreCall CountUnprocessed true]) RemoveAllUnprocessed
  = None ->
  queueAllCached store_rejects Envelope_decode string_to_index worker_reply w
  = (Fulfilled tt,
     {| unprocessed := []; blocked := blocked w; worker := worker w;
        log := log w ++ [StoreCall CountUnprocessed true;
                         StoreCall RemoveAllUnprocessed true] |}).
Proof.
  intros Hlen Hcount Hpurge.
  unfold queueAllCached, getAllFromCache, bind, then2, countUnprocessed,
    removeAllUnprocessed, store_call.
  rewrite Hcount. rewrite decide_True by lia.
  cbn [log record set_unprocessed unprocessed]. rewrite Hpurge.
  unfold ret, chain. cbn -[app]. unfold ret, record, set_unprocessed.
  cbn -[app]. by rewrite <- app_assoc.
Qed.

(** X15: [queueAllCached] is never left pending, and it is rejected only
    when loading the cache fails: when the Store rejects the count, or
    the purge of a crowded cache, or the listing of the items.  It is
    then rejected with the Store's error. *)
Theorem queueAllCached_rejects_iff (w : World) (e : error) :
  let scan := queueAllCached store_rejects Envelope_decode string_to_index
                worker_reply w in
  fst scan <> Pending /\
  (fst scan = Rejected e
   <-> store_rejects (log w) CountUnprocessed = Some e \/
       (store_rejects (log w) CountUnprocessed = None /\
        store_rejects (log w ++ [StoreCall CountUnprocessed true])
          (if decide (250 < length (unprocessed w))%nat
           then RemoveAllUnprocessed else GetAllUnprocessed) = Some e)).
Proof.
  cbv zeta.
  unfold queueAllCached, getAllFromCache, bind, then2, countUnprocessed,
    removeAllUnprocessed, getAllUnprocessed, store_call.
  destruct (store_rejects (log w) CountUnprocessed) as [e0|] eqn:Hcount.
  { cbn. split; [done|]. split.
    - intros [= ->]. by left.
    - intros [[= ->]|[? _]]; done. }
  cbn [log record set_unprocessed unprocessed].
  destruct (decide (250 < length (unprocessed w))%nat) as [Hbig|Hsmall].
  - rewrite decide_True by lia.
    destruct (store_rejects _ RemoveAllUnprocessed) as [e0|] eqn:Hpurge.
    + cbn. split; [done|]. split.
      * intros [= ->]. right. done.
      * intros [?|[_ [= ->]]]; done.
    + cbn. split; [done|]. split; [done|]. intros [?|[_ ?]]; done.
  - rewrite decide_False by lia.
    destruct (store_rejects _ GetAllUnprocessed) as [e0|] eqn:Hget.
    + cbn. split; [done|]. split.
      * intros [= ->]. right. done.
      * intros [?|[_ [= ->]]]; done.
    + match goal with |- context [all _ ?w0] =>
        destruct (all_touch_settles (unprocessed w) w0) as (Hf & _)
      end.
      destruct (all _ _) as [r w1]. cbn [fst] in Hf. subst r.
      rewrite chain_requeue_fulfils. split; [done|]. split; [done|]. intros [?|[_ ?]]; done.
Qed.

End ScanFacts.

(** *** Concrete runs for the receive path *)

Lemma handleRequest_answers_witness :
  Receiver.path request0 = "/api/v1/message" /\
  exists new : list Receiver.Event,
    Receiver.log
      (snd (Receiver.handleRequest no_rejects (fun _ => Return envelope0)
              (fun b => Return b) (fun _ => 0%nat)
              (Rejected (Error "earlier message failed")) 1700000000000
              (fun _ => Pending) request0 (world_blocking [])))
    = Receiver.log (world_blocking []) ++ new /\
    ReceiverLog.responses new
    = [(200, "OK"); (500, "Bad encrypted websocket message")].
Proof.
  split; [reflexivity|].
  exact (handleRequest_answers no_rejects (fun _ => Return envelope0)
           (fun b => Return b) (fun _ => 0%nat)
           (Rejected (Error "earlier message failed")) 1700000000000
           (fun _ => Pending) request0 (world_blocking []) eq_refl).
Defined.

Lemma handleRequest_queues_iff_witness :
  Receiver.path request0 = "/api/v1/message" /\
  exists new : list Receiver.Event,
    Receiver.log (snd (handleRequest0 request0 (world_blocking [])))
    = Receiver.log (world_blocking []) ++ new /\
    Receiver.QueueEnvelope envelope0 ∈ new.
Proof.
  split; [reflexivity|].
  destruct (handleRequest_queues_iff no_rejects (fun _ => Return envelope0)
              (fun b => Return b) (fun _ => 0%nat) (Fulfilled tt) 1700000000000
              (fun _ => Pending) request0 (world_blocking []) envelope0 eq_refl)
    as (new & Hlog & Hiff).
  exists new. split; [exact Hlog|]. apply Hiff.
  split; [exists [x2a]; split; reflexivity|].
  split; [apply not_elem_of_nil|]. split; reflexivity.
Defined.

Lemma handleRequest_failures_witness :
  Receiver.path request0 = "/api/v1/message" /\
  Receiver.handleRequest no_rejects (fun _ => Return envelope0)
    (fun _ => Throw (Error "Bad MAC")) (fun _ => 0%nat) (Fulfilled tt)
    1700000000000 (fun _ => Pending) request0 (world_blocking [])
  = (Fulfilled tt, ReceiverLog.bad_message (Error "Bad MAC") (world_blocking [])).
Proof.
  split; [reflexivity|].
  destruct (handleRequest_failures no_rejects (fun _ => Return envelope0)
              (fun _ => Throw (Error "Bad MAC")) (fun _ => 0%nat) (Fulfilled tt)
              1700000000000 (fun _ => Pending) request0 (world_blocking [])
              eq_refl) as [Hbad _].
  apply Hbad. by left.
Defined.

Lemma cached_item_not_requeued_witness :
  let item := Receiver.cached_item 1700000000000 envelope0 in
  Receiver.queueCached no_rejects (fun _ => Return envelope0) (fun _ => 0%nat)
    (fun _ => Pending) item (world_caching [item])
  = (Fulfilled tt,
     ReceiverLog.after_removal no_rejects (Receiver.item_id item)
       (world_caching [item])).
Proof.
  intros item.
  destruct (cached_item_not_requeued no_rejects (fun _ => Return envelope0)
              (fun _ => 0%nat) (fun _ => Pending) 1700000000000 item envelope0
              (world_caching [item]) (or_introl eq_refl)) as [Hrun _].
  exact Hrun.
Defined.

Lemma binary_item_requeued_iff_witness :
  let w := world_caching [item_n 1] in
  let w' := snd (Receiver.queueCached no_rejects (fun _ => Return envelope0)
                   (fun _ => 0%nat) (fun _ => Pending) (item_n 1) w) in
  Receiver.version (item_n 1) <> 2 /\
  Receiver.envelope (item_n 1) = Worker.VBytes [x2a] /\
  Receiver.log w' = Receiver.log w ++ [Receiver.QueueEnvelope envelope0] /\
  Receiver.unprocessed w' = Receiver.unprocessed w.
Proof.
  intros w w'.
  assert (Receiver.version (item_n 1) <> 2) as Hv by discriminate.
  split; [exact Hv|]. split; [reflexivity|].
  destruct (binary_item_requeued_iff no_rejects (fun _ => Return envelope0)
              (fun _ => 0%nat) (fun _ => Pending) (item_n 1) [x2a] envelope0
              w Hv eq_refl) as [Hiff _].
  apply Hiff. split; [reflexivity | by left].
Defined.

Lemma getAllFromCache_survives_rejections_witness :
  let refuse_items : list Receiver.Event -> Receiver.StoreOp -> option error :=
    fun _ op =>
      match op with
      | Receiver.RemoveUnprocessed _ | Receiver.UpdateUnprocessed _ _ =>
          Some (Error "store is read-only")
      | _ => None
      end in
  let w := world_caching [item_n 1; item_n 2] in
  (length (Receiver.unprocessed w) <= 250)%nat /\
  fst (Receiver.getAllFromCache refuse_items w) = Fulfilled [item_n 1; item_n 2].
Proof.
  intros refuse_items w.
  assert (length (Receiver.unprocessed w) <= 250)%nat as Hlen by (cbn; lia).
  split; [exact Hlen|].
  destruct (getAllFromCache_survives_rejections refuse_items w Hlen eq_refl eq_refl)
    as [Hall _].
  exact Hall.
Defined.

Lemma crowded_cache_purged_witness :
  let w := world_caching (map item_n (seq 0 251)) in
  (250 < length (Receiver.unprocessed w))%nat /\
  Receiver.unprocessed (snd (queueAllCached0 w)) = [].
Proof.
  intros w.
  assert (250 < length (Receiver.unprocessed w))%nat as Hlen
    by (vm_compute; lia).
  split; [exact Hlen|].
  unfold queueAllCached0.
  by rewrite (crowded_cache_purged no_rejects (fun _ => Return envelope0)
                (fun _ => 0%nat) (fun _ => Pending) w Hlen eq_refl eq_refl).
Defined.

(** ** Send path: what a send accounts for *)

Section SendMore.
Import Async Sender SenderLog.
Variable env : Environment.
Variable this : OutgoingMessage.

Lemma quiet_ret {A} (a : A) : quiet (@ret World A a).
Proof.
  intros w. split; [done|]. exists []. split; [by rewrite app_nil_r | constructor].
Qed.


Lemma quiet_call {A} (c : Call) (answer : list Call -> Completion A) :
  is_callback c = false -> quiet (call c answer).
Proof.
  intros Hc w. unfold call. cbn. split; [done|].
  exists [c]. split; [done | by constructor].
Qed.




Lemma quiet_all {A} (ms : list (M World A)) : Forall quiet ms -> quiet (all ms).
Proof.
  induction 1 as [|m ms Hm _ IH]; [apply quiet_ret|]. intros w. cbn [all].
  destruct (Hm w) as (Ht & tl & Hc & Hn). destruct (m w) as [r w1].
  destruct (IH w1) as (Ht2 & tl2 & Hc2 & Hn2). destruct (all ms w1) as [rs w2].
  cbn [snd] in *. split; [congruence|].
  exists (tl ++ tl2). split; [by rewrite Hc2, Hc, app_assoc | by apply Forall_app].
Qed.


















(** *** One attempt: encryptions first, one post after *)

Lemma encryptFor_run (number : string) (pt : list byte) (d : Z) (w : World) :
  encryptFor env number pt d w
  = (match cipher_encrypt env (calls w) number d pt with
     | Return c =>
         Fulfilled {| type := cipher_type c; destinationDeviceId := d;
                      destinationRegistrationId := cipher_registrationId c;
                      content := btoa env (cipher_body c) |}
     | Throw e => Rejected e
     end,
     record (Encrypt number d (String.eqb (store_userGetNumber env) number) pt) w).
Proof.
  unfold encryptFor, bind, then2, call.
  by destruct (cipher_encrypt env (calls w) number d pt).
Qed.

Lemma all_encryptFor (number : string) (pt : list byte) (deviceIds : list Z)
    (w : World) :
  let run := all (map (encryptFor env number pt) deviceIds) w in
  calls (snd run) = calls w ++ encryptions env number pt deviceIds /\
  tallies (snd run) = tallies w /\
  (forall jsonData : list DeviceCiphertext,
      fst run = Fulfilled jsonData ->
      map destinationDeviceId jsonData = deviceIds) /\
  fst run <> Pending /\
  (forall e : error,
      fst run = Rejected e ->
      exists (d : Z) (h : list Call),
        d ∈ deviceIds /\ cipher_encrypt env h number d pt = Throw e).
Proof.
  revert w. induction deviceIds as [|d ids IH]; intros w; cbn [map all].
  - cbn. split; [by rewrite app_nil_r|]. split; [done|].
    split; [by intros ? [= <-]|]. split; discriminate.
  - rewrite encryptFor_run. cbv zeta.
    specialize (IH (record (Encrypt number d
                             (String.eqb (store_userGetNumber env) number) pt) w)).
    cbv zeta in IH. destruct (all _ _) as [rs w2]. cbn [fst snd] in *.
    destruct IH as (Hc & Ht & Hids & Hnp & Herr).
    split; [rewrite Hc; cbn; by rewrite <- app_assoc|]. split; [done|].
    destruct (cipher_encrypt env (calls w) number d pt) as [c|e] eqn:Hanswer.
    + destruct rs as [l|e|]; [| |done].
      * split; [|split; discriminate]. intros json [= <-]. cbn.
        f_equal. by apply Hids.
      * split; [discriminate|]. split; [discriminate|]. intros e' [= <-].
        destruct (Herr e eq_refl) as (d' & h & Hd' & Hthrow).
        exists d', h. split; [by right | done].
    + split; [discriminate|]. split; [discriminate|]. intros e' [= <-].
      exists d, (calls w). split; [by left | done].
Qed.

(** X17: one attempt asks for the encryption for every device, in the
    order of the device list, before anything else, and goes on asking
    after an encryption has failed; when all encryptions succeed it posts
    one bundle with one entry per device, in the same order, and makes no
    second post; when one fails it posts nothing and is rejected with
    the error of an encryption that failed. *)
Theorem attempt_encrypts_all_then_posts (number : string) (deviceIds : list Z)
    (pt : list byte) (w : World) :
  let encrypted := all (map (encryptFor env number pt) deviceIds) w in
  let run := attempt env this number deviceIds pt w in
  exists rest : list Call,
    calls (snd run) = calls w ++ encryptions env number pt deviceIds ++ rest /\
    match fst encrypted with
    | Fulfilled jsonData =>
        map destinationDeviceId jsonData = deviceIds /\
        exists rest' : list Call,
          rest = SendMessages number jsonData (timestamp this) (silent this)
                 :: rest' /\
          (rest' = [] \/
           rest' = [Callback (successfulNumbers (snd run)) (errors (snd run))])
    | _ =>
        rest = [] /\
        exists (e : error) (d : Z) (h : list Call),
          fst run = Rejected e /\ d ∈ deviceIds /\
          cipher_encrypt env h number d pt = Throw e
    end.
Proof.
  intros encrypted run.
  destruct (all_encryptFor number pt deviceIds w) as (Hc & _ & Hids & Hnp & Herr).
  fold encrypted in Hc, Hids, Hnp, Herr.
  assert (run = attempt env this number deviceIds pt w) as Hrun by reflexivity.
  clearbody run. unfold attempt, bind at 1, then2 at 1 in Hrun.
  fold encrypted in Hrun. destruct encrypted as [[json|e|] w1]; cbn [fst snd] in *.
  - unfold transmitMessage, catch, bind, then2, call, modify, numberCompleted in Hrun.
    destruct (server_sendMessages env (calls w1) number json) as [[]|e];
      cbn [settle] in Hrun; [unfold ret at 1 in Hrun | unfold reject at 1 in Hrun];
      cbv beta iota zeta in Hrun.
    + cbn [numbersCompleted calls errors successfulNumbers record] in Hrun.
      destruct (decide _); subst run; cbn [snd calls record errors successfulNumbers];
        eexists; rewrite Hc, <- ?app_assoc;
        (split; [reflexivity|]); (split; [by apply Hids|]);
        eexists; (split; [reflexivity|]); auto.
    + destruct (_ && _); [destruct (bool_decide _)|];
        unfold reject in Hrun; subst run; cbn; eexists; rewrite Hc, <- ?app_assoc;
        (split; [reflexivity|]); (split; [by apply Hids|]);
        eexists; (split; [reflexivity|]); auto.
  - subst run. exists []. rewrite app_nil_r. do 2 (split; [done|]).
    destruct (Herr e eq_refl) as (d & h & Hd & Hthrow). by exists e, d, h.
  - done.
Qed.

(** *** What the post hands on *)

(** X18: [transmitMessage] makes one call, the post; it is fulfilled
    exactly when the server accepts; an [HTTPError] leaves it only with
    code 409 or 410; a 404 leaves it as an [UnregisteredUserError] for the
    number, every other HTTP failure as a [SendMessageNetworkError] that
    carries the number, the cause and the timestamp; an error that is no
    [HTTPError] is passed on as it is. *)
Theorem transmitMessage_outcome (number : string)
    (jsonData : list DeviceCiphertext) (w : World) :
  let run := transmitMessage env this number jsonData w in
  let answer := server_sendMessages env (calls w) number jsonData in
  snd run = record (SendMessages number jsonData (timestamp this) (silent this)) w /\
  (fst run = Fulfilled tt <-> answer = Return tt) /\
  (forall e' : error,
      fst run = Rejected e' ->
      (name_of e' = "HTTPError" ->
       code_of e' = Some 409 \/ code_of e' = Some 410) /\
      exists e : error,
        answer = Throw e /\
        (e' = e /\
         (name_of e <> "HTTPError" \/ code_of e = Some 409 \/ code_of e = Some 410) \/
         e' = UnregisteredUserError number e /\ code_of e = Some 404 \/
         e' = SendMessageNetworkError number e (timestamp this) /\
         code_of e <> Some 404)).
Proof.
  intros run answer. unfold run, transmitMessage, catch, then2, call. fold answer.
  destruct answer as [[]|e]; cbn [settle].
  - cbn. split; [done|]. split; [done|]. discriminate.
  - unfold reject at 1. cbv beta iota zeta.
    destruct (String.eqb (name_of e) "HTTPError") eqn:Hname; cbn [andb].
    + apply String.eqb_eq in Hname.
      destruct (bool_decide (code_of e = Some 409)) eqn:H409; cbn [negb andb].
      { apply bool_decide_eq_true in H409. cbn. split; [done|].
        split; [split; discriminate|]. intros e' [= <-]. split; [auto|].
        exists e. split; [done|]. left. auto. }
      destruct (bool_decide (code_of e = Some 410)) eqn:H410; cbn [negb andb].
      { apply bool_decide_eq_true in H410. cbn. split; [done|].
        split; [split; discriminate|]. intros e' [= <-]. split; [auto|].
        exists e. split; [done|]. left. auto. }
      destruct (bool_decide (code_of e = Some 404)) eqn:H404.
      * apply bool_decide_eq_true in H404. cbn. split; [done|].
        split; [split; discriminate|]. intros e' [= <-]. split; [discriminate|].
        exists e. split; [done|]. right. left. auto.
      * apply bool_decide_eq_false in H404. cbn. split; [done|].
        split; [split; discriminate|]. intros e' [= <-]. split; [discriminate|].
        exists e. split; [done|]. right. right. auto.
    + apply String.eqb_neq in Hname. cbn. split; [done|].
      split; [split; discriminate|]. intros e' [= <-]. split; [done|].
      exists e. split; [done|]. left. auto.
Qed.

(** *** A post that fails for good *)


(** *** Recovery from 409 *)

Lemma removeDeviceIdsForNumber_cons (number : string) (d : Z) (ids : list Z)
    (w : World) :
  removeDeviceIdsForNumber env number (d :: ids) w
  = match store_removeSession env (calls w) (encodedNumber number d) with
    | Return _ =>
        removeDeviceIdsForNumber env number ids
          (record (RemoveSession (encodedNumber number d)) w)
    | Throw e => (Rejected e, record (RemoveSession (encodedNumber number d)) w)
    end.
Proof.
  unfold removeDeviceIdsForNumber. rewrite chain_cons. unfold bind, then2, call.
  by destruct (store_removeSession env (calls w) (encodedNumber number d)) as [[]|e].
Qed.

Lemma removeDeviceIdsForNumber_serial (number : string) (ids : list Z)
    (w : World) :
  let run := removeDeviceIdsForNumber env number ids w in
  match fst run with
  | Fulfilled _ => calls (snd run) = calls w ++ removals number ids
  | Rejected e =>
      exists (before : list Z) (d : Z) (after : list Z),
        ids = before ++ d :: after /\
        calls (snd run) = calls w ++ removals number (before ++ [d]) /\
        store_removeSession env (calls w ++ removals number before)
          (encodedNumber number d) = Throw e
  | Pending => False
  end.
Proof.
  cbv zeta. revert w. induction ids as [|d ids IH]; intros w.
  - cbn. by rewrite app_nil_r.
  - rewrite removeDeviceIdsForNumber_cons.
    destruct (store_removeSession env (calls w) (encodedNumber number d))
      as [[]|e] eqn:Hanswer.
    + specialize (IH (record (RemoveSession (encodedNumber number d)) w)).
      destruct (fst (removeDeviceIdsForNumber env number ids _)) as [[]|e|];
        [| |done].
      * rewrite IH. cbn. by rewrite <- app_assoc.
      * destruct IH as (before & d' & after & -> & Hc & Hthrow).
        exists (d :: before), d', after. split; [done|]. split.
        -- rewrite Hc. cbn. by rewrite <- app_assoc.
        -- cbn in Hthrow |- *. by rewrite <- app_assoc in Hthrow.
    + cbn. exists [], d, ids. split; [done|]. split; [done|].
      cbn. by rewrite app_nil_r.
Qed.

Lemma getKeysForNumber_whole_calls (number : string) (w : World) :
  exists rest : list Call,
    calls (snd (getKeysForNumber env number None w))
    = calls w ++ GetKeysForNumber number None :: rest /\
    no_fetch rest.
Proof.
  cbn [getKeysForNumber]. unfold bind at 1, then2 at 1, call.
  destruct (server_getKeysForNumber env (calls w) number None) as [response|e];
    cbn [settle].
  - destruct (handleResult_no_fetch env number None response
                (record (GetKeysForNumber number None) w)) as (tl & Htl & Hn).
    unfold bind, then2.
    destruct (handleResult _ _ _ _ _) as [[l|e|] w2]; cbn [snd] in Htl;
      cbn; exists tl; (split; [|done]); rewrite Htl; cbn;
      by rewrite <- app_assoc.
  - cbn. exists []. split; [done | constructor].
Qed.

(** X20: when an attempt of [doSendMessage] made with [recurse = true]
    is answered 409, the sessions of the extra devices the answer lists
    (none when it lists none) are removed, one after the other and in
    list order, up to the first removal that fails; once they are
    removed, the keys of the missing devices the answer lists are
    fetched, one by one, or, when the answer has no list of missing
    devices, the keys of the whole number in one fetch; once these are
    fetched, the Store is asked for the devices of the number again and
    the message is sent to them, still with [recurse = true]
    (an error is registered instead when the Store knows none). *)
Theorem mismatched_devices_recovery (fuel : nat) (number : string)
    (deviceIds : list Z) (w wp w1 : World) (pt : list byte) (msg : string)
    (resp : HTTPResponse) :
  getPlaintext env this w = (Fulfilled pt, wp) ->
  attempt env this number deviceIds pt wp
  = (Rejected (HTTPError msg 409 resp), w1) ->
  let extra := default [] (extraDevices resp) in
  let removing := removeDeviceIdsForNumber env number extra in
  let fetching := getKeysForNumber env number (missingDevices resp) in
  let run := doSendMessage env this (S fuel) number deviceIds true w in
  match fst (removing w1) with
  | Fulfilled _ => calls (snd (removing w1)) = calls w1 ++ removals number extra
  | Rejected e =>
      exists (before : list Z) (d : Z) (after : list Z),
        extra = before ++ d :: after /\
        calls (snd (removing w1)) = calls w1 ++ removals number (before ++ [d]) /\
        store_removeSession env (calls w1 ++ removals number before)
          (encodedNumber number d) = Throw e
  | Pending => False
  end /\
  (forall w' : World,
      match missingDevices resp with
      | Some missing =>
          exists (k : nat) (segments : list (list Call)),
            calls (snd (fetching w')) = calls w' ++ concat segments /\
            fetched_serially number (take k missing) segments /\
            (fst (fetching w') = Fulfilled tt -> k = length missing)
      | None =>
          exists rest : list Call,
            calls (snd (fetching w'))
            = calls w' ++ GetKeysForNumber number None :: rest /\
            no_fetch rest
      end) /\
  (let (removed, w2) := removing w1 in
   match removed with
   | Fulfilled _ =>
       let (fetched, w3) := fetching w2 in
       match fetched with
       | Fulfilled _ =>
           let w4 := record (GetDeviceIds number) w3 in
           match store_getDeviceIds env (calls w3) number with
           | Return [] =>
               run = registerError env this number
                       "Got empty device list when loading device keys" None w4
           | Return reloaded =>
               run = doSendMessage env this fuel number reloaded true w4
           | Throw e => run = (Rejected e, w4)
           end
       | Rejected e => run = (Rejected e, w3)
       | Pending => run = (Pending, w3)
       end
   | Rejected e => run = (Rejected e, w2)
   | Pending => run = (Pending, w2)
   end).
Proof.
  intros Hpt Hattempt extra removing fetching run.
  split; [apply removeDeviceIdsForNumber_serial|].
  split.
  { intros w'. unfold fetching. destruct (missingDevices resp) as [missing|].
    - apply chain_fetchDevice_serial.
    - apply getKeysForNumber_whole_calls. }
  assert (run = (removing ;;; fetching ;;;
                 reloadDevicesAndSendWith env this (doSendMessage env this fuel)
                   number true)%async w1) as Hrun.
  { unfold run. cbn [doSendMessage]. unfold bind at 1, then2 at 1. rewrite Hpt.
    unfold catch, then2 at 1. rewrite Hattempt.
    unfold recover.
    cbn [name_of code_of response_of String.eqb Ascii.eqb Bool.eqb].
    rewrite !(bool_decide_true (Some 409 = Some 409)) by done.
    rewrite !(bool_decide_false (Some 409 = Some 410)) by done.
    cbn [andb orb negb]. reflexivity. }
  clearbody run. unfold bind at 1, then2 at 1 in Hrun.
  destruct (removing w1) as [[[]|e|] w2]; [|done..].
  unfold bind at 1, then2 at 1 in Hrun.
  destruct (fetching w2) as [[[]|e|] w3]; [|done..].
  unfold reloadDevicesAndSendWith, bind, then2, call in Hrun.
  destruct (store_getDeviceIds env (calls w3) number) as [[|d ids]|e];
    cbn [settle] in Hrun; [|cbn [length] in Hrun|done].
  - by rewrite decide_True in Hrun by done.
  - by rewrite decide_False in Hrun by done.
Qed.

(** *** A server that never stops answering 409 *)

Lemma fulfils_ret {A} (a : A) : fulfils (@ret World A a).
Proof. intros w. by exists a. Qed.

Lemma fulfils_call {A} (c : Call) (answer : list Call -> Completion A) :
  (forall h, exists a, answer h = Return a) -> fulfils (call c answer).
Proof. intros Hanswer w. destruct (Hanswer (calls w)) as [a Ha]. exists a. unfold call. by rewrite Ha. Qed.

Lemma fulfils_bind {A B} (m : M World A) (k : A -> M World B) :
  fulfils m -> (forall a, fulfils (k a)) -> fulfils (bind m k).
Proof.
  intros Hm Hk w. unfold bind, then2. destruct (Hm w) as [a Ha].
  destruct (m w) as [r w1]. cbn [fst] in Ha. subst r. apply Hk.
Qed.

Lemma fulfils_catch {A} (m : M World A) (h : error -> M World A) :
  fulfils m -> fulfils (catch m h).
Proof.
  intros Hm w. unfold catch, then2. destruct (Hm w) as [a Ha].
  destruct (m w) as [r w1]. cbn [fst] in Ha. subst r. by exists a.
Qed.

Lemma fulfils_all {A} (ms : list (M World A)) : Forall fulfils ms -> fulfils (all ms).
Proof.
  induction 1 as [|m ms Hm _ IH]; [apply fulfils_ret|]. intros w. cbn [all].
  destruct (Hm w) as [a Ha]. destruct (m w) as [r w1]. cbn [fst] in Ha. subst r.
  destruct (IH w1) as [l Hl]. destruct (all ms w1) as [rs w2]. cbn [fst] in Hl.
  subst rs. by exists (a :: l).
Qed.

Lemma fulfils_chain {A} (body : A -> M World unit) (xs : list A) :
  (forall x, fulfils (body x)) -> fulfils (chain body xs).
Proof.
  intros Hbody. induction xs as [|x xs IH]; [apply fulfils_ret|].
  intros w. rewrite chain_cons. by apply fulfils_bind.
Qed.

Lemma fulfils_getPlaintext : fulfils (getPlaintext env this).
Proof.
  intros w. unfold getPlaintext. destruct (plaintext w) as [p|]; [by exists p|].
  destruct (buildPlaintext_shape (Content_encode env (message this)))
    as (k & -> & _).
  by eexists.
Qed.

Lemma bind_fulfils_pending {A} (m : M World A) (k : A -> M World unit) (w : World) :
  fulfils m -> (forall a w1, fst (k a w1) = Pending) -> fst (bind m k w) = Pending.
Proof.
  intros Hm Hk. unfold bind, then2. destruct (Hm w) as [a Ha].
  destruct (m w) as [r w1]. cbn [fst] in Ha. subst r. apply Hk.
Qed.

(** X21: the retry after a 409 has no limit.  With a server that answers
    every post for the number with 409, and collaborators that do what
    they are asked (encryptions, session removals, key fetches and
    pre-key processing succeed, the Store knows a device of the
    number), [doSendMessage] called with [recurse = true] is not settled
    after any number of attempts.  The 409 is one that lists its missing
    devices. *)
Theorem conflict_without_end (number msg : string) (resp : HTTPResponse)
    (missing : list Z) :
  missingDevices resp = Some missing ->
  (forall h jsonData,
      server_sendMessages env h number jsonData = Throw (HTTPError msg 409 resp)) ->
  (forall h d pt, exists c, cipher_encrypt env h number d pt = Return c) ->
  (forall h encoded, exists u, store_removeSession env h encoded = Return u) ->
  (forall h d, exists r, server_getKeysForNumber env h number (Some d) = Return r) ->
  (forall h d, exists u, builder_processPreKey env h number d = Return u) ->
  (forall h, exists ids,
      store_getDeviceIds env h number = Return ids /\ ids <> []) ->
  forall (fuel : nat) (deviceIds : list Z) (w : World),
    fst (doSendMessage env this fuel number deviceIds true w) = Pending.
Proof.
  intros Hmissing Hsend Henc Hrem Hkeys Hpre Hids fuel.
  induction fuel as [|fuel IH]; intros deviceIds w; cbn [doSendMessage]; [done|].
  apply bind_fulfils_pending; [apply fulfils_getPlaintext|]. intros pt w1.
  assert (exists w2, attempt env this number deviceIds pt w1
                     = (Rejected (HTTPError msg 409 resp), w2)) as [w2 Hattempt].
  { unfold attempt, bind at 1, then2 at 1.
    assert (fulfils (all (map (encryptFor env number pt) deviceIds))) as Hall.
    { apply fulfils_all, Forall_forall. intros m Hm.
      apply list_elem_of_In, in_map_iff in Hm as (device & <- & _).
      apply fulfils_bind; [by apply fulfils_call | intros c; apply fulfils_ret]. }
    destruct (Hall w1) as [json Hjson].
    destruct (all _ w1) as [r w']. cbn [fst] in Hjson. subst r.
    unfold transmitMessage, bind at 1, then2 at 1, catch, then2 at 1, call.
    rewrite Hsend. cbn [settle]. unfold reject at 1. cbv beta iota zeta.
    cbn [name_of code_of String.eqb Ascii.eqb Bool.eqb].
    rewrite !(bool_decide_true (Some 409 = Some 409)) by done.
    cbn [negb andb]. unfold reject at 1. cbv beta iota zeta.
    unfold reject at 1. by eexists. }
  unfold catch, then2. rewrite Hattempt.
  unfold recover. cbn [name_of code_of response_of String.eqb Ascii.eqb Bool.eqb].
  rewrite !(bool_decide_true (Some 409 = Some 409)) by done.
  rewrite !(bool_decide_false (Some 409 = Some 410)) by done.
  cbn [andb orb negb].
  apply bind_fulfils_pending.
  { apply fulfils_chain. intros d. by apply fulfils_call. }
  intros _ w3. apply bind_fulfils_pending.
  { rewrite Hmissing. cbn [getKeysForNumber]. apply fulfils_chain. intros d.
    apply fulfils_catch, fulfils_bind; [by apply fulfils_call|]. intros r.
    apply fulfils_bind; [|intros _; apply fulfils_ret].
    apply fulfils_all, Forall_forall. intros m Hm.
    apply list_elem_of_In, in_map_iff in Hm as (device & <- & _).
    destruct (bool_decide _); [|apply fulfils_ret].
    apply fulfils_catch. by apply fulfils_call. }
  intros _ w4. unfold reloadDevicesAndSendWith, bind, then2, call.
  destruct (Hids (calls w4)) as (ids & -> & Hne). cbn [settle].
  rewrite decide_False by (by destruct ids). apply IH.
Qed.

(** *** A stale device the attempt did not encrypt for *)

Lemma ciphersFor_lookup_None (number : string) (deviceIds : list Z) (device : Z) :
  device ∉ deviceIds -> ciphersFor number deviceIds !! device = None.
Proof.
  unfold ciphersFor. intros Hnot.
  assert (forall acc : gmap Z (string * Z),
    acc !! device = None ->
    foldl (fun ciphers d => <[d := (number, d)]> ciphers) acc deviceIds !! device
    = None) as Hgen.
  { induction deviceIds as [|x xs IH]; intros acc Hacc; cbn [foldl]; [done|].
    apply not_elem_of_cons in Hnot as [Hne Hnot]. apply IH; [done|].
    by rewrite lookup_insert_ne. }
  by apply Hgen.
Qed.

Lemma closeStale_missing (ciphers : gmap Z (string * Z)) (number : string)
    (before : list Z) (missing : Z) (after : list Z)
    (started : list (M World unit)) (w : World) :
  (forall d, d ∈ before -> ciphers !! d = Some (number, d)) ->
  ciphers !! missing = None ->
  closeStale env ciphers (before ++ missing :: after) started w
  = (Rejected (TypeError
       "Cannot read property 'closeOpenSessionForDevice' of undefined"),
     snd (all (started ++ map (Sender.closeCall env number) before) w)).
Proof.
  revert started. induction before as [|d before IH]; intros started Hall Hnone;
    cbn [app closeStale map].
  - rewrite Hnone. by rewrite app_nil_r.
  - rewrite (Hall d) by left. rewrite IH; [|intros d' Hd'; apply Hall; by right|done].
    by rewrite <- app_assoc.
Qed.

(** X22: when a 410 names a stale device for which the attempt made no
    session cipher (it is not in the device list the attempt was made
    for), the recovery fails on it: the sessions of the stale devices
    listed before it are asked to close, those after it are not, no key
    is fetched, nothing is registered for the number, and
    [doSendMessage] is rejected with a [TypeError]. *)
Theorem stale_device_without_cipher (fuel : nat) (number : string)
    (deviceIds : list Z) (w wp w1 : World) (pt : list byte) (msg : string)
    (resp : HTTPResponse) (before : list Z) (missing : Z) (after : list Z) :
  getPlaintext env this w = (Fulfilled pt, wp) ->
  attempt env this number deviceIds pt wp
  = (Rejected (HTTPError msg 410 resp), w1) ->
  staleDevices resp = Some (before ++ missing :: after) ->
  (forall d, d ∈ before -> d ∈ deviceIds) ->
  missing ∉ deviceIds ->
  exists w' : World,
    doSendMessage env this (S fuel) number deviceIds true w
    = (Rejected (TypeError
         "Cannot read property 'closeOpenSessionForDevice' of undefined"), w') /\
    calls w' = calls w1 ++ map (CloseOpenSessionForDevice number) before /\
    tallies w' = tallies w1.
Proof.
  intros Hpt Hattempt Hstale Hbefore Hmissing.
  cbn [doSendMessage]. unfold bind at 1, then2 at 1. rewrite Hpt.
  unfold catch, then2 at 1. rewrite Hattempt.
  unfold recover. cbn [name_of code_of response_of String.eqb Ascii.eqb Bool.eqb].
  rewrite (bool_decide_true (Some 410 = Some 410)) by done.
  rewrite !(bool_decide_false (Some 410 = Some 409)) by done.
  cbn [andb orb negb]. rewrite Hstale.
  unfold bind at 1, then2 at 1. unfold bind at 1, then2 at 1.
  rewrite (closeStale_missing _ number)
    by (try (intros d Hd; apply ciphersFor_lookup, Hbefore, Hd);
        by apply ciphersFor_lookup_None).
  cbn [app]. unfold reject. eexists. split; [reflexivity|]. split.
  - apply all_closeCall_calls.
  - apply quiet_all, Forall_forall. intros m Hm.
    apply list_elem_of_In, in_map_iff in Hm as (device & <- & _).
    by apply quiet_call.
Qed.

(** *** Loading the device list again *)

(** X23: [reloadDevicesAndSend] asks the Store for the devices of the
    number.  When the Store fails, it is rejected with the Store's
    error and nothing is registered; when the Store knows no device, it
    sends nothing, registers an [OutgoingMessageError] without a cause
    under the reason "Got empty device list when loading device keys"
    and counts the number as completed; otherwise it is
    [doSendMessage] for the devices the Store gave, with the same
    [recurse]. *)
Theorem reloadDevicesAndSend_cases (fuel : nat) (number : string)
    (recurse : bool) (w : World) :
  let run := reloadDevicesAndSend env this fuel number recurse w in
  let w1 := record (GetDeviceIds number) w in
  match store_getDeviceIds env (calls w) number with
  | Throw e => run = (Rejected e, w1)
  | Return [] =>
      exists w' : World,
        run = (Fulfilled tt, w') /\
        errors w'
        = errors w
          ++ [{| registered :=
                   OutgoingMessageError number
                     (Content_encode env (message this)) (timestamp this) None;
                 error_number := number;
                 error_reason :=
                   "Got empty device list when loading device keys" |}] /\
        numbersCompleted w' = numbersCompleted w + 1 /\
        successfulNumbers w' = successfulNumbers w /\
        (calls w' = calls w1 \/
         calls w' = calls w1 ++ [Callback (successfulNumbers w') (errors w')])
  | Return deviceIds =>
      run = doSendMessage env this fuel number deviceIds recurse w1
  end.
Proof.
  intros run w1.
  assert (run = match store_getDeviceIds env (calls w) number with
                | Return ids =>
                    (if decide (length ids = 0%nat)
                     then registerError env this number
                            "Got empty device list when loading device keys" None
                     else doSendMessage env this fuel number ids recurse) w1
                | Throw e => (Rejected e, w1)
                end) as Hrun.
  { unfold run, reloadDevicesAndSend, reloadDevicesAndSendWith, bind, then2, call.
    by destruct (store_getDeviceIds env (calls w) number). }
  clearbody run.
  destruct (store_getDeviceIds env (calls w) number) as [[|d ids]|e];
    [|cbn [length] in Hrun; by rewrite decide_False in Hrun|done].
  cbn [length] in Hrun. rewrite decide_True in Hrun by done. subst run w1.
  unfold registerError, bind, then2, modify, numberCompleted.
  cbn [numbersCompleted errors successfulNumbers calls record].
  destruct (decide _); eexists; (split; [reflexivity|]); cbn; auto.
Qed.

(** *** Keys of a whole account *)

Lemma processListed_run (number : string) (updateDevices : option (list Z))
    (d : Device) (w : World) :
  (if listed updateDevices d
   then catch (call (ProcessPreKey number d)
                    (fun h => builder_processPreKey env h number d))
              (fun error => reject error)
   else ret tt) w
  = if listed updateDevices d
    then (settle (builder_processPreKey env (calls w) number d),
          record (ProcessPreKey number d) w)
    else (Fulfilled tt, w).
Proof.
  destruct (listed updateDevices d); [|done]. unfold catch, then2, call.
  by destruct (builder_processPreKey env (calls w) number d).
Qed.

Lemma handleResult_calls (number : string) (updateDevices : option (list Z))
    (response : KeysResponse) (w : World) :
  let run := handleResult env number updateDevices response w in
  calls (snd run)
  = calls w
    ++ map (ProcessPreKey number) (filter (fun d => listed updateDevices d = true)
                                          (devices response)) /\
  fst run <> Pending.
Proof.
  cbv zeta. unfold handleResult. revert w.
  induction (devices response) as [|d ds IH]; intros w; cbn [map all].
  - cbn. by rewrite app_nil_r.
  - rewrite filter_cons. fold (listed updateDevices d).
    rewrite processListed_run. destruct (listed updateDevices d) eqn:Hl.
    + rewrite decide_True by done.
      specialize (IH (record (ProcessPreKey number d) w)).
      destruct (all _ _) as [rs w2]. cbn [fst snd] in *.
      destruct IH as [-> Hnp]. split; [cbn; by rewrite <- app_assoc|].
      destruct (builder_processPreKey env (calls w) number d) as [[]|e];
        cbn [settle]; by destruct rs.
    + rewrite decide_False by done.
      specialize (IH w). destruct (all _ _) as [rs w2]. cbn [fst snd] in *.
      destruct IH as [-> Hnp]. split; [done|]. by destruct rs.
Qed.

(** X24: without a device list, [getKeysForNumber] makes one key fetch
    for the whole number.  A failed fetch is passed on as it is, a 404
    too, and nothing else is called.  After an answered fetch the
    pre-key of every device of the answer is processed, in the order of
    the answer and going on after a failure.  With a device list, only
    the devices of an answer that are on the list have their pre-key
    processed. *)
Theorem getKeysForNumber_whole_account (number : string) (w : World) :
  let run := getKeysForNumber env number None w in
  let w1 := record (GetKeysForNumber number None) w in
  match server_getKeysForNumber env (calls w) number None with
  | Throw e => run = (Rejected e, w1)
  | Return response =>
      calls (snd run)
      = calls w1 ++ map (ProcessPreKey number) (devices response) /\
      fst run <> Pending /\
      forall (updateDevices : list Z) (w' : World),
        calls (snd (handleResult env number (Some updateDevices) response w'))
        = calls w'
          ++ map (ProcessPreKey number)
               (filter (fun d => deviceId d ∈ updateDevices) (devices response))
  end.
Proof.
  intros run w1.
  assert (run = match server_getKeysForNumber env (calls w) number None with
                | Return response =>
                    (handleResult env number None response ;;; ret tt)%async w1
                | Throw e => (Rejected e, w1)
                end) as Hrun.
  { unfold run. cbn [getKeysForNumber]. unfold bind at 1, then2 at 1, call.
    by destruct (server_getKeysForNumber env (calls w) number None). }
  clearbody run.
  destruct (server_getKeysForNumber env (calls w) number None) as [response|e];
    [|done].
  assert (filter (fun d => listed None d = true) (devices response)
          = devices response) as Hall.
  { induction (devices response) as [|d ds IH]; [done|].
    rewrite filter_cons_True by done. by rewrite IH. }
  destruct (handleResult_calls number None response w1) as [Hc Hnp].
  cbv zeta in Hc, Hnp.
  rewrite Hall in Hc. subst run. unfold bind, then2.
  split; [|split].
  - by destruct (handleResult _ _ _ _ _) as [[l|e|] w2].
  - by destruct (handleResult _ _ _ _ _) as [[l|e|] w2].
  - intros updateDevices w'.
    destruct (handleResult_calls number (Some updateDevices) response w') as [-> _].
    f_equal. f_equal. apply list_filter_iff. intros d. cbn [listed].
    by rewrite bool_decide_eq_true.
Qed.

End SendMore.

(** *** Concrete runs for the send path *)


Lemma mismatched_devices_recovery_witness :
  let run := Sender.doSendMessage env409 this0 1 "+15550001111" [1] true fresh in
  fst run = Pending /\
  last (Sender.calls (snd run)) = Some (Sender.GetDeviceIds "+15550001111").
Proof.
  intros run.
  destruct (mismatched_devices_recovery env409 this0 0 "+15550001111" [1] fresh
              _ _ _ _ _ eq_refl eq_refl) as (_ & _ & Hrun).
  eassert (run = Sender.doSendMessage env409 this0 0 "+15550001111" [1] true _)
    as Hretry by exact Hrun.
  rewrite Hretry. split; reflexivity.
Defined.

Lemma conflict_without_end_witness :
  fst (Sender.doSendMessage env409 this0 7 "+15550001111" [1] true fresh) = Pending.
Proof.
  apply (conflict_without_end env409 this0 "+15550001111"
           "mismatched devices; code: 409" noDevices []).
  - reflexivity.
  - reflexivity.
  - intros h d pt. eexists. reflexivity.
  - intros h encoded. by exists tt.
  - intros h d. eexists. reflexivity.
  - intros h d. by exists tt.
  - intros h. exists [1]. by split.
Defined.

Lemma stale_device_without_cipher_witness :
  fst (Sender.doSendMessage env0 this0 1 "+15550001111" [2] true fresh)
  = Rejected (TypeError
      "Cannot read property 'closeOpenSessionForDevice' of undefined").
Proof.
  destruct (stale_device_without_cipher env0 this0 0 "+15550001111" [2] fresh
              _ _ _ _ _ [] 1 [] eq_refl eq_refl eq_refl)
    as (w' & Hrun & _).
  - intros d Hd. by apply elem_of_nil in Hd.
  - intros Hin. apply list_elem_of_singleton in Hin. discriminate.
  - by rewrite Hrun.
Defined.

(** ** Flag handling: what comes out *)

Section FlagsMore.
Import JS ProcessDecrypted.
Variable FLAGS : FlagsEnum.

Lemma bitand_0_l (x : Z) : bitand 0 x = 0.
Proof. unfold bitand. by change (ToInt32 0) with 0. Qed.

Lemma with_defaults_fields (decrypted : DataMessage) :
  flags (with_defaults decrypted) = Some (default 0 (flags decrypted)) /\
  expireTimer (with_defaults decrypted)
  = Some (default 0 (expireTimer decrypted)) /\
  body (with_defaults decrypted) = body decrypted /\
  attachments (with_defaults decrypted) = attachments decrypted /\
  group (with_defaults decrypted) = group decrypted.
Proof. by destruct decrypted as [b a g [f|] [t|]]. Qed.

Lemma with_defaults_fixed (decrypted : DataMessage) (f t : Z) :
  flags decrypted = Some f -> expireTimer decrypted = Some t ->
  with_defaults decrypted = decrypted.
Proof. destruct decrypted as [b a g fl et]. cbn. by intros -> ->. Qed.

(** X25: whatever the values of the three flags, the flag handling of
    [processDecrypted] fails only with "Unknown flags in message"; a
    message that passes has a number for [flags] and for [expireTimer]
    (0 where the input had none), has lost body and attachments when its
    flags are not 0 and is otherwise as it came, has lost its group when
    the handling ended early for END_SESSION; and passing the result
    through the flag handling again changes nothing. *)
Theorem processDecrypted_flag_outcome (decrypted : DataMessage) :
  let f := default 0 (flags decrypted) in
  let t := default 0 (expireTimer decrypted) in
  match processDecrypted FLAGS decrypted with
  | Throw e => e = UnknownFlags
  | Return out =>
      let m := decrypted_of out in
      flags m = Some f /\ expireTimer m = Some t /\
      (f <> 0 -> body m = None /\ attachments m = []) /\
      (f = 0 ->
       out = GoesOn m /\ body m = body decrypted /\
       attachments m = attachments decrypted /\ group m = group decrypted) /\
      (forall m', out = Resolved m' -> group m' = None) /\
      (forall m', out = GoesOn m' -> group m' = group decrypted) /\
      processDecrypted FLAGS m = Return out
  end.
Proof.
  intros f t. unfold processDecrypted.
  destruct (with_defaults_fields decrypted) as (Hf & Ht & Hb & Ha & Hg).
  fold f in Hf. fold t in Ht. cbv zeta. rewrite Hf.
  change (default 0 (Some f)) with f.
  destruct (decide (bitand f (END_SESSION FLAGS) <> 0)) as [H1|H1].
  { cbn. rewrite Ht. do 2 (split; [done|]). split; [done|].
    split; [intros ->; by rewrite bitand_0_l in H1|].
    split; [by intros ? [= <-]|]. split; [discriminate|].
    by rewrite decide_True by done. }
  destruct (decide (bitand f (EXPIRATION_TIMER_UPDATE FLAGS) <> 0)) as [H2|H2].
  { cbn. rewrite Ht. do 2 (split; [done|]). split; [done|].
    split; [intros ->; by rewrite bitand_0_l in H2|].
    split; [discriminate|]. split; [by intros ? [= <-]|].
    rewrite decide_False by done. by rewrite decide_True by done. }
  destruct (decide (bitand f (PROFILE_KEY_UPDATE FLAGS) <> 0)) as [H3|H3].
  { cbn. rewrite Ht. do 2 (split; [done|]). split; [done|].
    split; [intros ->; by rewrite bitand_0_l in H3|].
    split; [discriminate|]. split; [by intros ? [= <-]|].
    rewrite !decide_False by done. by rewrite decide_True by done. }
  destruct (decide (f <> 0)) as [H4|H4]; [done|].
  cbn [decrypted_of]. do 2 (split; [done|]). split; [done|].
  split; [done|]. split; [discriminate|]. split; [by intros ? [= <-]|].
  rewrite (with_defaults_fixed _ f t) by done. rewrite Hf.
  change (default 0 (Some f)) with f.
  by rewrite !decide_False by done.
Qed.

End FlagsMore.
